(** * A shallow embedding of [github.com/ochipin/request]

    The package builds one outbound HTTP request from a [Request]
    configuration (URL, credentials, timeout, proxy, headers, values),
    sends it through a timeout-bound client and classifies the response.

    Layout of this development:
    - [gostrings], [base64], [url], [utf8], [json], [time], [tls], [io],
      [http]: the parts of the Go standard library that request.go
      calls, written out as executable functions (Go 1.22 behaviour), so
      that the package's functions can be run on concrete inputs;
    - [ResponseStatus], [HeaderType], [Proxy], [Request]: request.go
      itself, function by function;
    - the properties of the package, each named after the claim of the
      specification that it settles;
    - further properties of the same functions, read off the code.

    Go strings are byte sequences: they are modelled by [string], whose
    characters are the 256 byte values.  Go's [int] and [time.Duration]
    are 64-bit two's complement integers: they are modelled by [Z] with
    the wrap-around written out.  The network is not part of the program:
    what [http.Client.Do] answers is a parameter of [Send]. *)

From Stdlib Require Import ZArith NArith Ascii String List Bool Lia.
From stdpp Require Import base option list strings gmap fin_maps sorting.

Local Open Scope Z_scope.

(** ** Bytes *)

Definition byte_val (c : ascii) : N := N_of_ascii c.

Definition between (lo hi c : ascii) : bool :=
  ((byte_val lo <=? byte_val c) && (byte_val c <=? byte_val hi))%N.

Definition is_letter (c : ascii) : bool :=
  between "a" "z" c || between "A" "Z" c.

Definition is_digit (c : ascii) : bool := between "0" "9" c.

(** The double quote and the backslash. *)
Definition dquote : ascii := Eval cbv in ascii_of_N 34.
Definition bslash : ascii := Eval cbv in ascii_of_N 92.

(** [c ∈ set], for a set of bytes written as a string. *)
Fixpoint byte_in (c : ascii) (set : string) : bool :=
  match set with
  | EmptyString => false
  | String d set' => Ascii.eqb c d || byte_in c set'
  end.

(** ** Package [strings] *)

Module gostrings.

Fixpoint index_from (i : Z) (sep s : string) : Z :=
  if String.prefix sep s then i
  else match s with
       | EmptyString => -1
       | String _ s' => index_from (i + 1) sep s'
       end.

(** [strings.Index(s, sep)]: the first position of [sep] in [s], or -1. *)
Definition Index (s sep : string) : Z := index_from 0 sep s.

Fixpoint last_index_from (i : Z) (found : Z) (sep s : string) : Z :=
  let found' := if String.prefix sep s then i else found in
  match s with
  | EmptyString => found'
  | String _ s' => last_index_from (i + 1) found' sep s'
  end.

(** [strings.LastIndex(s, sep)]. *)
Definition LastIndex (s sep : string) : Z := last_index_from 0 (-1) sep s.

Definition Contains (s sep : string) : bool := 0 <=? Index s sep.

Definition HasPrefix (s pre : string) : bool := String.prefix pre s.

(** [s[:i]] and [s[i:]] for [0 <= i <= len(s)]. *)
Definition slice_to (s : string) (i : Z) : string :=
  String.substring 0 (Z.to_nat i) s.

Definition slice_from (s : string) (i : Z) : string :=
  String.substring (Z.to_nat i) (String.length s - Z.to_nat i) s.

Definition len (s : string) : Z := Z.of_nat (String.length s).

Definition HasSuffix (s suf : string) : bool :=
  (len suf <=? len s) && String.eqb (slice_from s (len s - len suf)) suf.

(** [strings.Cut(s, sep)]. *)
Definition Cut (s sep : string) : string * string * bool :=
  let i := Index s sep in
  if 0 <=? i then (slice_to s i, slice_from s (i + len sep), true)
  else (s, "", false).

(** [strings.Count(s, sep)] for a one-byte [sep]. *)
Fixpoint CountByte (s : string) (c : ascii) : Z :=
  match s with
  | EmptyString => 0
  | String d s' => (if Ascii.eqb c d then 1 else 0) + CountByte s' c
  end.

Definition lower (c : ascii) : ascii :=
  if between "A" "Z" c then ascii_of_N (byte_val c + 32) else c.

(** [strings.ToLower] on the ASCII letters (the only bytes a URL scheme
    can hold). *)
Fixpoint ToLower (s : string) : string :=
  match s with
  | EmptyString => EmptyString
  | String c s' => String (lower c) (ToLower s')
  end.

End gostrings.

(** ** Package [encoding/base64] *)

Module base64.

Definition encodeStd : string :=
  "ABCDEFGHIJKLMNOPQRSTUVWXYZabcdefghijklmnopqrstuvwxyz0123456789+/".

Definition enc (v : N) : ascii :=
  match String.get (N.to_nat (N.land v 63)) encodeStd with
  | Some c => c
  | None => "="%char
  end.

(** [Encoding.Encode] of [StdEncoding]: three source bytes give four
    characters; a remainder of one or two bytes is padded with [=]. *)
Fixpoint Encode (src : string) : string :=
  match src with
  | String a (String b (String c rest)) =>
      let val := N.lor (N.lor (N.shiftl (byte_val a) 16)
                              (N.shiftl (byte_val b) 8)) (byte_val c) in
      String (enc (N.shiftr val 18)) (String (enc (N.shiftr val 12))
        (String (enc (N.shiftr val 6)) (String (enc val) (Encode rest))))
  | String a (String b EmptyString) =>
      let val := N.lor (N.shiftl (byte_val a) 16) (N.shiftl (byte_val b) 8) in
      String (enc (N.shiftr val 18)) (String (enc (N.shiftr val 12))
        (String (enc (N.shiftr val 6)) "="))
  | String a EmptyString =>
      let val := N.shiftl (byte_val a) 16 in
      String (enc (N.shiftr val 18)) (String (enc (N.shiftr val 12)) "==")
  | EmptyString => EmptyString
  end.

Definition EncodeToString (src : string) : string := Encode src.

End base64.

(** ** Results of fallible library calls *)

Inductive result (E A : Type) : Type :=
| Ok (a : A)
| Fail (e : E).
Arguments Ok {E A} a.
Arguments Fail {E A} e.

(** ** Package [net/url] *)

Module url.

(** The error values that [Parse] wraps: [EscapeError] and
    [InvalidHostError] are Go types; [InvalidPort] stands for the
    [fmt.Errorf] value of [parseHost], [errorString] for [errors.New]. *)
Inductive parse_error :=
| EscapeError (s : string)
| InvalidHostError (s : string)
| InvalidPort (colonPort : string)
| errorString (msg : string).

Inductive encoding :=
| encodePath | encodePathSegment | encodeHost | encodeZone
| encodeUserPassword | encodeQueryComponent | encodeFragment.

Definition host_mode (mode : encoding) : bool :=
  match mode with encodeHost | encodeZone => true | _ => false end.

Definition ishex (c : ascii) : bool :=
  is_digit c || between "a" "f" c || between "A" "F" c.

Definition unhex (c : ascii) : N :=
  (if is_digit c then byte_val c - byte_val "0"
   else if between "a" "f" c then byte_val c - byte_val "a" + 10
   else if between "A" "F" c then byte_val c - byte_val "A" + 10
   else 0)%N.

(** [shouldEscape(c, mode)]. *)
Definition shouldEscape (c : ascii) (mode : encoding) : bool :=
  if is_letter c || is_digit c then false
  else if host_mode mode
          && (byte_in c "!$&'()*+,;=:[]<>" || Ascii.eqb c dquote) then false
  else if byte_in c "-_.~" then false
  else if byte_in c "$&+,/:;=?@" then
    match mode with
    | encodePath => Ascii.eqb c "?"
    | encodePathSegment => byte_in c "/;,?"
    | encodeUserPassword => byte_in c "@/?:"
    | encodeQueryComponent => true
    | encodeFragment => false
    | encodeHost | encodeZone => true
    end
  else match mode with
       | encodeFragment => negb (byte_in c "!()*")
       | _ => true
       end.

Definition take3 (s : string) : string := String.substring 0 3 s.

(** First loop of [unescape]: every [%] is followed by two hex digits,
    and the host rules hold; the answer is the error, if any. *)
Fixpoint unescape_check (mode : encoding) (s : string) : option parse_error :=
  match s with
  | EmptyString => None
  | String c rest =>
      if Ascii.eqb c "%" then
        match rest with
        | String a (String b rest') =>
            if negb (ishex a && ishex b) then Some (EscapeError (take3 s))
            else
              let is25 := Ascii.eqb a "2" && Ascii.eqb b "5" in
              let v := ascii_of_N (N.lor (N.shiftl (unhex a) 4) (unhex b)) in
              match mode with
              | encodeHost =>
                  if (unhex a <? 8)%N && negb is25
                  then Some (EscapeError (take3 s))
                  else unescape_check mode rest'
              | encodeZone =>
                  if negb is25 && negb (Ascii.eqb v " ")
                     && shouldEscape v encodeHost
                  then Some (EscapeError (take3 s))
                  else unescape_check mode rest'
              | _ => unescape_check mode rest'
              end
        | _ => Some (EscapeError (take3 s))
        end
      else if Ascii.eqb c "+" then unescape_check mode rest
      else if host_mode mode && (byte_val c <? 128)%N
              && shouldEscape c encodeHost
      then Some (InvalidHostError (String c EmptyString))
      else unescape_check mode rest
  end.

(** Second loop of [unescape], run on a string that passed the first:
    [%XX] becomes the byte, and [+] a space in a query component. *)
Fixpoint unescape_write (mode : encoding) (s : string) : string :=
  match s with
  | EmptyString => EmptyString
  | String c rest =>
      if Ascii.eqb c "%" then
        match rest with
        | String a (String b rest') =>
            String (ascii_of_N (N.lor (N.shiftl (unhex a) 4) (unhex b)))
                   (unescape_write mode rest')
        | _ => String c (unescape_write mode rest)
        end
      else if Ascii.eqb c "+" then
        String (match mode with encodeQueryComponent => " "%char | _ => c end)
               (unescape_write mode rest)
      else String c (unescape_write mode rest)
  end.

Definition unescape (s : string) (mode : encoding) : result parse_error string :=
  match unescape_check mode s with
  | Some e => Fail e
  | None => Ok (unescape_write mode s)
  end.

Definition upperhex (n : N) : ascii :=
  match String.get (N.to_nat n) "0123456789ABCDEF" with
  | Some c => c
  | None => "0"%char
  end.

(** [escape(s, mode)]. *)
Fixpoint escape (s : string) (mode : encoding) : string :=
  match s with
  | EmptyString => EmptyString
  | String c rest =>
      match mode with
      | encodeQueryComponent =>
          if Ascii.eqb c " " then String "+" (escape rest mode)
          else if shouldEscape c mode then
            String "%" (String (upperhex (N.shiftr (byte_val c) 4))
              (String (upperhex (N.land (byte_val c) 15)) (escape rest mode)))
          else String c (escape rest mode)
      | _ =>
          if shouldEscape c mode then
            String "%" (String (upperhex (N.shiftr (byte_val c) 4))
              (String (upperhex (N.land (byte_val c) 15)) (escape rest mode)))
          else String c (escape rest mode)
      end
  end.

Definition QueryEscape (s : string) : string := escape s encodeQueryComponent.
Definition QueryUnescape (s : string) : result parse_error string :=
  unescape s encodeQueryComponent.

(** *** [url.Values]: [map[string][]string] *)

Abbreviation Values := (gmap string (list string)).

Definition values_of (v : Values) (key : string) : list string :=
  default [] (v !! key).

(** [v.Add(key, value)]: [v[key] = append(v[key], value)]. *)
Definition Add (v : Values) (key value : string) : Values :=
  <[key := values_of v key ++ [value]]> v.

(** [v.Del(key)]. *)
Definition Del (v : Values) (key : string) : Values := delete key v.

Definition sorted_keys (v : Values) : list string :=
  merge_sort String.le (map_to_list v).*1.

Fixpoint join (sep : string) (l : list string) : string :=
  match l with
  | [] => ""
  | [x] => x
  | x :: l' => x +:+ sep +:+ join sep l'
  end.

Definition encode_pair (k v : string) : string :=
  QueryEscape k +:+ "=" +:+ QueryEscape v.

(** The [key=value] pieces [Encode] writes: keys in sorted order, the
    values of a key in their own order. *)
Definition encoded_pairs (v : Values) : list string :=
  k ← sorted_keys v; encode_pair k <$> values_of v k.

(** [v.Encode()]. *)
Definition Encode (v : Values) : string := join "&" (encoded_pairs v).

(** *** [ParseQuery] *)

(** The pieces that the loop of [parseQuery] cuts off at each [&]. *)
Fixpoint split_byte (sep : ascii) (s : string) : list string :=
  match s with
  | EmptyString => [EmptyString]
  | String c rest =>
      if Ascii.eqb c sep then EmptyString :: split_byte sep rest
      else match split_byte sep rest with
           | piece :: pieces => String c piece :: pieces
           | [] => [String c EmptyString]
           end
  end.

(** One turn of the loop of [parseQuery]; a piece that is empty, holds
    a semicolon or does not unescape is skipped. *)
Definition parse_piece (m : Values) (piece : string) : Values :=
  if gostrings.Contains piece ";" then m
  else if String.eqb piece "" then m
  else
    let '(key, value, _) := gostrings.Cut piece "=" in
    match QueryUnescape key with
    | Fail _ => m
    | Ok key1 =>
        match QueryUnescape value with
        | Fail _ => m
        | Ok value1 => Add m key1 value1
        end
    end.

(** [ParseQuery(query)] with its error dropped, as [URL.Query] does. *)
Definition ParseQuery_values (query : string) : Values :=
  foldl parse_piece ∅ (split_byte "&" query).

(** *** [URL] and [Parse] *)

Record Userinfo := mkUserinfo {
  username : string;
  password : string;
  passwordSet : bool
}.

Record URL := mkURL {
  Scheme : string;
  Opaque : string;
  User : option Userinfo;
  Host : string;
  Path : string;
  RawPath : string;
  OmitHost : bool;
  ForceQuery : bool;
  RawQuery : string;
  Fragment : string;
  RawFragment : string
}.

Definition empty_URL : URL := mkURL "" "" None "" "" "" false false "" "" "".

(** [u.Query()]. *)
Definition Query (u : URL) : Values := ParseQuery_values (RawQuery u).

Fixpoint stringContainsCTLByte (s : string) : bool :=
  match s with
  | EmptyString => false
  | String c rest =>
      (byte_val c <? 32)%N || (byte_val c =? 127)%N || stringContainsCTLByte rest
  end.

(** [getScheme(rawURL)]: [(scheme, path)] or the error. *)
Fixpoint getScheme_from (i : Z) (rawURL s : string)
  : result parse_error (string * string) :=
  match s with
  | EmptyString => Ok ("", rawURL)
  | String c rest =>
      if is_letter c then getScheme_from (i + 1) rawURL rest
      else if is_digit c || byte_in c "+-." then
        if i =? 0 then Ok ("", rawURL) else getScheme_from (i + 1) rawURL rest
      else if Ascii.eqb c ":" then
        if i =? 0 then Fail (errorString "missing protocol scheme")
        else Ok (gostrings.slice_to rawURL i, rest)
      else Ok ("", rawURL)
  end.

Definition getScheme (rawURL : string) : result parse_error (string * string) :=
  getScheme_from 0 rawURL rawURL.

Fixpoint all_bytes (p : ascii → bool) (s : string) : bool :=
  match s with
  | EmptyString => true
  | String c rest => p c && all_bytes p rest
  end.

Definition validUserinfo (s : string) : bool :=
  all_bytes (λ r, is_letter r || is_digit r || byte_in r "-._:~!$&'()*+,;=%@") s.

Definition validOptionalPort (port : string) : bool :=
  match port with
  | EmptyString => true
  | String c rest => Ascii.eqb c ":" && all_bytes is_digit rest
  end.

Definition parseHost (host : string) : result parse_error string :=
  if gostrings.HasPrefix host "[" then
    let i := gostrings.LastIndex host "]" in
    if i <? 0 then Fail (errorString "missing ']' in host")
    else
      let colonPort := gostrings.slice_from host (i + 1) in
      if negb (validOptionalPort colonPort) then Fail (InvalidPort colonPort)
      else
        let zone := gostrings.Index (gostrings.slice_to host i) "%25" in
        if 0 <=? zone then
          match unescape (gostrings.slice_to host zone) encodeHost with
          | Fail e => Fail e
          | Ok host1 =>
              match unescape (gostrings.slice_from (gostrings.slice_to host i) zone)
                             encodeZone with
              | Fail e => Fail e
              | Ok host2 =>
                  match unescape (gostrings.slice_from host i) encodeHost with
                  | Fail e => Fail e
                  | Ok host3 => Ok (host1 +:+ host2 +:+ host3)
                  end
              end
          end
        else unescape host encodeHost
  else
    let i := gostrings.LastIndex host ":" in
    if negb (i =? -1) && negb (validOptionalPort (gostrings.slice_from host i))
    then Fail (InvalidPort (gostrings.slice_from host i))
    else unescape host encodeHost.

Definition parseAuthority (authority : string)
  : result parse_error (option Userinfo * string) :=
  let i := gostrings.LastIndex authority "@" in
  match (if i <? 0 then parseHost authority
         else parseHost (gostrings.slice_from authority (i + 1))) with
  | Fail e => Fail e
  | Ok host =>
      if i <? 0 then Ok (None, host)
      else
        let userinfo := gostrings.slice_to authority i in
        if negb (validUserinfo userinfo)
        then Fail (errorString "net/url: invalid userinfo")
        else if negb (gostrings.Contains userinfo ":") then
          match unescape userinfo encodeUserPassword with
          | Fail e => Fail e
          | Ok u => Ok (Some (mkUserinfo u "" false), host)
          end
        else
          let '(uname, pass, _) := gostrings.Cut userinfo ":" in
          match unescape uname encodeUserPassword with
          | Fail e => Fail e
          | Ok u =>
              match unescape pass encodeUserPassword with
              | Fail e => Fail e
              | Ok p => Ok (Some (mkUserinfo u p true), host)
              end
          end
  end.

(** [u.setPath(p)] on a URL whose other fields are given. *)
Definition setPath (u : URL) (p : string) : result parse_error URL :=
  match unescape p encodePath with
  | Fail e => Fail e
  | Ok path =>
      let raw := if String.eqb p (escape path encodePath) then "" else p in
      Ok (mkURL (Scheme u) (Opaque u) (User u) (Host u) path raw
                (OmitHost u) (ForceQuery u) (RawQuery u)
                (Fragment u) (RawFragment u))
  end.

(** [u.setFragment(f)]. *)
Definition setFragment (u : URL) (f : string) : result parse_error URL :=
  match unescape f encodeFragment with
  | Fail e => Fail e
  | Ok frag =>
      let raw := if String.eqb f (escape frag encodeFragment) then "" else f in
      Ok (mkURL (Scheme u) (Opaque u) (User u) (Host u) (Path u) (RawPath u)
                (OmitHost u) (ForceQuery u) (RawQuery u) frag raw)
  end.

(** [parse(rawURL, viaRequest = false)]. *)
Definition parse (rawURL : string) : result parse_error URL :=
  if stringContainsCTLByte rawURL
  then Fail (errorString "net/url: invalid control character in URL")
  else if String.eqb rawURL "*"
  then Ok (mkURL "" "" None "" "*" "" false false "" "" "")
  else
    match getScheme rawURL with
    | Fail e => Fail e
    | Ok (scheme0, rest0) =>
        let scheme := gostrings.ToLower scheme0 in
        let '(rest, rawQuery, forceQuery) :=
          if gostrings.HasSuffix rest0 "?" && (gostrings.CountByte rest0 "?" =? 1)
          then (gostrings.slice_to rest0 (gostrings.len rest0 - 1), "", true)
          else let '(r, q, _) := gostrings.Cut rest0 "?" in (r, q, false) in
        let base := mkURL scheme "" None "" "" "" false forceQuery rawQuery "" "" in
        if negb (gostrings.HasPrefix rest "/") && negb (String.eqb scheme "")
        then Ok (mkURL scheme rest None "" "" "" false forceQuery rawQuery "" "")
        else if negb (gostrings.HasPrefix rest "/")
                && gostrings.Contains (fst (fst (gostrings.Cut rest "/"))) ":"
        then Fail (errorString "first path segment in URL cannot contain colon")
        else if (negb (String.eqb scheme "") || negb (gostrings.HasPrefix rest "///"))
                && gostrings.HasPrefix rest "//"
        then
          let authority0 := gostrings.slice_from rest 2 in
          let i := gostrings.Index authority0 "/" in
          let '(authority, rest1) :=
            if 0 <=? i
            then (gostrings.slice_to authority0 i, gostrings.slice_from authority0 i)
            else (authority0, "") in
          match parseAuthority authority with
          | Fail e => Fail e
          | Ok (user, host) =>
              setPath (mkURL scheme "" user host "" "" false forceQuery
                             rawQuery "" "") rest1
          end
        else
          let omit := negb (String.eqb scheme "") && gostrings.HasPrefix rest "/" in
          setPath (mkURL scheme "" None "" "" "" omit forceQuery rawQuery "" "") rest
    end.

(** [*url.Error]: the operation, the URL text and the cause. *)
Record Error := mkError { Op : string; ErrURL : string; Err : parse_error }.

(** [Parse(rawURL)]. *)
Definition Parse (rawURL : string) : result Error URL :=
  let '(u, frag, _) := gostrings.Cut rawURL "#" in
  match parse u with
  | Fail e => Fail (mkError "parse" u e)
  | Ok url =>
      if String.eqb frag "" then Ok url
      else match setFragment url frag with
           | Fail e => Fail (mkError "parse" rawURL e)
           | Ok url' => Ok url'
           end
  end.

End url.

(** ** Package [unicode/utf8] *)

Module utf8.

Definition RuneError : N := 65533.

Definition in_range (lo hi : N) (c : ascii) : bool :=
  ((lo <=? byte_val c) && (byte_val c <=? hi))%N.

Definition low6 (c : ascii) : N := N.land (byte_val c) 63.

(** [DecodeRuneInString(s)]: the first rune of [s] and its width in
    bytes; [(RuneError, 1)] when [s] does not start with a well-formed
    encoding. *)
Definition DecodeRuneInString (s : string) : N * nat :=
  match s with
  | EmptyString => (RuneError, 0%nat)
  | String s0 rest =>
      let b0 := byte_val s0 in
      if (b0 <? 128)%N then (b0, 1%nat)
      else if ((b0 <? 194) || (244 <? b0))%N then (RuneError, 1%nat)
      else
        let '(sz, lo, hi) :=
          (if b0 <? 224 then (2%nat, 128, 191)
           else if b0 =? 224 then (3%nat, 160, 191)
           else if b0 =? 237 then (3%nat, 128, 159)
           else if b0 <? 240 then (3%nat, 128, 191)
           else if b0 =? 240 then (4%nat, 144, 191)
           else if b0 =? 244 then (4%nat, 128, 143)
           else (4%nat, 128, 191))%N in
        match sz, rest with
        | 2%nat, String s1 _ =>
            if in_range lo hi s1
            then (N.lor (N.shiftl (N.land b0 31) 6) (low6 s1), 2%nat)
            else (RuneError, 1%nat)
        | 3%nat, String s1 (String s2 _) =>
            if in_range lo hi s1 && in_range 128 191 s2
            then (N.lor (N.lor (N.shiftl (N.land b0 15) 12)
                               (N.shiftl (low6 s1) 6)) (low6 s2), 3%nat)
            else (RuneError, 1%nat)
        | 4%nat, String s1 (String s2 (String s3 _)) =>
            if in_range lo hi s1 && in_range 128 191 s2 && in_range 128 191 s3
            then (N.lor (N.lor (N.lor (N.shiftl (N.land b0 7) 18)
                                      (N.shiftl (low6 s1) 12))
                               (N.shiftl (low6 s2) 6)) (low6 s3), 4%nat)
            else (RuneError, 1%nat)
        | _, _ => (RuneError, 1%nat)
        end
  end.

Definition byte_of (n : N) : ascii := ascii_of_N n.

Definition cont_byte (r : N) (shift : N) : ascii :=
  byte_of (N.lor 128 (N.land (N.shiftr r shift) 63)).

(** [AppendRune(nil, r)]: the UTF-8 encoding of [r]; surrogates and
    values past U+10FFFF are written as U+FFFD. *)
Definition EncodeRune (r : N) : string :=
  (if r <=? 127 then String (byte_of r) EmptyString
   else if r <=? 2047 then
     String (byte_of (N.lor 192 (N.shiftr r 6)))
       (String (cont_byte r 0) EmptyString)
   else if (1114111 <? r) || ((55296 <=? r) && (r <=? 57343)) then
     String (byte_of 239) (String (byte_of 191) (String (byte_of 189) EmptyString))
   else if r <=? 65535 then
     String (byte_of (N.lor 224 (N.shiftr r 12)))
       (String (cont_byte r 6) (String (cont_byte r 0) EmptyString))
   else
     String (byte_of (N.lor 240 (N.shiftr r 18)))
       (String (cont_byte r 12)
          (String (cont_byte r 6) (String (cont_byte r 0) EmptyString))))%N.

End utf8.

(** ** Package [encoding/json] *)

Module json.

Import url.

(** *** Encoding: [Marshal] of a [*url.Values] *)

(** The JSON values that the encoder writes for a [map[string][]string]. *)
#[warnings="-register-all"]
Inductive jvalue :=
| JString (s : string)
| JArray (items : list jvalue)
| JObject (members : list (string * jvalue)).

Definition hex (n : N) : ascii :=
  match String.get (N.to_nat n) "0123456789abcdef" with
  | Some c => c
  | None => "0"%char
  end.

(** [htmlSafeSet[b]] for [b < 0x80]. *)
Definition htmlSafe (b : ascii) : bool :=
  (32 <=? byte_val b)%N
  && negb (byte_in b "<>&" || Ascii.eqb b dquote || Ascii.eqb b bslash).

(** What [appendString] writes for a byte below 0x80 that is not in
    [htmlSafeSet]. *)
Definition escape_byte (b : ascii) : string :=
  let n := byte_val b in
  if Ascii.eqb b bslash || Ascii.eqb b dquote then String bslash (String b "")
  else if (n =? 8)%N then String bslash "b"
  else if (n =? 12)%N then String bslash "f"
  else if (n =? 10)%N then String bslash "n"
  else if (n =? 13)%N then String bslash "r"
  else if (n =? 9)%N then String bslash "t"
  else String bslash ("u00" +:+ String (hex (N.shiftr n 4))
                                (String (hex (N.land n 15)) "")).

(** The loop of [appendString] with [escapeHTML] set.  [skip] counts the
    bytes of the rune in progress that are still to come; they are
    copied when [keep] holds and dropped otherwise. *)
Fixpoint quote_body (skip : nat) (keep : bool) (src : string) : string :=
  match src with
  | EmptyString => EmptyString
  | String b rest =>
      match skip with
      | S k =>
          if keep then String b (quote_body k keep rest)
          else quote_body k keep rest
      | O =>
          if (byte_val b <? 128)%N then
            if htmlSafe b then String b (quote_body 0 true rest)
            else escape_byte b +:+ quote_body 0 true rest
          else
            let '(c, size) := utf8.DecodeRuneInString src in
            if (c =? utf8.RuneError)%N && (size =? 1)%nat
            then String bslash "ufffd" +:+ quote_body 0 true rest
            else if ((c =? 8232) || (c =? 8233))%N
            then String bslash ("u202" +:+ String (hex (N.land c 15)) "")
                 +:+ quote_body (size - 1) false rest
            else String b (quote_body (size - 1) true rest)
      end
  end.

Definition appendString (src : string) : string :=
  String dquote (quote_body 0 true src +:+ String dquote "").

Fixpoint render (v : jvalue) : string :=
  match v with
  | JString s => appendString s
  | JArray items => "[" +:+ join "," (render <$> items) +:+ "]"
  | JObject members =>
      "{" +:+ join "," ((λ kv, appendString kv.1 +:+ ":" +:+ render kv.2)
                          <$> members) +:+ "}"
  end.

(** The encoder walks the map in sorted key order and writes the slice
    of each key as an array of strings.  (A slice is modelled by the
    list of its elements; every slice that [Add] or [ParseQuery] stores
    is non-nil.) *)
Definition tree_of_values (v : Values) : jvalue :=
  JObject ((λ k, (k, JArray (JString <$> values_of v k))) <$> sorted_keys v).

(** [json.Marshal(v)] for [v : *url.Values] pointing to a map; it
    returns no error for this type. *)
Definition Marshal (v : Values) : string := render (tree_of_values v).

(** *** Decoding: the scanner of [checkValid] *)

Inductive error :=
| SyntaxError
| UnmarshalTypeError (value : string).

Inductive step_state :=
| stateBeginValue | stateBeginValueOrEmpty | stateBeginStringOrEmpty
| stateBeginString | stateEndValue | stateEndTop
| stateInString | stateInStringEsc
| stateInStringEscU | stateInStringEscU1 | stateInStringEscU12
| stateInStringEscU123
| stateNeg | state1 | state0 | stateDot | stateDot0
| stateE | stateESign | stateE0
| stateT | stateTr | stateTru
| stateF | stateFa | stateFal | stateFals
| stateN | stateNu | stateNul
| stateError.

Inductive parse_state := parseObjectKey | parseObjectValue | parseArrayValue.

(** The scanner: the state function to run on the next byte, whether the
    top-level value is complete, and the stack of open composites (top
    first). *)
Record scanner := mkScanner {
  step : step_state;
  endTop : bool;
  parseState : list parse_state
}.

Definition maxNestingDepth : Z := 10000.

Definition isSpace (c : ascii) : bool :=
  (byte_val c <=? 32)%N
  && ((byte_val c =? 32) || (byte_val c =? 9) || (byte_val c =? 13)
      || (byte_val c =? 10))%N.

Definition failed (s : scanner) : scanner :=
  mkScanner stateError (endTop s) (parseState s).

Definition goto (st : step_state) (s : scanner) : scanner :=
  mkScanner st (endTop s) (parseState s).

Definition pushParseState (p : parse_state) (st : step_state) (s : scanner)
  : scanner :=
  let stack := p :: parseState s in
  if Z.of_nat (length stack) <=? maxNestingDepth
  then mkScanner st (endTop s) stack
  else failed (mkScanner st (endTop s) stack).

Definition popParseState (s : scanner) : scanner :=
  match tail (parseState s) with
  | [] => mkScanner stateEndTop true []
  | stack => mkScanner stateEndValue (endTop s) stack
  end.

Definition do_stateEndTop (s : scanner) (c : ascii) : scanner :=
  if isSpace c then s else failed s.

Definition do_stateEndValue (s : scanner) (c : ascii) : scanner :=
  match parseState s with
  | [] => do_stateEndTop (mkScanner stateEndTop true []) c
  | ps :: stack =>
      if isSpace c then goto stateEndValue s
      else match ps with
           | parseObjectKey =>
               if Ascii.eqb c ":"
               then mkScanner stateBeginValue (endTop s) (parseObjectValue :: stack)
               else failed s
           | parseObjectValue =>
               if Ascii.eqb c ","
               then mkScanner stateBeginString (endTop s) (parseObjectKey :: stack)
               else if Ascii.eqb c "}" then popParseState s
               else failed s
           | parseArrayValue =>
               if Ascii.eqb c "," then goto stateBeginValue s
               else if Ascii.eqb c "]" then popParseState s
               else failed s
           end
  end.

Definition do_stateBeginValue (s : scanner) (c : ascii) : scanner :=
  if isSpace c then s
  else if Ascii.eqb c "{" then pushParseState parseObjectKey stateBeginStringOrEmpty s
  else if Ascii.eqb c "[" then pushParseState parseArrayValue stateBeginValueOrEmpty s
  else if Ascii.eqb c dquote then goto stateInString s
  else if Ascii.eqb c "-" then goto stateNeg s
  else if Ascii.eqb c "0" then goto state0 s
  else if Ascii.eqb c "t" then goto stateT s
  else if Ascii.eqb c "f" then goto stateF s
  else if Ascii.eqb c "n" then goto stateN s
  else if between "1" "9" c then goto state1 s
  else failed s.

Definition do_stateBeginString (s : scanner) (c : ascii) : scanner :=
  if isSpace c then s
  else if Ascii.eqb c dquote then goto stateInString s
  else failed s.

Definition do_state0 (s : scanner) (c : ascii) : scanner :=
  if Ascii.eqb c "." then goto stateDot s
  else if Ascii.eqb c "e" || Ascii.eqb c "E" then goto stateE s
  else do_stateEndValue s c.

Definition do_stateESign (s : scanner) (c : ascii) : scanner :=
  if is_digit c then goto stateE0 s else failed s.

Definition expect (want : ascii) (next : step_state) (s : scanner) (c : ascii)
  : scanner :=
  if Ascii.eqb c want then goto next s else failed s.

Definition expect_hex (next : step_state) (s : scanner) (c : ascii) : scanner :=
  if ishex c then goto next s else failed s.

(** [s.step(s, c)]. *)
Definition run_step (s : scanner) (c : ascii) : scanner :=
  match step s with
  | stateBeginValue => do_stateBeginValue s c
  | stateBeginValueOrEmpty =>
      if isSpace c then s
      else if Ascii.eqb c "]" then do_stateEndValue s c
      else do_stateBeginValue s c
  | stateBeginStringOrEmpty =>
      if isSpace c then s
      else if Ascii.eqb c "}"
      then do_stateEndValue
             (mkScanner (step s) (endTop s) (parseObjectValue :: tail (parseState s))) c
      else do_stateBeginString s c
  | stateBeginString => do_stateBeginString s c
  | stateEndValue => do_stateEndValue s c
  | stateEndTop => do_stateEndTop s c
  | stateInString =>
      if Ascii.eqb c dquote then goto stateEndValue s
      else if Ascii.eqb c bslash then goto stateInStringEsc s
      else if (byte_val c <? 32)%N then failed s
      else s
  | stateInStringEsc =>
      if byte_in c "bfnrt/" || Ascii.eqb c bslash || Ascii.eqb c dquote
      then goto stateInString s
      else if Ascii.eqb c "u" then goto stateInStringEscU s
      else failed s
  | stateInStringEscU => expect_hex stateInStringEscU1 s c
  | stateInStringEscU1 => expect_hex stateInStringEscU12 s c
  | stateInStringEscU12 => expect_hex stateInStringEscU123 s c
  | stateInStringEscU123 => expect_hex stateInString s c
  | stateNeg =>
      if Ascii.eqb c "0" then goto state0 s
      else if between "1" "9" c then goto state1 s
      else failed s
  | state1 => if is_digit c then goto state1 s else do_state0 s c
  | state0 => do_state0 s c
  | stateDot => if is_digit c then goto stateDot0 s else failed s
  | stateDot0 =>
      if is_digit c then s
      else if Ascii.eqb c "e" || Ascii.eqb c "E" then goto stateE s
      else do_stateEndValue s c
  | stateE =>
      if Ascii.eqb c "+" || Ascii.eqb c "-" then goto stateESign s
      else do_stateESign s c
  | stateESign => do_stateESign s c
  | stateE0 => if is_digit c then s else do_stateEndValue s c
  | stateT => expect "r" stateTr s c
  | stateTr => expect "u" stateTru s c
  | stateTru => expect "e" stateEndValue s c
  | stateF => expect "a" stateFa s c
  | stateFa => expect "l" stateFal s c
  | stateFal => expect "s" stateFals s c
  | stateFals => expect "e" stateEndValue s c
  | stateN => expect "u" stateNu s c
  | stateNu => expect "l" stateNul s c
  | stateNul => expect "l" stateEndValue s c
  | stateError => s
  end.

Fixpoint scan (s : scanner) (data : string) : scanner :=
  match data with
  | EmptyString => s
  | String c rest => scan (run_step s c) rest
  end.

Definition is_error (s : scanner) : bool :=
  match step s with stateError => true | _ => false end.

(** [s.eof()]: the input is complete when the top-level value has ended,
    possibly after one more space. *)
Definition eof_ok (s : scanner) : bool :=
  if is_error s then false
  else if endTop s then true
  else endTop (run_step s " ").

(** [checkValid(data, scan) == nil]. *)
Definition checkValid (data : string) : bool :=
  eof_ok (scan (mkScanner stateBeginValue false []) data).

(** *** Decoding: [Unmarshal] into a [map[string]string] *)

Definition getu4 (s : string) : option N :=
  match s with
  | String b (String u (String h1 (String h2 (String h3 (String h4 _))))) =>
      if Ascii.eqb b bslash && Ascii.eqb u "u"
         && ishex h1 && ishex h2 && ishex h3 && ishex h4
      then Some (N.lor (N.lor (N.shiftl (unhex h1) 12) (N.shiftl (unhex h2) 8))
                       (N.lor (N.shiftl (unhex h3) 4) (unhex h4)))
      else None
  | _ => None
  end.

Definition IsSurrogate (r : N) : bool := ((55296 <=? r) && (r <? 57344))%N.

(** [utf16.DecodeRune(r1, r2)], where [r2] is missing when [getu4]
    found no second escape. *)
Definition utf16_DecodeRune (r1 : N) (r2 : option N) : N :=
  match r2 with
  | Some r2 =>
      if ((55296 <=? r1) && (r1 <? 56320) && (56320 <=? r2) && (r2 <? 57344))%N
      then (N.lor (N.shiftl (r1 - 55296) 10) (r2 - 56320) + 65536)%N
      else utf8.RuneError
  | None => utf8.RuneError
  end.

Definition unescape_char (e : ascii) : ascii :=
  if Ascii.eqb e "b" then ascii_of_N 8
  else if Ascii.eqb e "f" then ascii_of_N 12
  else if Ascii.eqb e "n" then ascii_of_N 10
  else if Ascii.eqb e "r" then ascii_of_N 13
  else if Ascii.eqb e "t" then ascii_of_N 9
  else e.

(** The writing loop of [unquoteBytes], on the text between the quotes
    of a literal that the scanner accepted.  [drop] counts the bytes of
    the escape or rune in progress that are still to be passed over. *)
Fixpoint unquote_body (drop : nat) (s : string) : string :=
  match s with
  | EmptyString => EmptyString
  | String c rest =>
      match drop with
      | S k => unquote_body k rest
      | O =>
          if Ascii.eqb c bslash then
            match rest with
            | EmptyString => EmptyString
            | String e _ =>
                if Ascii.eqb e "u" then
                  match getu4 s with
                  | None => EmptyString
                  | Some rr =>
                      if IsSurrogate rr then
                        let dec := utf16_DecodeRune rr (getu4 (gostrings.slice_from s 6)) in
                        if negb (dec =? utf8.RuneError)%N
                        then utf8.EncodeRune dec +:+ unquote_body 11 rest
                        else utf8.EncodeRune utf8.RuneError +:+ unquote_body 5 rest
                      else utf8.EncodeRune rr +:+ unquote_body 5 rest
                  end
                else String (unescape_char e) (unquote_body 1 rest)
            end
          else if (byte_val c <? 128)%N then String c (unquote_body 0 rest)
          else
            let '(rr, size) := utf8.DecodeRuneInString s in
            utf8.EncodeRune rr +:+ unquote_body (size - 1) rest
      end
  end.

Definition unquote (raw : string) : string := unquote_body 0 raw.

(** Where the decoder stands while it fills the map from an input that
    [checkValid] accepted. *)
Inductive reader :=
| atTop
| atKeyOrEnd
| inKey (escaped : bool)
| atColon
| atValue
| inValue (escaped : bool)
| inNull (left : nat)
| atCommaOrEnd.

(** The kind named in the [UnmarshalTypeError] for a value that starts
    with [c] and is neither a string nor null. *)
Definition kind_of (c : ascii) : string :=
  if Ascii.eqb c "{" then "object"
  else if Ascii.eqb c "[" then "array"
  else if Ascii.eqb c dquote then "string"
  else if Ascii.eqb c "t" || Ascii.eqb c "f" then "bool"
  else "number".

Definition snoc (s : string) (c : ascii) : string := s +:+ String c "".

(** [d.value] for a target of type [map[string]string]: null at the
    top level leaves the map nil; an object stores each member, a string
    as its text and null as the empty string, a later member replacing
    an earlier one with the same key; every other value is a type
    error, and the first one is the error returned. *)
Fixpoint read_map (st : reader) (key val : string) (m : gmap string string)
    (data : string) : result error (gmap string string) :=
  match data with
  | EmptyString => Fail SyntaxError
  | String c rest =>
      match st with
      | atTop =>
          if isSpace c then read_map atTop key val m rest
          else if Ascii.eqb c "n" then Ok ∅
          else if Ascii.eqb c "{" then read_map atKeyOrEnd key val m rest
          else Fail (UnmarshalTypeError (kind_of c))
      | atKeyOrEnd =>
          if isSpace c then read_map atKeyOrEnd key val m rest
          else if Ascii.eqb c "}" then Ok m
          else read_map (inKey false) "" "" m rest
      | inKey escaped =>
          if escaped then read_map (inKey false) (snoc key c) val m rest
          else if Ascii.eqb c bslash then read_map (inKey true) (snoc key c) val m rest
          else if Ascii.eqb c dquote then read_map atColon key val m rest
          else read_map (inKey false) (snoc key c) val m rest
      | atColon =>
          if Ascii.eqb c ":" then read_map atValue key val m rest
          else read_map atColon key val m rest
      | atValue =>
          if isSpace c then read_map atValue key val m rest
          else if Ascii.eqb c dquote then read_map (inValue false) key "" m rest
          else if Ascii.eqb c "n"
          then read_map (inNull 3) key val (<[unquote key := ""]> m) rest
          else Fail (UnmarshalTypeError (kind_of c))
      | inValue escaped =>
          if escaped then read_map (inValue false) key (snoc val c) m rest
          else if Ascii.eqb c bslash then read_map (inValue true) key (snoc val c) m rest
          else if Ascii.eqb c dquote
          then read_map atCommaOrEnd key val (<[unquote key := unquote val]> m) rest
          else read_map (inValue false) key (snoc val c) m rest
      | inNull (S k) => read_map (inNull k) key val m rest
      | inNull O | atCommaOrEnd =>
          if Ascii.eqb c "," then read_map atKeyOrEnd key val m rest
          else if Ascii.eqb c "}" then Ok m
          else read_map atCommaOrEnd key val m rest
      end
  end.

(** [json.Unmarshal(data, &values)] for [values : map[string]string]:
    a syntax error is found before anything is decoded. *)
Definition Unmarshal (data : string) : result error (gmap string string) :=
  if checkValid data then read_map atTop "" "" ∅ data
  else Fail SyntaxError.

End json.

(** ** Packages [time], [crypto/tls], [io] *)

Definition wrap64 (z : Z) : Z := (z + 2 ^ 63) mod 2 ^ 64 - 2 ^ 63.

Module time.
(** [time.Duration]: an [int64] count of nanoseconds. *)
Definition Duration := Z.
Definition Millisecond : Duration := 1000000.
(** [a * b] on [time.Duration]. *)
Definition mul (a b : Duration) : Duration := wrap64 (a * b).
End time.

Module tls.
Record Config := mkConfig { InsecureSkipVerify : bool }.
End tls.

Module io.
(** The two readers that this package passes as a request body. *)
Inductive Reader :=
| bytes_Buffer (buf : string)
| strings_Reader (s : string).

Definition Len (r : Reader) : Z :=
  match r with
  | bytes_Buffer buf => gostrings.len buf
  | strings_Reader s => gostrings.len s
  end.

Definition content (r : Reader) : string :=
  match r with bytes_Buffer buf => buf | strings_Reader s => s end.

(** A stream to read from: the bytes it delivers and, if it breaks
    before its end, the error it reports then. *)
Record Stream := mkStream { delivered : string; failure : option string }.

(** [ioutil.ReadAll(s)]: all the bytes, in a slice that is never nil,
    or the bytes read so far and the error. *)
Definition ReadAll (s : Stream) : string * option string :=
  (delivered s, failure s).
End io.

(** ** Package [net/http] *)

Module http.

(** The token characters of RFC 7230: [httpguts.IsTokenRune] and
    [validHeaderFieldByte]. *)
Definition isToken (c : ascii) : bool :=
  is_letter c || is_digit c || byte_in c "!#$%&'*+-.^_`|~".

Definition validMethod (method : string) : bool :=
  negb (String.eqb method "") && url.all_bytes isToken method.

Fixpoint canonical_from (upper : bool) (a : string) : string :=
  match a with
  | EmptyString => EmptyString
  | String c rest =>
      let c' :=
        if upper && between "a" "z" c then ascii_of_N (byte_val c - 32)
        else if negb upper && between "A" "Z" c then ascii_of_N (byte_val c + 32)
        else c in
      String c' (canonical_from (Ascii.eqb c' "-") rest)
  end.

(** [textproto.CanonicalMIMEHeaderKey(s)]: a key with a byte that is not
    a token character is returned as it is. *)
Definition CanonicalMIMEHeaderKey (s : string) : string :=
  if url.all_bytes isToken s then canonical_from true s else s.

(** [http.Header]: [map[string][]string]. *)
Abbreviation Header := (gmap string (list string)).

Definition Header_Set (h : Header) (key value : string) : Header :=
  <[CanonicalMIMEHeaderKey key := [value]]> h.

Definition Header_Add (h : Header) (key value : string) : Header :=
  let k := CanonicalMIMEHeaderKey key in
  <[k := default [] (h !! k) ++ [value]]> h.

Definition Header_Values (h : Header) (key : string) : list string :=
  default [] (h !! CanonicalMIMEHeaderKey key).

(** What [Request.Body] holds: nil, [http.NoBody], or a reader. *)
Inductive Body :=
| body_nil
| NoBody
| body_of (r : io.Reader).

Record Request := mkRequest {
  Method : string;
  URL : url.URL;
  ReqHeader : Header;
  ReqBody : Body;
  ContentLength : Z;
  Host : string
}.

Inductive error :=
| invalid_method (method : string)
| parse_failed (e : url.Error).

Definition hasPort (s : string) : bool :=
  gostrings.LastIndex s "]" <? gostrings.LastIndex s ":".

Definition removeEmptyPort (host : string) : string :=
  if hasPort host && gostrings.HasSuffix host ":"
  then gostrings.slice_to host (gostrings.len host - 1)
  else host.

Definition with_Host (u : url.URL) (host : string) : url.URL :=
  url.mkURL (url.Scheme u) (url.Opaque u) (url.User u) host (url.Path u)
            (url.RawPath u) (url.OmitHost u) (url.ForceQuery u)
            (url.RawQuery u) (url.Fragment u) (url.RawFragment u).

Definition with_RawQuery (u : url.URL) (q : string) : url.URL :=
  url.mkURL (url.Scheme u) (url.Opaque u) (url.User u) (url.Host u) (url.Path u)
            (url.RawPath u) (url.OmitHost u) (url.ForceQuery u)
            q (url.Fragment u) (url.RawFragment u).

(** [http.NewRequest(method, url, body)]. *)
Definition NewRequest (method rawurl : string) (body : option io.Reader)
  : result error Request :=
  let method := if String.eqb method "" then "GET" else method in
  if negb (validMethod method) then Fail (invalid_method method)
  else match url.Parse rawurl with
       | Fail e => Fail (parse_failed e)
       | Ok u =>
           let host := removeEmptyPort (url.Host u) in
           let u := with_Host u host in
           match body with
           | None => Ok (mkRequest method u ∅ body_nil 0 host)
           | Some r =>
               if io.Len r =? 0
               then Ok (mkRequest method u ∅ NoBody 0 host)
               else Ok (mkRequest method u ∅ (body_of r) (io.Len r) host)
           end
       end.

Definition set_Header (req : Request) (h : Header) : Request :=
  mkRequest (Method req) (URL req) h (ReqBody req) (ContentLength req) (Host req).

Definition set_RawQuery (req : Request) (q : string) : Request :=
  mkRequest (Method req) (with_RawQuery (URL req) q) (ReqHeader req)
            (ReqBody req) (ContentLength req) (Host req).

(** [req.SetBasicAuth(username, password)]. *)
Definition SetBasicAuth (req : Request) (username password : string) : Request :=
  set_Header req
    (Header_Set (ReqHeader req) "Authorization"
       ("Basic " +:+ base64.EncodeToString (username +:+ ":" +:+ password))).

(** [http.Transport]: the proxy that [http.ProxyURL] fixes, if any, and
    the TLS configuration, if any. *)
Record Transport := mkTransport {
  TransportProxy : option url.URL;
  TLSClientConfig : option tls.Config
}.

Record Client := mkClient {
  ClientTimeout : time.Duration;
  ClientTransport : Transport
}.

Record Response := mkResponse {
  StatusCode : Z;
  Status : string;
  RespHeader : Header;
  RespBody : io.Stream
}.

End http.

(** * request.go *)

(** ** [ResponseStatus] *)

Module ResponseStatus.
Record t := mk { Code : Z; Message : string }.

(** [func (status *ResponseStatus) Error() string]. *)
Definition Error (status : t) : string := Message status.
End ResponseStatus.

(** The values of Go's interface type [error] that leave this package:
    the errors of the library calls, each under the call it comes from,
    and the package's own [*ResponseStatus]. *)
Inductive error :=
| request_error (e : http.error)
| proxy_error (e : url.Error)
| do_error (msg : string)
| read_error (msg : string)
| json_error (e : json.error)
| status_error (status : ResponseStatus.t).

(** ** [HeaderType]

    [type HeaderType map[string]string].  A Go map value is a reference:
    a [HeaderType] is nil or the address of a table kept in the heap, and
    copies of a [HeaderType] (such as the receiver of a method) share the
    table. *)

Definition loc := positive.
Abbreviation Heap := (gmap loc (gmap string string)).

Module HeaderType.

Definition t := option loc.

(** The entries seen through [header]; a nil map reads as empty. *)
Definition entries (h : Heap) (header : t) : gmap string string :=
  match header with
  | Some l => default ∅ (h !! l)
  | None => ∅
  end.

(** [make(HeaderType)]: a new empty table at an unused address. *)
Definition make (h : Heap) : t * Heap :=
  let l := fresh (dom h) in (Some l, <[l := ∅]> h).

(** [header[key] = value] on the table at [l]. *)
Definition store (h : Heap) (l : loc) (key value : string) : Heap :=
  <[l := <[key := value]> (entries h (Some l))]> h.

(** [func (header HeaderType) Add(key string, value string)].  Writing
    to a nil map is a run-time panic: [None]. *)
Definition Add (h : Heap) (header : t) (key value : string) : option Heap :=
  match header with
  | Some l => Some (store h l key value)
  | None => None
  end.

(** [func (header HeaderType) Del(key string)]. *)
Definition Del (h : Heap) (header : t) (key : string) : Heap :=
  match header with
  | Some l =>
      match entries h header !! key with
      | Some _ => <[l := delete key (entries h header)]> h
      | None => h
      end
  | None => h
  end.

(** [func (header HeaderType) Get(key string) string]. *)
Definition Get (h : Heap) (header : t) (key : string) : string :=
  match entries h header !! key with
  | Some v => v
  | None => ""
  end.

(** [func (header HeaderType) Clear()]: [header = make(HeaderType)]
    assigns to the receiver, which is the method's own copy of the
    reference; the copy is gone when [Clear] returns. *)
Definition Clear (h : Heap) (header : t) : Heap :=
  let '(header, h) := make h in
  h.

End HeaderType.

(** ** [Proxy] and [Request] *)

Module Proxy.
Record t := mk { URL : string; Username : string; Password : string }.
End Proxy.

Module Request.

(** [values] is [None] for a nil [*url.Values]; the map it points to is
    kept in place, since nothing else holds a reference to it. *)
Record t := mk {
  URL : string;
  Username : string;
  Password : string;
  Timeout : Z;
  Insecure : bool;
  Proxy : Proxy.t;
  values : option url.Values;
  header : HeaderType.t
}.

(** What a method with receiver [r *Request] works on: the struct that
    [r] points to, and the heap of header tables. *)
Record State := mkState { r : t; heap : Heap }.

Definition set_URL (s : State) (u : string) : State :=
  let x := r s in
  mkState (mk u (Username x) (Password x) (Timeout x) (Insecure x) (Proxy x)
              (values x) (header x)) (heap s).

Definition set_values (s : State) (v : option url.Values) : State :=
  let x := r s in
  mkState (mk (URL x) (Username x) (Password x) (Timeout x) (Insecure x) (Proxy x)
              v (header x)) (heap s).

Definition set_header (s : State) (hd : HeaderType.t) (h : Heap) : State :=
  let x := r s in
  mkState (mk (URL x) (Username x) (Password x) (Timeout x) (Insecure x) (Proxy x)
              (values x) hd) h.

(** [func (r *Request) Header() HeaderType]. *)
Definition Header (s : State) : HeaderType.t * State :=
  match header (r s) with
  | None => let '(hd, h) := HeaderType.make (heap s) in (hd, set_header s hd h)
  | Some l => (Some l, s)
  end.

(** [func (r *Request) Values() url.Values]: the map that [r.values]
    points to, made first if there is none. *)
Definition Values (s : State) : url.Values * State :=
  match values (r s) with
  | None => (∅, set_values s (Some ∅))
  | Some v => (v, s)
  end.

(** [r.Values().Add(key, value)]: the map handed out is the one
    [r.values] points to, so the new value shows there. *)
Definition Values_Add (key value : string) (s : State) : State :=
  let '(v, s) := Values s in
  set_values s (Some (url.Add v key value)).

(** [r.Header().Add(key, value)]: [Header] hands out an allocated
    table and never nil, so [Add] stores into it and does not panic. *)
Definition Header_Add (key value : string) (s : State) : State :=
  let '(hd, s) := Header s in
  match HeaderType.Add (heap s) hd key value with
  | Some h => mkState (r s) h
  | None => s
  end.

(** [r.Header().Get(key)]. *)
Definition Header_Get (key : string) (s : State) : string * State :=
  let '(hd, s) := Header s in
  (HeaderType.Get (heap s) hd key, s).

(** [func (r *Request) Request(method, username, password string,
    data io.Reader)], returning a [*http.Request] and an [error].  When
    two keys of [r.header] have the same canonical form, the order in
    which Go walks the map decides which value stays; [map_fold] walks
    it in one fixed order.  When no two keys have the same canonical
    form, every order of the walk builds the same header
    ([copy_any_order] below). *)
Definition Request (s : State) (method username password : string)
    (data : option io.Reader) : result error http.Request :=
  match http.NewRequest method (URL (r s)) data with
  | Fail err => Fail (request_error err)
  | Ok req =>
      let req :=
        http.set_Header req
          (map_fold (λ k v hd, http.Header_Set hd k v) (http.ReqHeader req)
                    (HeaderType.entries (heap s) (header (r s)))) in
      let req :=
        if negb (String.eqb username "") && negb (String.eqb password "")
        then http.SetBasicAuth req username password
        else req in
      Ok req
  end.

(** [func (r *Request) Transport(req *http.Request)], returning a
    [*http.Transport] and an [error].  [req] is a pointer: the header
    added to the request is seen by the caller, so the request comes
    back with the transport. *)
Definition Transport (s : State) (req : http.Request)
  : result error (http.Transport * http.Request) :=
  let x := r s in
  let transport := http.mkTransport None None in
  let proxied :=
    if negb (String.eqb (Proxy.URL (Proxy x)) "") then
      match url.Parse (Proxy.URL (Proxy x)) with
      | Fail err => Fail (proxy_error err)
      | Ok proxy =>
          let transport := http.mkTransport (Some proxy) None in
          if negb (String.eqb (Proxy.Username (Proxy x)) "")
             && negb (String.eqb (Proxy.Password (Proxy x)) "")
          then
            let auth := Proxy.Username (Proxy x) +:+ ":" +:+ Proxy.Password (Proxy x) in
            let basic := "Basic " +:+ base64.EncodeToString auth in
            Ok (transport,
                http.set_Header req
                  (http.Header_Add (http.ReqHeader req) "Proxy-Ahthorization" basic))
          else Ok (transport, req)
      end
    else Ok (transport, req) in
  match proxied with
  | Fail err => Fail err
  | Ok (transport, req) =>
      if (gostrings.Index (URL x) "https://" =? 0) && Insecure x
      then Ok (http.mkTransport (http.TransportProxy transport)
                                (Some (tls.mkConfig (Insecure x))), req)
      else Ok (transport, req)
  end.

(** What [Send] and the verbs return: a [[]byte], a [*http.Response]
    and an [error], each of the three nil ([None]) or not. *)
Definition Outcome : Type := option string * option http.Response * option error.

(** Lines 143-152 of [Send]: the client, with its timeout. *)
Definition client (s : State) (transport : http.Transport) : http.Client :=
  let timeout := Timeout (r s) in
  let timeout := if timeout <=? 0 then 10 else timeout in
  http.mkClient (time.mul timeout time.Millisecond) transport.

Section Network.

(** [client.Do(req)]: the answer of the network, an error or a
    response whose body is still to be read. *)
Variable Do : http.Client → http.Request → result string http.Response.

(** [func (r *Request) Send(req *http.Request, transport
    *http.Transport)].  The response returned is the one the network
    gave; its body has been read and closed. *)
Definition Send (s : State) (req : http.Request) (transport : http.Transport)
  : Outcome :=
  match Do (client s transport) req with
  | Fail err => (None, None, Some (do_error err))
  | Ok res =>
      let '(buf, err) := io.ReadAll (http.RespBody res) in
      match err with
      | Some err => (None, None, Some (read_error err))
      | None =>
          if negb ((200 <=? http.StatusCode res) && (http.StatusCode res <=? 299))
          then (Some buf, Some res,
                Some (status_error (ResponseStatus.mk (http.StatusCode res)
                                                      (http.Status res))))
          else (Some buf, Some res, None)
      end
  end.

(** Lines 179-188 of [Get]: the query of the URL goes into
    [r.Values()], and the URL is cut at the [?]. *)
Definition Get_query (s : State) : State :=
  let idx := gostrings.Index (URL (r s)) "?" in
  if negb (idx =? -1) then
    let s :=
      match url.Parse (URL (r s)) with
      | Ok u =>
          map_fold (λ k v1 s, foldl (λ s v2, Values_Add k v2 s) s v1) s
                   (url.Query u)
      | Fail _ => s
      end in
    set_URL s (gostrings.slice_to (URL (r s)) idx)
  else s.

(** [Get] from the call of [r.Request] to the call of [r.Transport]:
    the request and the transport that [Send] is given, or the error
    that [Get] returns. *)
Definition Get_request (s : State)
  : result error (http.Request * http.Transport) :=
  match Request s "GET" (Username (r s)) (Password (r s)) None with
  | Fail err => Fail err
  | Ok req =>
      let req :=
        match values (r s) with
        | Some v => http.set_RawQuery req (url.Encode v)
        | None => req
        end in
      match Transport s req with
      | Fail err => Fail err
      | Ok (transport, req) => Ok (req, transport)
      end
  end.

(** [func (r *Request) Get()]. *)
Definition Get (s : State) : Outcome * State :=
  let s := Get_query s in
  match Get_request s with
  | Fail err => ((None, None, Some err), s)
  | Ok (req, transport) => (Send s req transport, s)
  end.

(** Lines 234-246 of [Submit]: [rawQuery], and the URL cut at the [?]. *)
Definition Submit_query (s : State) : string * State :=
  let idx := gostrings.Index (URL (r s)) "?" in
  if negb (idx =? -1) then
    let rawQuery :=
      match url.Parse (URL (r s)) with
      | Ok u =>
          url.Encode
            (map_fold (λ k v1 values, foldl (λ values v2, url.Add values k v2) values v1)
                      ∅ (url.Query u))
      | Fail _ => ""
      end in
    (rawQuery, set_URL s (gostrings.slice_to (URL (r s)) idx))
  else ("", s).

(** Lines 249-251: the default [Content-Type]. *)
Definition Submit_content_type (s : State) : State :=
  match header (r s) with
  | None => Header_Add "Content-Type" "application/x-www-form-urlencoded" s
  | Some _ =>
      let '(ct, s) := Header_Get "Content-Type" s in
      if String.eqb ct ""
      then Header_Add "Content-Type" "application/x-www-form-urlencoded" s
      else s
  end.

Definition is_json (contentType : string) : bool :=
  String.eqb contentType "application/json"
  || String.eqb contentType "text/json"
  || String.eqb contentType "text/x-json".

(** Lines 254-266: [data].  [json.Marshal] has no error for a
    [*url.Values]. *)
Definition Submit_data (s : State) : option io.Reader :=
  match values (r s) with
  | Some v =>
      if is_json (HeaderType.Get (heap s) (header (r s)) "Content-Type")
      then Some (io.bytes_Buffer (json.Marshal v))
      else Some (io.strings_Reader (url.Encode v))
  | None => None
  end.

(** [Submit] up to the call of [r.Transport]: the request and the
    transport that [Send] is given, or the error that [Submit]
    returns, and the state they leave. *)
Definition Submit_request (method : string) (s : State)
  : result error (http.Request * http.Transport) * State :=
  let '(rawQuery, s) := Submit_query s in
  let s := Submit_content_type s in
  let data := Submit_data s in
  match Request s method (Username (r s)) (Password (r s)) data with
  | Fail err => (Fail err, s)
  | Ok req =>
      let req :=
        if negb (String.eqb rawQuery "") then http.set_RawQuery req rawQuery
        else req in
      match Transport s req with
      | Fail err => (Fail err, s)
      | Ok (transport, req) => (Ok (req, transport), s)
      end
  end.

(** [func (r *Request) Submit(method string)]. *)
Definition Submit (method : string) (s : State) : Outcome * State :=
  let '(assembled, s) := Submit_request method s in
  match assembled with
  | Fail err => ((None, None, Some err), s)
  | Ok (req, transport) => (Send s req transport, s)
  end.

Definition Post : State → Outcome * State := Submit "POST".
Definition Put : State → Outcome * State := Submit "PUT".
Definition Delete : State → Outcome * State := Submit "DELETE".
Definition Patch : State → Outcome * State := Submit "PATCH".

End Network.

(** [func (r *Request) JSON(j []byte) error]. *)
Definition JSON (j : string) (s : State) : option error * State :=
  match json.Unmarshal j with
  | Fail err => (Some (json_error err), s)
  | Ok values =>
      let s := map_fold (λ k v s, Values_Add k v s) s values in
      let s := Header_Add "Content-Type" "application/json" s in
      (None, s)
  end.

End Request.

(** * Properties *)

Import Request.

(** The three parts of what a call returns. *)
Definition out_body (o : Outcome) : option string := o.1.1.
Definition out_response (o : Outcome) : option http.Response := o.1.2.
Definition out_error (o : Outcome) : option error := o.2.

(** A request configuration with only its URL set, on an empty heap. *)
Definition fresh_request (u : string) : State :=
  mkState (mk u "" "" 0 false (Proxy.mk "" "" "") None None) ∅.

(** Networks used in the examples: one that answers every request with a
    given status and body, and one whose response body breaks off. *)
Definition answers (code : Z) (status body : string)
  : http.Client → http.Request → result string http.Response :=
  λ _ _, Ok (http.mkResponse code status ∅ (io.mkStream body None)).

Definition breaks_off (code : Z) (status sofar : string)
  : http.Client → http.Request → result string http.Response :=
  λ _ _, Ok (http.mkResponse code status ∅
               (io.mkStream sofar (Some "unexpected EOF"))).

(** The configuration [s] with [Timeout] set. *)
Definition with_Timeout (s : State) (timeout : Z) : State :=
  let x := r s in
  mkState (mk (URL x) (Username x) (Password x) timeout (Insecure x) (Proxy x)
              (values x) (header x)) (heap s).

(** The map behind [r.values]; none yet reads as empty. *)
Definition ValueStore (s : State) : url.Values := default ∅ (values (r s)).

(** The values stored for a key, in order. *)
Definition stored (s : State) (k : string) : list string :=
  url.values_of (ValueStore s) k.

(** [s'] is [s] with another value store. *)
Definition only_values_differ (s s' : State) : Prop :=
  s' = set_values s (values (r s')).

(** The [Content-Type] in the header store. *)
Definition content_type (s : State) : string :=
  HeaderType.Get (heap s) (header (r s)) "Content-Type".

(** JSON texts of the examples, written with an apostrophe for each
    double quote. *)
Fixpoint json_text (s : string) : string :=
  match s with
  | EmptyString => EmptyString
  | String c rest => String (if Ascii.eqb c "'" then dquote else c) (json_text rest)
  end.

(** From the words of the specification: the input is a flat JSON
    object whose every value is a string.  [string_members] walks the
    text of a valid JSON document and checks that it is an object whose
    members all have a string for value. *)
Fixpoint string_members (st : json.reader) (data : string) : bool :=
  match data with
  | EmptyString => false
  | String c rest =>
      match st with
      | json.atTop =>
          if json.isSpace c then string_members json.atTop rest
          else if Ascii.eqb c "{" then string_members json.atKeyOrEnd rest
          else false
      | json.atKeyOrEnd =>
          if json.isSpace c then string_members json.atKeyOrEnd rest
          else if Ascii.eqb c "}" then true
          else string_members (json.inKey false) rest
      | json.inKey escaped =>
          if escaped then string_members (json.inKey false) rest
          else if Ascii.eqb c bslash then string_members (json.inKey true) rest
          else if Ascii.eqb c dquote then string_members json.atColon rest
          else string_members (json.inKey false) rest
      | json.atColon =>
          if Ascii.eqb c ":" then string_members json.atValue rest
          else string_members json.atColon rest
      | json.atValue =>
          if json.isSpace c then string_members json.atValue rest
          else if Ascii.eqb c dquote then string_members (json.inValue false) rest
          else false
      | json.inValue escaped =>
          if escaped then string_members (json.inValue false) rest
          else if Ascii.eqb c bslash then string_members (json.inValue true) rest
          else if Ascii.eqb c dquote then string_members json.atCommaOrEnd rest
          else string_members (json.inValue false) rest
      | json.inNull _ => false
      | json.atCommaOrEnd =>
          if Ascii.eqb c "," then string_members json.atKeyOrEnd rest
          else if Ascii.eqb c "}" then true
          else string_members json.atCommaOrEnd rest
      end
  end.

Definition flat_string_object (data : string) : bool :=
  json.checkValid data && string_members json.atTop data.

(** [r.Header().Clear()]. *)
Definition Header_Clear (s : State) : State :=
  let '(hd, s) := Header s in
  mkState (r s) (HeaderType.Clear (heap s) hd).

(** The handler of the package's tests ([handleFunc]): what the test
    server answers to a request.  [r.BasicAuth()] gives [username] and
    [password] exactly when the [Authorization] header is the Basic
    encoding of the two. *)
Definition handleFunc (req : http.Request) : http.Response :=
  let respond code status body :=
    http.mkResponse code status ∅ (io.mkStream body None) in
  let path := url.Path (http.URL req) in
  let rawQuery := url.RawQuery (http.URL req) in
  let method := http.Method req in
  if String.eqb method "GET" then
    if String.eqb path "/name" then respond 404 "404 Not Found" "404 not found"
    else if bool_decide (http.Header_Values (http.ReqHeader req) "User-Agent"
                         = ["TEST - BROWSER"])
            && String.eqb rawQuery "key=value&test=true"
    then respond 200 "200 OK" "SUCCESS"
    else respond 200 "200 OK" ""
  else if String.eqb method "POST" then
    if String.eqb path "/name" then respond 404 "404 Not Found" "404 not found"
    else if String.eqb rawQuery "test=true" then respond 200 "200 OK" "SUCCESS"
    else respond 200 "200 OK" ""
  else if String.eqb method "PUT" then
    if String.eqb rawQuery "test=true" then respond 200 "200 OK" "SUCCESS"
    else respond 200 "200 OK" ""
  else if String.eqb method "PATCH" then
    if bool_decide (http.Header_Values (http.ReqHeader req) "Authorization"
                    = ["Basic " +:+ base64.EncodeToString "username:password"])
    then respond 200 "200 OK" "SUCCESS"
    else respond 200 "200 OK" ""
  else if String.eqb method "DELETE" then respond 200 "200 OK" "SUCCESS"
  else respond 200 "200 OK" "".

(** [httptest.NewTLSServer(handleFunc)]: the server has a certificate
    that no client trusts, so only a client that skips the verification
    gets an answer. *)
Definition NewTLSServer (c : http.Client) (req : http.Request)
  : result string http.Response :=
  match http.TLSClientConfig (http.ClientTransport c) with
  | Some (tls.mkConfig true) => Ok (handleFunc req)
  | _ => Fail "x509: certificate signed by unknown authority"
  end.

(** The request configuration of the tests: a URL and [Insecure] set. *)
Definition test_request (u : string) : State :=
  mkState (mk u "" "" 0 true (Proxy.mk "" "" "") None None) ∅.

Definition with_credentials (s : State) (username password : string) : State :=
  let x := r s in
  mkState (mk (URL x) username password (Timeout x) (Insecure x) (Proxy x)
              (values x) (header x)) (heap s).

(** The texts that [JSON] reads. *)

(** The texts that [JSON] accepts, from the grammar of JSON (RFC 8259).
    White space is made of the space, the tab, the line feed and the
    carriage return. *)
Definition is_ws (c : ascii) : bool :=
  ((byte_val c =? 32) || (byte_val c =? 9) || (byte_val c =? 10)
   || (byte_val c =? 13))%N.

Fixpoint spaces (w : string) : bool :=
  match w with
  | EmptyString => true
  | String c w' => is_ws c && spaces w'
  end.

(** What may stand between the quotes of a string literal: any byte
    from 0x20 on but the quote and the backslash, a backslash followed by
    one of the eight escape letters, or a backslash, [u] and four hex
    digits. *)
Fixpoint literal_body (b : string) : bool :=
  match b with
  | EmptyString => true
  | String c rest =>
      if Ascii.eqb c bslash then
        match rest with
        | String e rest1 =>
            if byte_in e "bfnrt/" || Ascii.eqb e bslash || Ascii.eqb e dquote
            then literal_body rest1
            else if Ascii.eqb e "u" then
              match rest1 with
              | String h1 (String h2 (String h3 (String h4 rest2))) =>
                  url.ishex h1 && url.ishex h2 && url.ishex h3 && url.ishex h4
                  && literal_body rest2
              | _ => false
              end
            else false
        | EmptyString => false
        end
      else if Ascii.eqb c dquote then false
      else if (byte_val c <? 32)%N then false
      else literal_body rest
  end.

(** The bytes that may stand unescaped in a string literal, and the
    letters that may follow a backslash. *)
Definition plain_byte (c : ascii) : bool :=
  negb (Ascii.eqb c bslash) && negb (Ascii.eqb c dquote) && negb (byte_val c <? 32)%N.

Definition escape_letter (e : ascii) : bool :=
  byte_in e "bfnrt/" || Ascii.eqb e bslash || Ascii.eqb e dquote.

Definition quoted (b : string) : string := String dquote (b +:+ String dquote "").

(** A member of an object: a key, a colon and a value that is a string
    literal or [null], with the white space around them.  The key and a
    string value are given by what stands between their quotes. *)
Record member := mkMember {
  lead : string;
  mkey : string;
  gap1 : string;
  gap2 : string;
  mvalue : option string;
  trail : string
}.

Definition value_text (v : option string) : string :=
  match v with
  | Some b => quoted b
  | None => "null"
  end.

(** A member up to the place of its value, and the whole member. *)
Definition member_start (x : member) : string :=
  lead x +:+ quoted (mkey x) +:+ gap1 x +:+ ":" +:+ gap2 x.

Definition member_text (x : member) : string :=
  member_start x +:+ value_text (mvalue x) +:+ trail x.

Definition member_ok (x : member) : bool :=
  spaces (lead x) && literal_body (mkey x) && spaces (gap1 x) && spaces (gap2 x)
  && from_option literal_body true (mvalue x) && spaces (trail x).

Fixpoint members_text (members : list member) : string :=
  match members with
  | [] => ""
  | [x] => member_text x
  | x :: rest => member_text x +:+ "," +:+ members_text rest
  end.

(** [null] between white space. *)
Definition null_text (w0 w1 : string) : string := w0 +:+ "null" +:+ w1.

(** An object between white space: empty, with white space between its
    braces, or made of members with commas between them. *)
Definition object_text (w0 w1 : string) (members : list member) (w2 : string)
  : string :=
  w0 +:+ "{" +:+ (match members with [] => w1 | _ => members_text members end)
  +:+ "}" +:+ w2.

(** The map that the members give: each key with its value, [null]
    counting as the empty string, a later member replacing an earlier
    one with the same key. *)
Definition member_pair (x : member) : string * string :=
  (json.unquote (mkey x), from_option json.unquote "" (mvalue x)).

Definition decoded (members : list member) : gmap string string :=
  foldl (λ m x, <[(member_pair x).1 := (member_pair x).2]> m) ∅ members.

(** The start of an object text: white space, the opening brace, whole
    members each followed by a comma, and one more member up to the
    place of its value. *)
Definition object_start (w0 : string) (members : list member) (x : member)
  : string :=
  w0 +:+ "{" +:+ foldr (λ y rest, member_text y +:+ "," +:+ rest) (member_start x) members.

(** [j] is a text that [JSON] accepts, and [m] what it reads from it. *)
Definition reads_as (j : string) (m : gmap string string) : Prop :=
  (∃ w0 w1, spaces w0 = true ∧ spaces w1 = true ∧ j = null_text w0 w1 ∧ m = ∅) ∨
  (∃ w0 w1 members w2,
     spaces w0 = true ∧ spaces w1 = true ∧ forallb member_ok members = true ∧
     spaces w2 = true ∧ j = object_text w0 w1 members w2 ∧ m = decoded members).

(** [checkValid] started in the state [s]: the scanner runs over [data]
    and finds the input complete. *)
Definition accepts (s : json.scanner) (data : string) : Prop :=
  json.eof_ok (json.scan s data) = true.
(** White space is passed over where a value, a key or a separator is
    awaited. *)
Definition skips_spaces (st : json.step_state) (stack : list json.parse_state)
  : bool :=
  match st with
  | json.stateBeginValue | json.stateBeginStringOrEmpty | json.stateBeginString
  | json.stateEndTop => true
  | json.stateEndValue => match stack with [] => false | _ => true end
  | _ => false
  end.

(** The walk of [Request] over the header store. *)

(** No two keys of a header store have the same canonical name. *)
Definition distinct_canonical (store : gmap string string) : Prop :=
  ∀ k k', is_Some (store !! k) → is_Some (store !! k') →
    http.CanonicalMIMEHeaderKey k = http.CanonicalMIMEHeaderKey k' → k = k'.

(** The loop of [Request] over the header store (lines 99-101) when the
    walk over the map meets its entries in the order [l]. *)
Definition copy_in_order (l : list (string * string)) (hd : http.Header)
  : http.Header :=
  foldl (λ hd kv, http.Header_Set hd kv.1 kv.2) hd l.

(** Vocabulary of the further properties. *)

(** What a caller can get back: the bytes and the response with no
    error, for a status code in 200..299; the bytes and the response with
    the [ResponseStatus] of the response, for any other code; or an error
    that is no [ResponseStatus], with neither bytes nor response. *)
Definition classified (out : Outcome) : Prop :=
  (∃ res, out = (Some (io.delivered (http.RespBody res)), Some res, None) ∧
          200 ≤ http.StatusCode res ≤ 299) ∨
  (∃ res, out = (Some (io.delivered (http.RespBody res)), Some res,
                 Some (status_error (ResponseStatus.mk (http.StatusCode res)
                                                       (http.Status res)))) ∧
          ¬ 200 ≤ http.StatusCode res ≤ 299) ∨
  (∃ err, out = (None, None, Some err) ∧ ∀ status, err ≠ status_error status).

(** A store of values in which no key has an empty list: [ParseQuery]
    makes no other. *)
Definition no_empty_list (m : url.Values) : Prop :=
  ∀ k vs, m !! k = Some vs → vs ≠ [].

(** The facts about one byte that reading back an escaped text rests
    on: a byte that [QueryEscape] escapes is written as two upper-case
    hex digits that give the byte back, and a byte that it copies is
    none of the bytes with a meaning in a query. *)
Definition escapes_well (c : ascii) : bool :=
  if Ascii.eqb c " " then true
  else if url.shouldEscape c url.encodeQueryComponent then
    let hi := url.upperhex (N.shiftr (byte_val c) 4) in
    let lo := url.upperhex (N.land (byte_val c) 15) in
    url.ishex hi && url.ishex lo
    && Ascii.eqb (ascii_of_N (N.lor (N.shiftl (url.unhex hi) 4) (url.unhex lo))) c
    && negb (byte_in hi "&=;") && negb (byte_in lo "&=;")
  else negb (byte_in c "%+&=;").

(** The pairs that [Encode] writes, before they are escaped. *)
Definition pairs_of (v : url.Values) : list (string * string) :=
  k ← url.sorted_keys v; pair k <$> url.values_of v k.

(** The values that a list of pairs gives to a key, in their order. *)
Definition values_at (k : string) (pairs : list (string * string)) : list string :=
  omap (λ p, if decide (p.1 = k) then Some p.2 else None) pairs.

(** ** The library functions on known values *)

Example base64_of_credentials :
  base64.EncodeToString "username:password" = "dXNlcm5hbWU6cGFzc3dvcmQ=".
Proof. reflexivity. Qed.

Example Encode_sorts_and_escapes :
  url.Encode (url.Add (url.Add (url.Add ∅ "q" "a b&c") "key" "v1") "key" "v2")
  = "key=v1&key=v2&q=a+b%26c".
Proof. by vm_compute. Qed.

Example Query_of_README_URL :
  (λ u, map_to_list (url.Query u))
    <$> match url.Parse "https://localhost/index.html?nickname=ochipin" with
        | Ok u => Some u
        | Fail _ => None
        end
  = Some [("nickname", ["ochipin"])].
Proof. by vm_compute. Qed.

Example Parse_rejects_missing_scheme :
  url.Parse "://localhost///path//to/url"
  = Fail (url.mkError "parse" "://localhost///path//to/url"
            (url.errorString "missing protocol scheme")).
Proof. reflexivity. Qed.

Example Unmarshal_rejects_number :
  json.Unmarshal (json_text "{'a':1}") = Fail (json.UnmarshalTypeError "number").
Proof. reflexivity. Qed.

Example Unmarshal_rejects_array :
  json.Unmarshal (json_text "['a']") = Fail (json.UnmarshalTypeError "array").
Proof. reflexivity. Qed.

Example Unmarshal_last_value_wins :
  json.Unmarshal (json_text "{'a':'1','a':'2'}") = Ok {["a" := "2"]}.
Proof. reflexivity. Qed.

(** ** The package's tests, run on the model *)

Example Test__GET_HTTPS_SUCCESS :
  let s := Values_Add "key" "value"
             (Header_Add "User-Agent" "TEST - BROWSER"
                (test_request "https://127.0.0.1:8443/?test=true")) in
  out_body (Get NewTLSServer s).1 = Some "SUCCESS" ∧
  out_error (Get NewTLSServer s).1 = None ∧
  (Header_Get "User-Agent" (Get NewTLSServer s).2).1 = "TEST - BROWSER".
Proof. intros s. repeat split; by vm_compute. Qed.

Example Test__GET_HTTPS_FAILED :
  is_Some (out_error (Get NewTLSServer (test_request "://localhost///path//to/url")).1).
Proof. vm_compute. eauto. Qed.

Example Test__GET_HTTPS_NOTFOUND :
  (Get NewTLSServer (test_request "https://127.0.0.1:8443/name")).1
  = (Some "404 not found",
     Some (http.mkResponse 404 "404 Not Found" ∅ (io.mkStream "404 not found" None)),
     Some (status_error (ResponseStatus.mk 404 "404 Not Found"))).
Proof. by vm_compute. Qed.

Example Test__POST_HTTPS_SUCCESS :
  let s := Values_Add "key" "value"
             (Header_Add "User-Agent" "TEST - BROWSER"
                (test_request "https://127.0.0.1:8443/?test=true")) in
  out_body (Post NewTLSServer s).1 = Some "SUCCESS" ∧
  out_error (Post NewTLSServer s).1 = None.
Proof. intros s. split; by vm_compute. Qed.

Example Test__PUT_HTTPS_JSON_SUCCESS :
  let s := test_request "https://127.0.0.1:8443/?test=true" in
  let '(err, s1) := JSON (json_text "{'key':'value'}") s in
  err = None ∧
  out_body (Put NewTLSServer s1).1 = Some "SUCCESS" ∧
  is_Some (JSON "hello world" (Put NewTLSServer s1).2).1.
Proof. vm_compute. eauto. Qed.

Example Test__PATCH_HTTPS_BASIC_SUCCESS :
  let s := with_credentials (test_request "https://127.0.0.1:8443/?test=true")
                            "username" "password" in
  out_body (Patch NewTLSServer s).1 = Some "SUCCESS" ∧
  out_error (Patch NewTLSServer s).1 = None.
Proof. intros s. split; by vm_compute. Qed.

Example Test__DELETE_HTTPS_SUCCESS :
  out_body (Delete NewTLSServer (test_request "https://127.0.0.1:8443/?test=true")).1
  = Some "SUCCESS".
Proof. by vm_compute. Qed.

(** Without [Insecure] the same server is not reached. *)
Example secure_client_is_refused :
  (Get NewTLSServer (fresh_request "https://127.0.0.1:8443/?test=true")).1
  = (None, None, Some (do_error "x509: certificate signed by unknown authority")).
Proof. by vm_compute. Qed.

(** ** [Send]: classification of the response *)

Section SendProperties.

Variable Do : http.Client → http.Request → result string http.Response.

Lemma Send_transport_failure s req transport err :
  Do (client s transport) req = Fail err →
  Send Do s req transport = (None, None, Some (do_error err)).
Proof. intros H. unfold Send. by rewrite H. Qed.

Lemma Send_read_failure s req transport res err :
  Do (client s transport) req = Ok res →
  io.failure (http.RespBody res) = Some err →
  Send Do s req transport = (None, None, Some (read_error err)).
Proof. intros H1 H2. unfold Send, io.ReadAll. by rewrite H1, H2. Qed.

Lemma Send_read_ok s req transport res :
  Do (client s transport) req = Ok res →
  io.failure (http.RespBody res) = None →
  Send Do s req transport =
    (Some (io.delivered (http.RespBody res)), Some res,
     if (200 <=? http.StatusCode res) && (http.StatusCode res <=? 299)
     then None
     else Some (status_error (ResponseStatus.mk (http.StatusCode res)
                                                (http.Status res)))).
Proof.
  intros H1 H2. unfold Send, io.ReadAll. rewrite H1, H2.
  by destruct ((200 <=? _) && _).
Qed.

(** The response comes back exactly when the network gave one and its
    body was read to the end. *)
Lemma Send_response s req transport res :
  out_response (Send Do s req transport) = Some res ↔
  Do (client s transport) req = Ok res ∧ io.failure (http.RespBody res) = None.
Proof.
  unfold out_response, Send, io.ReadAll.
  destruct (Do (client s transport) req) as [res'|err]; simpl.
  - destruct (io.failure (http.RespBody res')) as [e|] eqn:Hf; simpl.
    + split; [done|]. intros [[= ->] ?]. congruence.
    + destruct (negb _); simpl; (split; [intros [= ->]; done | by intros [[= ->] _]]).
  - split; [done | by intros [? _]].
Qed.

End SendProperties.

(** C1.  When the network has answered and the body has been read to its
    end, [Send] returns no error exactly when the status code lies in
    200..299; for every other code the error is the [ResponseStatus] made
    of that code and of the status line.  In both cases the bytes read and
    the response are returned, neither of them nil. *)
Theorem Send_classifies
    (Do : http.Client → http.Request → result string http.Response)
    (s : State) (req : http.Request) (transport : http.Transport)
    (res : http.Response) :
  Do (client s transport) req = Ok res →
  io.failure (http.RespBody res) = None →
  let out := Send Do s req transport in
  (out_error out = None ↔ 200 ≤ http.StatusCode res ≤ 299) ∧
  (¬ 200 ≤ http.StatusCode res ≤ 299 →
   out_error out =
     Some (status_error (ResponseStatus.mk (http.StatusCode res) (http.Status res)))) ∧
  out_body out = Some (io.delivered (http.RespBody res)) ∧
  out_response out = Some res.
Proof.
  intros HDo Hread out. subst out.
  rewrite (Send_read_ok Do s req transport res HDo Hread).
  unfold out_error, out_body, out_response; simpl.
  destruct (Z.leb_spec 200 (http.StatusCode res));
    destruct (Z.leb_spec (http.StatusCode res) 299); simpl;
    repeat split; try done; try lia; intros; try lia; try discriminate.
Qed.

Lemma Send_classifies_witness :
  let Do := answers 404 "404 Not Found" "404 not found" in
  let s := fresh_request "http://127.0.0.1/name" in
  let transport := http.mkTransport None None in
  let req := http.mkRequest "GET" url.empty_URL ∅ http.body_nil 0 "" in
  out_error (Send Do s req transport) =
    Some (status_error (ResponseStatus.mk 404 "404 Not Found")) ∧
  out_body (Send Do s req transport) = Some "404 not found" ∧
  is_Some (out_response (Send Do s req transport)).
Proof.
  intros Do s transport req.
  destruct (Send_classifies Do s req transport
              (http.mkResponse 404 "404 Not Found" ∅ (io.mkStream "404 not found" None))
              eq_refl eq_refl) as (_ & Herr & Hbody & Hres).
  split; [apply Herr; simpl; lia|].
  split; [exact Hbody|]. rewrite Hres. by eexists.
Defined.

(** ** [Send]: the timeout of the client *)

Lemma wrap64_small z : - 2 ^ 63 ≤ z < 2 ^ 63 → wrap64 z = z.
Proof. intros H. unfold wrap64. rewrite Z.mod_small; lia. Qed.

(** C9, as amended.  The client that [Send] hands to the network has a
    timeout of exactly 10 ms when [Timeout] is zero or negative, and of
    [Timeout] ms when [Timeout] is positive and at most 9223372036854,
    the largest count of milliseconds whose nanoseconds fit the 64 bits of
    a [time.Duration]; in that range the timeout is positive, that is,
    neither zero nor unbounded. *)
Theorem client_timeout (s : State) (transport : http.Transport) :
  Timeout (r s) ≤ 9223372036854 →
  (Timeout (r s) ≤ 0 →
   http.ClientTimeout (client s transport) = 10 * time.Millisecond) ∧
  (0 < Timeout (r s) →
   http.ClientTimeout (client s transport) = Timeout (r s) * time.Millisecond) ∧
  0 < http.ClientTimeout (client s transport).
Proof.
  intros Hmax. unfold client, time.mul, time.Millisecond; simpl.
  destruct (Z.leb_spec (Timeout (r s)) 0) as [Hle|Hgt].
  - rewrite wrap64_small by lia. repeat split; intros; lia.
  - rewrite wrap64_small by lia. repeat split; intros; lia.
Qed.

Lemma client_timeout_witness :
  let s := with_Timeout (fresh_request "https://localhost/index.html") 1000 in
  http.ClientTimeout (client s (http.mkTransport None None)) = 1000 * time.Millisecond.
Proof.
  intros s.
  apply (client_timeout s (http.mkTransport None None)); simpl; lia.
Defined.

(** C9, as stated, fails: a positive [Timeout] of 2^58 ms is a whole
    multiple of 2^64 ns, so the client gets the timeout 0, which
    [http.Client] reads as no timeout at all. *)
Lemma client_timeout_wraps :
  let s := with_Timeout (fresh_request "https://localhost/index.html")
                        288230376151711744 in
  0 < Timeout (r s) < 2 ^ 63 ∧
  http.ClientTimeout (client s (http.mkTransport None None)) = 0.
Proof. intros s. split; [simpl; lia | reflexivity]. Qed.

(** ** The verbs: when the response is returned *)

Section VerbProperties.

Variable Do : http.Client → http.Request → result string http.Response.

Lemma Get_unfold s :
  Get Do s =
    match Get_request (Get_query s) with
    | Fail err => ((None, None, Some err), Get_query s)
    | Ok (req, transport) =>
        (Send Do (Get_query s) req transport, Get_query s)
    end.
Proof. reflexivity. Qed.

Lemma Submit_unfold method s :
  Submit Do method s =
    match (Submit_request method s).1 with
    | Fail err => ((None, None, Some err), (Submit_request method s).2)
    | Ok (req, transport) =>
        (Send Do (Submit_request method s).2 req transport,
         (Submit_request method s).2)
    end.
Proof.
  unfold Submit. destruct (Submit_request method s) as [[[req tr]|err] s']; done.
Qed.

Lemma Get_response s res :
  out_response (Get Do s).1 = Some res ↔
  ∃ req transport,
    Get_request (Get_query s) = Ok (req, transport) ∧
    Do (client (Get_query s) transport) req = Ok res ∧
    io.failure (http.RespBody res) = None.
Proof.
  rewrite Get_unfold.
  destruct (Get_request (Get_query s)) as [[req tr]|err]; simpl.
  - rewrite Send_response. split.
    + intros [? ?]. by exists req, tr.
    + intros (? & ? & [= <- <-] & ? & ?). done.
  - split; [done|]. by intros (? & ? & ? & _).
Qed.

Lemma Submit_response method s res :
  out_response (Submit Do method s).1 = Some res ↔
  ∃ req transport,
    (Submit_request method s).1 = Ok (req, transport) ∧
    Do (client (Submit_request method s).2 transport) req = Ok res ∧
    io.failure (http.RespBody res) = None.
Proof.
  rewrite Submit_unfold.
  destruct (Submit_request method s).1 as [[req tr]|err]; simpl.
  - rewrite Send_response. split.
    + intros [? ?]. by exists req, tr.
    + intros (? & ? & [= <- <-] & ? & ?). done.
  - split; [done|]. by intros (? & ? & ? & _).
Qed.

Lemma Get_read_failure s req transport res err :
  Get_request (Get_query s) = Ok (req, transport) →
  Do (client (Get_query s) transport) req = Ok res →
  io.failure (http.RespBody res) = Some err →
  (Get Do s).1 = (None, None, Some (read_error err)).
Proof.
  intros Hreq HDo Hfail. rewrite Get_unfold, Hreq. simpl.
  by apply Send_read_failure with res.
Qed.

Lemma Submit_read_failure method s req transport res err :
  (Submit_request method s).1 = Ok (req, transport) →
  Do (client (Submit_request method s).2 transport) req = Ok res →
  io.failure (http.RespBody res) = Some err →
  (Submit Do method s).1 = (None, None, Some (read_error err)).
Proof.
  intros Hreq HDo Hfail. rewrite Submit_unfold, Hreq. simpl.
  by apply Send_read_failure with res.
Qed.

End VerbProperties.

(** C2, as amended.  A verb returns the response exactly when the
    request was assembled, the network answered it, and the body of the
    answer was read to its end.  So the response is nil when the error
    came before any response, and it is nil as well when a response came
    but its body broke off: then all that is returned is the read error. *)
Theorem verb_returns_response
    (Do : http.Client → http.Request → result string http.Response)
    (s : State) (res : http.Response) :
  (out_response (Get Do s).1 = Some res ↔
   ∃ req transport,
     Get_request (Get_query s) = Ok (req, transport) ∧
     Do (client (Get_query s) transport) req = Ok res ∧
     io.failure (http.RespBody res) = None) ∧
  (∀ method,
     out_response (Submit Do method s).1 = Some res ↔
     ∃ req transport,
       (Submit_request method s).1 = Ok (req, transport) ∧
       Do (client (Submit_request method s).2 transport) req = Ok res ∧
       io.failure (http.RespBody res) = None) ∧
  (∀ req transport err,
     Get_request (Get_query s) = Ok (req, transport) →
     Do (client (Get_query s) transport) req = Ok res →
     io.failure (http.RespBody res) = Some err →
     (Get Do s).1 = (None, None, Some (read_error err))) ∧
  (∀ method req transport err,
     (Submit_request method s).1 = Ok (req, transport) →
     Do (client (Submit_request method s).2 transport) req = Ok res →
     io.failure (http.RespBody res) = Some err →
     (Submit Do method s).1 = (None, None, Some (read_error err))).
Proof.
  split; [apply Get_response|].
  split; [intros method; apply Submit_response|].
  split.
  - intros req transport err. apply Get_read_failure.
  - intros method req transport err. apply Submit_read_failure.
Qed.

Lemma verb_returns_response_witness :
  let Do := answers 200 "200 OK" "SUCCESS" in
  let s := fresh_request "http://127.0.0.1/?test=true" in
  out_response (Get Do s).1 =
    Some (http.mkResponse 200 "200 OK" ∅ (io.mkStream "SUCCESS" None)) ∧
  out_response (Delete Do s).1 =
    Some (http.mkResponse 200 "200 OK" ∅ (io.mkStream "SUCCESS" None)).
Proof.
  intros Do s.
  pose proof (verb_returns_response Do s
                (http.mkResponse 200 "200 OK" ∅ (io.mkStream "SUCCESS" None)))
    as (HGet & HSubmit & _ & _).
  split.
  - apply HGet. vm_compute. eauto.
  - apply (HSubmit "DELETE"). vm_compute. eauto.
Defined.

(** C2, as stated, fails: the network answers the request, the body of
    the answer breaks off, and [Get] returns a nil response. *)
Lemma read_failure_drops_response :
  let Do := breaks_off 200 "200 OK" "SUCC" in
  let s := fresh_request "http://127.0.0.1/" in
  (∃ req transport res,
     Get_request (Get_query s) = Ok (req, transport) ∧
     Do (client (Get_query s) transport) req = Ok res) ∧
  out_response (Get Do s).1 = None ∧
  out_body (Get Do s).1 = None ∧
  out_error (Get Do s).1 = Some (read_error "unexpected EOF").
Proof.
  intros Do s. split; [|by vm_compute].
  vm_compute. eauto.
Qed.

(** ** Strings: cutting at the first [?] *)

Lemma prefix_one c d s :
  String.prefix (String c "") (String d s) = Ascii.eqb c d.
Proof.
  simpl. destruct (ascii_dec c d) as [->|Hne].
  - rewrite Ascii.eqb_refl. by destruct s.
  - symmetry. by apply Ascii.eqb_neq.
Qed.

Lemma index_from_cons c i d s :
  gostrings.index_from i (String c "") (String d s) =
    if Ascii.eqb c d then i else gostrings.index_from (i + 1) (String c "") s.
Proof.
  change (gostrings.index_from i (String c "") (String d s))
    with (if String.prefix (String c "") (String d s) then i
          else gostrings.index_from (i + 1) (String c "") s).
  by rewrite prefix_one.
Qed.

Lemma index_from_absent c i s :
  byte_in c s = false → gostrings.index_from i (String c "") s = -1.
Proof.
  revert i. induction s as [|d s IH]; intros i H; [done|].
  simpl in H. apply orb_false_iff in H as [Hcd Hs].
  rewrite index_from_cons, Hcd. by apply IH.
Qed.

Lemma index_from_first c i pre post :
  byte_in c pre = false →
  gostrings.index_from i (String c "") (pre +:+ String c post) = i + gostrings.len pre.
Proof.
  revert i. induction pre as [|d pre IH]; intros i H.
  - change ("" +:+ String c post) with (String c post).
    rewrite index_from_cons, Ascii.eqb_refl.
    unfold gostrings.len; simpl; lia.
  - simpl in H. apply orb_false_iff in H as [Hcd Hs].
    change (String d pre +:+ String c post) with (String d (pre +:+ String c post)).
    rewrite index_from_cons, Hcd, IH by done.
    unfold gostrings.len; simpl String.length. lia.
Qed.

Lemma substring_prefix pre post :
  String.substring 0 (String.length pre) (pre +:+ post) = pre.
Proof.
  induction pre as [|d pre IH]; simpl.
  - by destruct post.
  - by rewrite IH.
Qed.

Lemma slice_to_app pre post :
  gostrings.slice_to (pre +:+ post) (gostrings.len pre) = pre.
Proof.
  unfold gostrings.slice_to, gostrings.len. rewrite Nat2Z.id. apply substring_prefix.
Qed.

Lemma len_nonneg s : 0 ≤ gostrings.len s.
Proof. unfold gostrings.len. lia. Qed.

Lemma Index_absent c s :
  byte_in c s = false → gostrings.Index s (String c "") = -1.
Proof. apply index_from_absent. Qed.

Lemma Index_first c pre post :
  byte_in c pre = false →
  gostrings.Index (pre +:+ String c post) (String c "") = gostrings.len pre.
Proof. intros H. unfold gostrings.Index. by rewrite index_from_first. Qed.

(** ** The query-merge step of [Get] and [Submit] *)

Lemma Get_query_no_mark s :
  byte_in "?" (URL (r s)) = false → Get_query s = s.
Proof. intros H. unfold Get_query. by rewrite Index_absent. Qed.

Lemma Submit_query_no_mark s :
  byte_in "?" (URL (r s)) = false → Submit_query s = ("", s).
Proof. intros H. unfold Submit_query. by rewrite Index_absent. Qed.

Lemma Get_query_parse_failure s pre post e :
  URL (r s) = pre +:+ "?" +:+ post → byte_in "?" pre = false →
  url.Parse (URL (r s)) = Fail e →
  Get_query s = set_URL s pre.
Proof.
  intros HURL Hpre Hparse. unfold Get_query. rewrite Hparse, HURL.
  change (pre +:+ "?" +:+ post) with (pre +:+ String "?" post).
  rewrite Index_first by done.
  destruct (Z.eqb_spec (gostrings.len pre) (-1)) as [Heq|_].
  - pose proof (len_nonneg pre). lia.
  - simpl. by rewrite slice_to_app.
Qed.

Lemma Submit_query_parse_failure s pre post e :
  URL (r s) = pre +:+ "?" +:+ post → byte_in "?" pre = false →
  url.Parse (URL (r s)) = Fail e →
  Submit_query s = ("", set_URL s pre).
Proof.
  intros HURL Hpre Hparse. unfold Submit_query. rewrite Hparse, HURL.
  change (pre +:+ "?" +:+ post) with (pre +:+ String "?" post).
  rewrite Index_first by done.
  destruct (Z.eqb_spec (gostrings.len pre) (-1)) as [Heq|_].
  - pose proof (len_nonneg pre). lia.
  - simpl. by rewrite slice_to_app.
Qed.

(** ** [net/url]: a URL without [?] has no query *)

Lemma byte_in_substring c n m s :
  byte_in c s = false → byte_in c (String.substring n m s) = false.
Proof.
  revert n m. induction s as [|d s IH]; intros n m H.
  - by destruct n, m.
  - simpl in H. apply orb_false_iff in H as [Hcd Hs].
    destruct n as [|n], m as [|m]; simpl; rewrite ?Hcd, ?IH; done.
Qed.

Lemma Cut_absent c s :
  byte_in c s = false → gostrings.Cut s (String c "") = (s, "", false).
Proof. intros H. unfold gostrings.Cut. by rewrite Index_absent. Qed.

Lemma Cut_before c sep s :
  byte_in c s = false → byte_in c (gostrings.Cut s sep).1.1 = false.
Proof.
  intros H. unfold gostrings.Cut. destruct (0 <=? _); simpl; [|done].
  by apply byte_in_substring.
Qed.

Lemma HasSuffix_absent c s :
  byte_in c s = false → gostrings.HasSuffix s (String c "") = false.
Proof.
  intros H. unfold gostrings.HasSuffix.
  destruct (gostrings.len (String c "") <=? gostrings.len s); [|done]. simpl.
  apply String.eqb_neq. intros Heq.
  pose proof (byte_in_substring c
    (Z.to_nat (gostrings.len s - gostrings.len (String c "")))
    (String.length s - Z.to_nat (gostrings.len s - gostrings.len (String c ""))) s H) as Hsub.
  unfold gostrings.slice_from in Heq. rewrite Heq in Hsub. simpl in Hsub.
  by rewrite Ascii.eqb_refl in Hsub.
Qed.

Lemma getScheme_from_rest c i rawURL s scheme rest :
  byte_in c rawURL = false → byte_in c s = false →
  url.getScheme_from i rawURL s = Ok (scheme, rest) →
  byte_in c rest = false.
Proof.
  intros Hraw. revert i. induction s as [|d s IH]; intros i Hs H.
  - by injection H as <- <-.
  - simpl in Hs. apply orb_false_iff in Hs as [Hcd Hs]. simpl in H.
    repeat match type of H with
           | (if ?b then _ else _) = _ => destruct b
           end; eauto; try discriminate; by injection H as <- <-.
Qed.

Lemma setPath_RawQuery u p u' :
  url.setPath u p = Ok u' → url.RawQuery u' = url.RawQuery u.
Proof.
  unfold url.setPath. destruct (url.unescape p url.encodePath); [|done].
  by intros [= <-].
Qed.

Lemma setFragment_RawQuery u f u' :
  url.setFragment u f = Ok u' → url.RawQuery u' = url.RawQuery u.
Proof.
  unfold url.setFragment. destruct (url.unescape f url.encodeFragment); [|done].
  by intros [= <-].
Qed.

Lemma parse_no_query rawURL u :
  byte_in "?" rawURL = false → url.parse rawURL = Ok u → url.RawQuery u = "".
Proof.
  intros Hno. unfold url.parse.
  destruct (url.stringContainsCTLByte rawURL); [done|].
  destruct (String.eqb rawURL "*"); [by intros [= <-]|].
  destruct (url.getScheme rawURL) as [[scheme0 rest0]|e] eqn:Hsch; [|done].
  apply (getScheme_from_rest "?" 0 rawURL rawURL scheme0 rest0 Hno Hno) in Hsch.
  rewrite (HasSuffix_absent "?" rest0 Hsch), (Cut_absent "?" rest0 Hsch). simpl.
  repeat match goal with
         | |- (if ?b then _ else _) = _ → _ => destruct b
         | |- (let '(_, _) := ?p in _) = _ → _ => destruct p
         | |- match ?x with Ok _ => _ | Fail _ => _ end = _ → _ =>
             destruct x as [[??]|?]
         end;
    try discriminate; try (by intros [= <-]);
    intros H; by apply setPath_RawQuery in H.
Qed.

Lemma Parse_no_query rawURL u :
  byte_in "?" rawURL = false → url.Parse rawURL = Ok u → url.RawQuery u = "".
Proof.
  intros Hno. unfold url.Parse.
  pose proof (Cut_before "?" "#" rawURL Hno) as Hcut.
  destruct (gostrings.Cut rawURL "#") as [[u0 frag] found]. simpl in Hcut.
  destruct (url.parse u0) as [url0|e] eqn:Hparse; [|done].
  apply parse_no_query in Hparse; [|done].
  destruct (String.eqb frag ""); [by intros [= <-]|].
  destruct (url.setFragment url0 frag) as [url1|e] eqn:Hfrag; [|done].
  intros [= <-]. apply setFragment_RawQuery in Hfrag. congruence.
Qed.

(** ** The value store *)

Lemma values_of_Add v key value k :
  url.values_of (url.Add v key value) k =
    if decide (k = key) then url.values_of v key ++ [value] else url.values_of v k.
Proof.
  unfold url.Add, url.values_of at 1. case_decide as Hk.
  - subst. by rewrite lookup_insert_eq.
  - by rewrite lookup_insert_ne.
Qed.

Lemma Values_Add_spec key value s :
  Values_Add key value s = set_values s (Some (url.Add (ValueStore s) key value)).
Proof.
  unfold Values_Add, Values, ValueStore. destruct s as [[] ?]; simpl.
  by destruct values0.
Qed.

Lemma only_values_differ_refl s : only_values_differ s s.
Proof. by destruct s as [[] ?]. Qed.

Lemma only_values_differ_trans s1 s2 s3 :
  only_values_differ s1 s2 → only_values_differ s2 s3 → only_values_differ s1 s3.
Proof.
  unfold only_values_differ. intros H12 H23. rewrite H23 at 1. rewrite H12 at 1.
  by destruct s1 as [[] ?].
Qed.

Lemma Values_Add_only_values key value s :
  only_values_differ s (Values_Add key value s).
Proof. rewrite Values_Add_spec. by destruct s as [[] ?]. Qed.

Lemma stored_Values_Add key value s k :
  stored (Values_Add key value s) k =
    if decide (k = key) then stored s key ++ [value] else stored s k.
Proof.
  rewrite Values_Add_spec. unfold stored at 1, ValueStore at 1. simpl.
  apply values_of_Add.
Qed.

Lemma fold_Values_Add k vs s :
  let s' := foldl (λ s v2, Values_Add k v2 s) s vs in
  only_values_differ s s' ∧
  ∀ k', stored s' k' = if decide (k' = k) then stored s k ++ vs else stored s k'.
Proof.
  revert s. induction vs as [|v vs IH]; intros s; simpl.
  - split; [apply only_values_differ_refl|].
    intros k'. case_decide; [subst; by rewrite app_nil_r | done].
  - destruct (IH (Values_Add k v s)) as [Hframe Hstored]. split.
    + eapply only_values_differ_trans; [apply Values_Add_only_values | done].
    + intros k'. rewrite Hstored, !stored_Values_Add.
      repeat case_decide; try done. by rewrite <- app_assoc.
Qed.

Lemma values_of_empty k : url.values_of ∅ k = [].
Proof. unfold url.values_of. by rewrite lookup_empty. Qed.

Lemma values_of_insert (m : url.Values) i x k :
  url.values_of (<[i := x]> m) k = if decide (k = i) then x else url.values_of m k.
Proof.
  unfold url.values_of. case_decide as Hk.
  - subst. by rewrite lookup_insert_eq.
  - by rewrite lookup_insert_ne.
Qed.

(** The two nested loops over [u.Query()]: every value of every key is
    appended, behind the values the key had. *)
Lemma merge_query_spec (q : url.Values) s :
  let s' := map_fold (λ k v1 s, foldl (λ s v2, Values_Add k v2 s) s v1) s q in
  only_values_differ s s' ∧
  ∀ k, stored s' k = stored s k ++ url.values_of q k.
Proof.
  simpl.
  apply (map_fold_weak_ind (λ s' (q : url.Values),
           only_values_differ s s' ∧
           ∀ k, stored s' k = stored s k ++ url.values_of q k)).
  - split; [apply only_values_differ_refl|].
    intros k. by rewrite values_of_empty, app_nil_r.
  - intros i x m s' Hi [Hframe Hstored].
    destruct (fold_Values_Add i x s') as [Hframe' Hstored']. split.
    + eapply only_values_differ_trans; done.
    + intros k. rewrite Hstored', values_of_insert. case_decide as Hk.
      * subst. rewrite Hstored. unfold url.values_of at 1.
        rewrite Hi. simpl. by rewrite app_nil_r.
      * apply Hstored.
Qed.

(** ** What [Request] and [Transport] leave of the URL *)

Lemma Request_RawQuery s method username password data req :
  Request s method username password data = Ok req →
  ∃ u, url.Parse (URL (r s)) = Ok u ∧
       url.RawQuery (http.URL req) = url.RawQuery u.
Proof.
  unfold Request, http.NewRequest.
  destruct (negb (http.validMethod _)); [done|].
  destruct (url.Parse (URL (r s))) as [u|e]; [|done].
  intros H. exists u. split; [done|].
  destruct data as [rd|]; [destruct (io.Len rd =? 0)|];
    destruct (negb (String.eqb username "") && negb (String.eqb password ""));
    by injection H as <-.
Qed.

Lemma Transport_request s req transport req' :
  Transport s req = Ok (transport, req') →
  http.URL req' = http.URL req ∧ http.ReqBody req' = http.ReqBody req ∧
  http.Method req' = http.Method req.
Proof.
  unfold Transport.
  destruct (negb (String.eqb (Proxy.URL (Proxy (r s))) "")).
  - destruct (url.Parse (Proxy.URL (Proxy (r s)))) as [proxy|e]; [|done].
    destruct (negb (String.eqb (Proxy.Username _) "") && negb (String.eqb (Proxy.Password _) ""));
      destruct ((gostrings.Index (URL (r s)) "https://" =? 0) && Insecure (r s));
      by intros [= <- <-].
  - destruct ((gostrings.Index (URL (r s)) "https://" =? 0) && Insecure (r s));
      by intros [= <- <-].
Qed.

Lemma Encode_empty : url.Encode ∅ = "".
Proof. reflexivity. Qed.

Lemma Get_query_parsed s pre post u :
  URL (r s) = pre +:+ "?" +:+ post → byte_in "?" pre = false →
  url.Parse (URL (r s)) = Ok u →
  Get_query s =
    set_URL (map_fold (λ k v1 s, foldl (λ s v2, Values_Add k v2 s) s v1) s (url.Query u))
            pre.
Proof.
  intros HURL Hpre Hparse. unfold Get_query. rewrite Hparse.
  pose proof (merge_query_spec (url.Query u) s) as [Hframe _]. simpl in Hframe.
  set (s1 := map_fold _ s (url.Query u)) in *.
  assert (URL (r s1) = URL (r s)) as HURL1.
  { rewrite Hframe. by destruct s as [[] ?]. }
  rewrite HURL.
  change (pre +:+ "?" +:+ post) with (pre +:+ String "?" post).
  rewrite Index_first by done.
  destruct (Z.eqb_spec (gostrings.len pre) (-1)) as [Heq|_].
  - pose proof (len_nonneg pre). lia.
  - simpl. rewrite HURL1, HURL.
    change (pre +:+ "?" +:+ post) with (pre +:+ String "?" post).
    by rewrite slice_to_app.
Qed.

(** C7, as amended.  For a [Get] whose URL holds a [?] and parses: every
    value that the URL's query gives to a key is appended to [r.values]
    behind the values the key already had, so that pairs given twice stay
    twice; the URL is cut to the part before the [?]; and the request
    that is assembled and sent has for raw query the encoding of the
    value store. *)
Theorem Get_merges_inline_query
    (Do : http.Client → http.Request → result string http.Response)
    (s : State) (pre post : string) (u : url.URL) :
  URL (r s) = pre +:+ "?" +:+ post →
  byte_in "?" pre = false →
  url.Parse (URL (r s)) = Ok u →
  let s' := Get_query s in
  URL (r s') = pre ∧
  (∀ k, stored s' k = stored s k ++ url.values_of (url.Query u) k) ∧
  (∀ req transport,
     Get_request s' = Ok (req, transport) →
     url.RawQuery (http.URL req) = url.Encode (ValueStore s') ∧
     Get Do s = (Send Do s' req transport, s')).
Proof.
  intros HURL Hpre Hparse s'. subst s'.
  rewrite (Get_query_parsed s pre post u HURL Hpre Hparse).
  pose proof (merge_query_spec (url.Query u) s) as [Hframe Hstored].
  simpl in Hframe, Hstored.
  set (s1 := map_fold _ s (url.Query u)) in *.
  split; [done|]. split; [exact Hstored|].
  intros req transport Hreq. split.
  - unfold Get_request in Hreq.
    destruct (Request (set_URL s1 pre) "GET" _ _ None) as [req0|e] eqn:HR; [|done].
    apply Request_RawQuery in HR as (u' & Hu' & HRaw). simpl in Hu'.
    destruct (Transport (set_URL s1 pre) _) as [[tr req1]|e] eqn:HT; [|done].
    injection Hreq as <- <-. apply Transport_request in HT as (-> & _ & _).
    unfold ValueStore. simpl. destruct (values (r s1)) as [v|]; simpl.
    + done.
    + rewrite HRaw. by apply (Parse_no_query pre).
  - unfold Get. rewrite (Get_query_parsed s pre post u HURL Hpre Hparse).
    fold s1. by rewrite Hreq.
Qed.

Lemma Get_merges_inline_query_witness :
  let s := Values_Add "key" "value"
             (Header_Add "User-Agent" "TEST - BROWSER"
                (fresh_request "http://127.0.0.1:8080/?key=value&test=true")) in
  URL (r (Get_query s)) = "http://127.0.0.1:8080/" ∧
  stored (Get_query s) "key" = ["value"; "value"] ∧
  stored (Get_query s) "test" = ["true"] ∧
  ∃ req transport,
    Get_request (Get_query s) = Ok (req, transport) ∧
    url.RawQuery (http.URL req) = "key=value&key=value&test=true".
Proof.
  intros s.
  assert (∃ u, url.Parse (URL (r s)) = Ok u) as [u Hu] by (vm_compute; eauto).
  destruct (Get_merges_inline_query (answers 200 "200 OK" "SUCCESS") s
              "http://127.0.0.1:8080/" "key=value&test=true" u eq_refl eq_refl Hu)
    as (HURL & Hstored & Hreq).
  split; [exact HURL|].
  split; [rewrite Hstored; vm_compute in Hu; injection Hu as <-; by vm_compute|].
  split; [rewrite Hstored; vm_compute in Hu; injection Hu as <-; by vm_compute|].
  assert (∃ req transport, Get_request (Get_query s) = Ok (req, transport))
    as (req & transport & Hok) by (vm_compute; eauto).
  exists req, transport. split; [exact Hok|].
  destruct (Hreq req transport Hok) as [-> _]. by vm_compute.
Defined.

(** C7, as stated, fails on a URL that does not parse: the query [a=b]
    holds the pair of [a] and [b], the request is assembled and sent all
    the same, and the pair is neither in the value store nor in the raw
    query of the request. *)
Lemma unparsed_query_is_dropped :
  let s := fresh_request "http://h/p?a=b#%zz" in
  0 ≤ gostrings.Index (URL (r s)) "?" ∧
  url.values_of (url.ParseQuery_values "a=b") "a" = ["b"] ∧
  stored (Get_query s) "a" = [] ∧
  ∃ req transport,
    Get_request (Get_query s) = Ok (req, transport) ∧
    url.RawQuery (http.URL req) = "".
Proof.
  intros s. split; [by vm_compute|]. split; [by vm_compute|].
  split; [by vm_compute|]. vm_compute. eauto.
Qed.

(** ** [Submit]: the body *)

Lemma set_URL_same s : set_URL s (URL (r s)) = s.
Proof. by destruct s as [[] ?]. Qed.

Lemma Submit_query_frame s :
  ∃ u, (Submit_query s).2 = set_URL s u.
Proof.
  unfold Submit_query. destruct (negb _); simpl; eauto.
  exists (URL (r s)). by rewrite set_URL_same.
Qed.

Lemma Header_Add_spec key value s :
  let s' := Header_Add key value s in
  values (r s') = values (r s) ∧ URL (r s') = URL (r s) ∧
  Username (r s') = Username (r s) ∧ Password (r s') = Password (r s) ∧
  HeaderType.Get (heap s') (header (r s')) key = value.
Proof.
  unfold Header_Add, Header. destruct (header (r s)) as [l|] eqn:Hhd; simpl.
  - rewrite Hhd. repeat split; try done.
    unfold HeaderType.Get, HeaderType.store. simpl.
    rewrite lookup_insert_eq. simpl. by rewrite lookup_insert_eq.
  - repeat split; try done.
    unfold HeaderType.Get, HeaderType.store. simpl.
    rewrite lookup_insert_eq. simpl. by rewrite lookup_insert_eq.
Qed.

(** [Header] never hands out a nil map. *)
Lemma Header_not_nil s : is_Some (Header s).1.
Proof. unfold Header. destruct (header (r s)); simpl; eauto. Qed.

Lemma Header_Add_stores key value s :
  HeaderType.Add (heap (Header s).2) (Header s).1 key value
  = Some (heap (Header_Add key value s)).
Proof.
  unfold Header_Add. destruct (Header s) as [[l|] s1] eqn:HH; simpl; [done|].
  pose proof (Header_not_nil s) as [? Hl]. by rewrite HH in Hl.
Qed.

Lemma Submit_content_type_spec s :
  let s' := Submit_content_type s in
  values (r s') = values (r s) ∧ URL (r s') = URL (r s) ∧
  Username (r s') = Username (r s) ∧ Password (r s') = Password (r s) ∧
  content_type s' =
    if String.eqb (content_type s) "" then "application/x-www-form-urlencoded"
    else content_type s.
Proof.
  unfold Submit_content_type, content_type.
  destruct (header (r s)) as [l|] eqn:Hhd.
  - unfold Header_Get, Header. rewrite Hhd.
    destruct (String.eqb (HeaderType.Get (heap s) (Some l) "Content-Type") "") eqn:Hct.
    + pose proof (Header_Add_spec "Content-Type" "application/x-www-form-urlencoded" s)
        as (? & ? & ? & ? & ?). done.
    + by rewrite Hhd.
  - pose proof (Header_Add_spec "Content-Type" "application/x-www-form-urlencoded" s)
      as (? & ? & ? & ? & ?). done.
Qed.

Lemma is_json_nonempty ct : is_json ct = true → String.eqb ct "" = false.
Proof. by destruct ct. Qed.

Lemma Request_body s method username password data req :
  Request s method username password data = Ok req →
  http.ReqBody req =
    match data with
    | None => http.body_nil
    | Some rd => if io.Len rd =? 0 then http.NoBody else http.body_of rd
    end.
Proof.
  unfold Request, http.NewRequest.
  destruct (negb (http.validMethod _)); [done|].
  destruct (url.Parse (URL (r s))) as [u|e]; [|done].
  intros H.
  destruct data as [rd|]; [destruct (io.Len rd =? 0)|];
    destruct (negb (String.eqb username "") && negb (String.eqb password ""));
    by injection H as <-.
Qed.

(** What [Submit] hands to [r.Request] as [data]. *)
Lemma Submit_request_body method s req transport s' :
  Submit_request method s = (Ok (req, transport), s') →
  values (r s') = values (r s) ∧
  content_type s' =
    (if String.eqb (content_type s) "" then "application/x-www-form-urlencoded"
     else content_type s) ∧
  http.ReqBody req =
    match Submit_data s' with
    | None => http.body_nil
    | Some rd => if io.Len rd =? 0 then http.NoBody else http.body_of rd
    end.
Proof.
  unfold Submit_request.
  destruct (Submit_query_frame s) as [u Hq].
  destruct (Submit_query s) as [rawQuery s1]. simpl in Hq. subst s1.
  pose proof (Submit_content_type_spec (set_URL s u)) as (Hv & _ & _ & _ & Hct).
  set (s2 := Submit_content_type (set_URL s u)) in *.
  destruct (Request s2 method _ _ (Submit_data s2)) as [req0|e] eqn:HR; [|done].
  destruct (Transport s2 _) as [[tr req1]|e] eqn:HT; [|done].
  intros [= <- <- <-]. apply Transport_request in HT as (_ & -> & _).
  apply Request_body in HR. split; [exact Hv|]. split; [exact Hct|].
  by destruct (negb (String.eqb rawQuery "")).
Qed.

Lemma sorted_keys_spec (v : url.Values) :
  NoDup (url.sorted_keys v) ∧ ∀ k, k ∈ url.sorted_keys v ↔ is_Some (v !! k).
Proof.
  unfold url.sorted_keys. split.
  - rewrite merge_sort_Permutation. apply NoDup_fst_map_to_list.
  - intros k. rewrite merge_sort_Permutation, list_elem_of_fmap. split.
    + intros ([k' x] & -> & Hin). apply elem_of_map_to_list in Hin. by eexists.
    + intros [x Hx]. exists (k, x). split; [done|]. by apply elem_of_map_to_list.
Qed.

(** C4, as amended.  For a submission whose [Content-Type] is one of the
    three JSON types and whose value store has been made, the body of the
    request is the JSON object with one member for each key of the store,
    in sorted order, whose value is the array of all the strings stored
    for the key, in their order: nothing is collapsed, and no member
    value is a bare string. *)
Theorem Submit_json_body
    (Do : http.Client → http.Request → result string http.Response)
    (method : string) (s s' : State) (v : url.Values)
    (req : http.Request) (transport : http.Transport) :
  values (r s) = Some v →
  is_json (content_type s) = true →
  Submit_request method s = (Ok (req, transport), s') →
  http.ReqBody req =
    http.body_of (io.bytes_Buffer (json.render (json.JObject
      ((λ k, (k, json.JArray (json.JString <$> url.values_of v k)))
         <$> url.sorted_keys v)))) ∧
  NoDup (url.sorted_keys v) ∧
  (∀ k, k ∈ url.sorted_keys v ↔ is_Some (v !! k)) ∧
  Submit Do method s = (Send Do s' req transport, s').
Proof.
  intros Hv Hjson Hsub.
  pose proof (Submit_request_body method s req transport s' Hsub) as (Hv' & Hct & Hbody).
  rewrite (is_json_nonempty _ Hjson) in Hct.
  unfold Submit_data in Hbody. rewrite Hv', Hv in Hbody.
  fold (content_type s') in Hbody. rewrite Hct, Hjson in Hbody.
  split; [exact Hbody|]. split; [apply sorted_keys_spec|].
  split; [apply sorted_keys_spec|].
  unfold Submit. by rewrite Hsub.
Qed.

Lemma Submit_json_body_witness :
  let s := Header_Add "Content-Type" "application/json"
             (Values_Add "b" "2" (Values_Add "a" "1" (Values_Add "b" "1"
                (fresh_request "http://127.0.0.1/")))) in
  ∃ req transport s',
    Submit_request "POST" s = (Ok (req, transport), s') ∧
    http.ReqBody req =
      http.body_of (io.bytes_Buffer (json_text "{'a':['1'],'b':['1','2']}")).
Proof.
  intros s.
  assert (∃ v, values (r s) = Some v) as [v Hv] by (vm_compute; eauto).
  assert (∃ req transport s', Submit_request "POST" s = (Ok (req, transport), s'))
    as (req & transport & s' & Hsub) by (vm_compute; eauto).
  exists req, transport, s'. split; [exact Hsub|].
  destruct (Submit_json_body (answers 200 "200 OK" "") "POST" s s' v req transport
              Hv eq_refl Hsub) as (-> & _).
  vm_compute in Hv. injection Hv as <-. by vm_compute.
Defined.

(** C4, as stated, fails: after [JSON] has read the one pair of [key]
    and [value], the body that [Put] sends gives [key] an array, and is
    not the object of string values. *)
Lemma json_body_holds_arrays :
  let s := (JSON (json_text "{'key':'value'}")
                 (fresh_request "http://127.0.0.1/?test=true")).2 in
  stored s "key" = ["value"] ∧
  content_type s = "application/json" ∧
  (∃ req transport s',
     Submit_request "PUT" s = (Ok (req, transport), s') ∧
     http.ReqBody req =
       http.body_of (io.bytes_Buffer (json_text "{'key':['value']}"))) ∧
  json.tree_of_values (ValueStore s) =
    json.JObject [("key", json.JArray [json.JString "value"])] ∧
  json.render (json.JObject [("key", json.JString "value")]) =
    json_text "{'key':'value'}" ∧
  json_text "{'key':['value']}" ≠ json_text "{'key':'value'}".
Proof.
  intros s. split; [by vm_compute|]. split; [by vm_compute|].
  split; [vm_compute; eauto|]. split; [by vm_compute|]. split; [by vm_compute|].
  by vm_compute.
Qed.

(** C6, as amended.  A submission whose value store has never been made
    sends no body.  When the store has been made and holds nothing, the
    body is empty under every [Content-Type] but the three JSON types,
    and under these it is the two bytes of the empty object. *)
Theorem Submit_empty_store
    (Do : http.Client → http.Request → result string http.Response)
    (method : string) (s s' : State)
    (req : http.Request) (transport : http.Transport) :
  Submit_request method s = (Ok (req, transport), s') →
  (values (r s) = None → http.ReqBody req = http.body_nil) ∧
  (values (r s) = Some ∅ → is_json (content_type s) = false →
   http.ReqBody req = http.NoBody) ∧
  (values (r s) = Some ∅ → is_json (content_type s) = true →
   http.ReqBody req = http.body_of (io.bytes_Buffer "{}")) ∧
  Submit Do method s = (Send Do s' req transport, s').
Proof.
  intros Hsub.
  pose proof (Submit_request_body method s req transport s' Hsub) as (Hv' & Hct & Hbody).
  unfold Submit_data in Hbody. rewrite Hv' in Hbody. fold (content_type s') in Hbody.
  split; [|split; [|split]].
  - intros Hv. by rewrite Hv in Hbody.
  - intros Hv Hjson. rewrite Hv in Hbody.
    destruct (String.eqb (content_type s) ""); rewrite Hct in Hbody.
    + exact Hbody.
    + by rewrite Hjson in Hbody.
  - intros Hv Hjson. rewrite Hv in Hbody.
    rewrite (is_json_nonempty _ Hjson) in Hct. by rewrite Hct, Hjson in Hbody.
  - unfold Submit. by rewrite Hsub.
Qed.

Lemma Submit_empty_store_witness :
  let s := fresh_request "http://127.0.0.1/?test=true" in
  ∃ req transport s',
    Submit_request "DELETE" s = (Ok (req, transport), s') ∧
    http.ReqBody req = http.body_nil.
Proof.
  intros s.
  assert (∃ req transport s', Submit_request "DELETE" s = (Ok (req, transport), s'))
    as (req & transport & s' & Hsub) by (vm_compute; eauto).
  exists req, transport, s'. split; [exact Hsub|].
  by apply (Submit_empty_store (answers 200 "200 OK" "SUCCESS") "DELETE" s s'
              req transport Hsub).
Defined.

(** C6, as stated, fails: the value store has been made by [Values()]
    and holds no pair, the [Content-Type] is [application/json], and the
    request carries the body of two bytes that reads as the empty object. *)
Lemma empty_store_sends_braces :
  let s := Header_Add "Content-Type" "application/json"
             (Values (fresh_request "http://127.0.0.1/")).2 in
  values (r s) = Some ∅ ∧
  ∃ req transport s',
    Submit_request "POST" s = (Ok (req, transport), s') ∧
    http.ReqBody req = http.body_of (io.bytes_Buffer "{}") ∧
    http.ContentLength req = 2.
Proof.
  intros s. split; [by vm_compute|]. vm_compute. eauto 10.
Qed.

(** ** [JSON] *)

Lemma string_members_read st data key val m :
  string_members st data = true →
  ∃ m', json.read_map st key val m data = Ok m'.
Proof.
  revert st key val m. induction data as [|c rest IH]; intros st key val m H; [done|].
  destruct st; simpl in H |- *;
    repeat match type of H with
           | (if ?b then _ else _) = true => destruct b
           end; try done; repeat case_match; eauto.
Qed.

Lemma flat_string_object_Unmarshal data :
  flat_string_object data = true → ∃ m, json.Unmarshal data = Ok m.
Proof.
  unfold flat_string_object, json.Unmarshal. intros [Hvalid Hflat]%andb_true_iff.
  rewrite Hvalid. by apply string_members_read.
Qed.

Lemma Header_Add_stored key value s k :
  stored (Header_Add key value s) k = stored s k.
Proof.
  pose proof (Header_Add_spec key value s) as (Hv & _). simpl in Hv.
  unfold stored, ValueStore. by rewrite Hv.
Qed.

Lemma import_spec (m : gmap string string) s :
  let s' := map_fold (λ k v s, Values_Add k v s) s m in
  only_values_differ s s' ∧
  ∀ k, stored s' k = stored s k ++ option_list (m !! k).
Proof.
  simpl.
  apply (map_fold_weak_ind (λ s' (m : gmap string string),
           only_values_differ s s' ∧
           ∀ k, stored s' k = stored s k ++ option_list (m !! k))).
  - split; [apply only_values_differ_refl|].
    intros k. by rewrite lookup_empty, app_nil_r.
  - intros i x m' s' Hi [Hframe Hstored]. split.
    + eapply only_values_differ_trans; [done | apply Values_Add_only_values].
    + intros k. rewrite stored_Values_Add. case_decide as Hk.
      * subst. rewrite Hstored, Hi, lookup_insert_eq. simpl. by rewrite app_nil_r.
      * rewrite lookup_insert_ne by done. apply Hstored.
Qed.

Lemma only_values_differ_fields s s' :
  only_values_differ s s' →
  URL (r s') = URL (r s) ∧ header (r s') = header (r s) ∧ heap s' = heap s.
Proof. unfold only_values_differ. intros ->. by destruct s as [[] ?]. Qed.

Lemma Header_Add_URL key value s : URL (r (Header_Add key value s)) = URL (r s).
Proof. by pose proof (Header_Add_spec key value s) as (_ & ? & _). Qed.

(** C8, as stated, fails: [null] is valid JSON and not an object, and an
    object with a null member is not an object of strings; [JSON]
    accepts both, and reads the null member as the empty string. *)
Lemma JSON_accepts_null :
  let s := fresh_request "http://127.0.0.1/" in
  flat_string_object "null" = false ∧
  (JSON "null" s).1 = None ∧
  content_type (JSON "null" s).2 = "application/json" ∧
  flat_string_object (json_text "{'key':null}") = false ∧
  (JSON (json_text "{'key':null}") s).1 = None ∧
  stored (JSON (json_text "{'key':null}") s).2 "key" = [""].
Proof. intros s. repeat split; by vm_compute. Qed.

(** ** [HeaderType.Clear] *)

(** [Clear] makes a table that nothing refers to, and leaves every table
    that was there as it was. *)
Lemma Clear_changes_nothing (h : Heap) (header : HeaderType.t) (l : loc) :
  is_Some (h !! l) → HeaderType.Clear h header !! l = h !! l.
Proof.
  intros Hl. unfold HeaderType.Clear, HeaderType.make.
  apply lookup_insert_ne. intros Heq.
  apply (is_fresh (dom h)). rewrite Heq. by apply elem_of_dom.
Qed.

Lemma Clear_keeps_entries (h : Heap) (l : loc) (key : string) :
  is_Some (h !! l) →
  HeaderType.Get (HeaderType.Clear h (Some l)) (Some l) key
  = HeaderType.Get h (Some l) key.
Proof.
  intros Hl. unfold HeaderType.Get, HeaderType.entries.
  by rewrite Clear_changes_nothing.
Qed.

(** C3 fails on the code.  The header added in the package's own test is
    still there after [Clear()]: [Get] returns its value, not the empty
    string. *)
Theorem Clear_leaves_header :
  let s := Header_Add "User-Agent" "TEST - BROWSER"
             (fresh_request "https://127.0.0.1/?test=true") in
  (Header_Get "User-Agent" s).1 = "TEST - BROWSER" ∧
  (Header_Get "User-Agent" (Header_Clear s)).1 = "TEST - BROWSER" ∧
  HeaderType.Get (HeaderType.Clear (heap s) (header (r s))) (header (r s)) "User-Agent"
  = "TEST - BROWSER".
Proof. intros s. repeat split; by vm_compute. Qed.

(** ** [Transport]: the proxy credentials *)

Lemma Transport_without_credentials s req transport req' :
  Proxy.Username (Proxy (r s)) = "" ∨ Proxy.Password (Proxy (r s)) = "" →
  Transport s req = Ok (transport, req') →
  req' = req.
Proof.
  intros Hcred. unfold Transport.
  assert (negb (String.eqb (Proxy.Username (Proxy (r s))) "")
          && negb (String.eqb (Proxy.Password (Proxy (r s))) "") = false) as ->.
  { destruct Hcred as [-> | ->]; simpl; [done | by rewrite andb_false_r]. }
  destruct (negb (String.eqb (Proxy.URL (Proxy (r s))) "")).
  - destruct (url.Parse (Proxy.URL (Proxy (r s)))) as [proxy|e]; [|done].
    destruct ((gostrings.Index (URL (r s)) "https://" =? 0) && Insecure (r s));
      by intros [= <- <-].
  - destruct ((gostrings.Index (URL (r s)) "https://" =? 0) && Insecure (r s));
      by intros [= <- <-].
Qed.

Lemma Transport_with_credentials s req transport req' :
  Proxy.URL (Proxy (r s)) ≠ "" →
  Proxy.Username (Proxy (r s)) ≠ "" →
  Proxy.Password (Proxy (r s)) ≠ "" →
  Transport s req = Ok (transport, req') →
  http.ReqHeader req' =
    http.Header_Add (http.ReqHeader req) "Proxy-Ahthorization"
      ("Basic " +:+ base64.EncodeToString
         (Proxy.Username (Proxy (r s)) +:+ ":" +:+ Proxy.Password (Proxy (r s)))) ∧
  http.Header_Values (http.ReqHeader req') "Proxy-Authorization"
  = http.Header_Values (http.ReqHeader req) "Proxy-Authorization".
Proof.
  intros HURL%String.eqb_neq Huser%String.eqb_neq Hpass%String.eqb_neq.
  unfold Transport. rewrite HURL, Huser, Hpass. simpl.
  destruct (url.Parse (Proxy.URL (Proxy (r s)))) as [proxy|e]; [|done].
  intros H.
  assert (http.ReqHeader req' =
    http.Header_Add (http.ReqHeader req) "Proxy-Ahthorization"
      ("Basic " +:+ base64.EncodeToString
         (Proxy.Username (Proxy (r s)) +:+ ":" +:+ Proxy.Password (Proxy (r s))))) as ->.
  { destruct ((gostrings.Index (URL (r s)) "https://" =? 0) && Insecure (r s));
      by injection H as <- <-. }
  split; [done|].
  unfold http.Header_Values, http.Header_Add.
  by rewrite lookup_insert_ne.
Qed.

(** C5 fails on the code.  With a proxy URL and both proxy credentials
    set, the header that [Transport] attaches is named
    [Proxy-Ahthorization]; the request has no [Proxy-Authorization]
    header. *)
Theorem proxy_header_is_misspelt :
  let s := mkState (mk "http://example.com/" "" "" 0 false
                       (Proxy.mk "http://proxy.server:8080" "user" "pass")
                       None None) ∅ in
  ∃ req transport req',
    Request s "GET" "" "" None = Ok req ∧
    Transport s req = Ok (transport, req') ∧
    http.Header_Values (http.ReqHeader req') "Proxy-Ahthorization"
    = ["Basic " +:+ base64.EncodeToString "user:pass"] ∧
    http.Header_Values (http.ReqHeader req') "Proxy-Authorization" = [].
Proof. intros s. vm_compute. eauto 10. Qed.

(** * Further properties of request.go *)

(** ** [HeaderType]: [Add], [Get], [Del] *)

Lemma entries_store h l key value :
  HeaderType.entries (HeaderType.store h l key value) (Some l)
  = <[key := value]> (HeaderType.entries h (Some l)).
Proof. unfold HeaderType.store. simpl. by rewrite lookup_insert_eq. Qed.

(** X1.  [Add] on a map that is not nil stores the value: [Get] of the
    same key returns it, whatever the key held before, every other key
    reads as before, and no other map changes.  [Add] on a nil map
    panics, while [Get] on a nil map returns the empty string. *)
Theorem HeaderType_Add_then_Get (h : Heap) (l : loc) (key value : string) :
  ∃ h',
    HeaderType.Add h (Some l) key value = Some h' ∧
    HeaderType.Get h' (Some l) key = value ∧
    (∀ key', key' ≠ key →
       HeaderType.Get h' (Some l) key' = HeaderType.Get h (Some l) key') ∧
    (∀ l', l' ≠ l → h' !! l' = h !! l') ∧
    HeaderType.Add h None key value = None ∧
    HeaderType.Get h None key = "".
Proof.
  exists (HeaderType.store h l key value). split; [done|].
  unfold HeaderType.Get. rewrite entries_store. split; [by rewrite lookup_insert_eq|].
  split; [intros key' Hne; by rewrite lookup_insert_ne|].
  split; [|done].
  intros l' Hne. unfold HeaderType.store. by rewrite lookup_insert_ne.
Qed.

Lemma entries_Del h l key :
  HeaderType.entries (HeaderType.Del h (Some l) key) (Some l)
  = delete key (HeaderType.entries h (Some l)).
Proof.
  unfold HeaderType.Del.
  destruct (HeaderType.entries h (Some l) !! key) as [v|] eqn:Hk.
  - simpl. by rewrite lookup_insert_eq.
  - symmetry. by apply delete_id.
Qed.

(** X2.  [Del] removes the key: [Get] then returns the empty string;
    every other key reads as before and no other map changes.  On a key
    that is absent, and on a nil map, [Del] changes nothing at all. *)
Theorem HeaderType_Del_removes (h : Heap) (l : loc) (key : string) :
  let h' := HeaderType.Del h (Some l) key in
  HeaderType.Get h' (Some l) key = "" ∧
  (∀ key', key' ≠ key →
     HeaderType.Get h' (Some l) key' = HeaderType.Get h (Some l) key') ∧
  (∀ l', l' ≠ l → h' !! l' = h !! l') ∧
  (HeaderType.entries h (Some l) !! key = None → h' = h) ∧
  HeaderType.Del h None key = h.
Proof.
  intros h'. subst h'. unfold HeaderType.Get. rewrite entries_Del.
  split; [by rewrite lookup_delete_eq|].
  split; [intros key' Hne; by rewrite lookup_delete_ne|].
  split; [|split; [|done]].
  - intros l' Hne. unfold HeaderType.Del.
    destruct (HeaderType.entries h (Some l) !! key); [|done].
    by rewrite lookup_insert_ne.
  - intros Hk. unfold HeaderType.Del. by rewrite Hk.
Qed.

(** ** [Header] and [Values]: made on first use *)

(** X3.  [Header()] never returns nil.  The map it returns is the one
    kept in [r.header], so a second call returns the same map and changes
    nothing.  When it has to make the map, the map is empty and is put at
    an address that was not in use, so every map that existed stays as it
    was; when [r.header] is set already, the call changes nothing. *)
Theorem Header_is_made_once (s : State) :
  let hd := (Header s).1 in
  let s' := (Header s).2 in
  is_Some hd ∧
  header (r s') = hd ∧
  Header s' = (hd, s') ∧
  (header (r s) = None →
   HeaderType.entries (heap s') hd = ∅ ∧
   ∀ l, is_Some (heap s !! l) → heap s' !! l = heap s !! l) ∧
  (is_Some (header (r s)) → s' = s) ∧
  values (r s') = values (r s) ∧ URL (r s') = URL (r s).
Proof.
  unfold Header. destruct (header (r s)) as [l|] eqn:Hhd; simpl.
  - rewrite Hhd. repeat split; eauto; done.
  - split; [eauto|]. split; [done|]. split; [done|].
    split; [|split; [by intros [? ?]|done]].
    intros _. unfold HeaderType.entries. rewrite lookup_insert_eq.
    split; [done|]. intros l Hl. apply lookup_insert_ne. intros Heq.
    apply (is_fresh (dom (heap s))). rewrite Heq. by apply elem_of_dom.
Qed.

(** X4.  [Values()] returns the map that [r.values] points to, made
    empty on first use, and a second call changes nothing.
    [r.Values().Add(key, value)] puts the value behind the values that
    the key already has, and touches no other key and nothing else of
    the request: values given twice are kept twice. *)
Theorem Values_Add_appends (s : State) (key value : string) :
  let s' := Values_Add key value s in
  (Values s).1 = ValueStore s ∧
  values (r (Values s).2) = Some (ValueStore s) ∧
  Values (Values s).2 = Values s ∧
  stored s' key = stored s key ++ [value] ∧
  (∀ key', key' ≠ key → stored s' key' = stored s key') ∧
  only_values_differ s s'.
Proof.
  simpl. split; [|split; [|split]].
  - unfold Values, ValueStore. by destruct (values (r s)).
  - unfold Values, ValueStore. by destruct (values (r s)) eqn:Hv.
  - unfold Values. destruct (values (r s)) eqn:Hv; simpl; by rewrite ?Hv.
  - rewrite stored_Values_Add. rewrite decide_True by done.
    split; [done|]. split; [|apply Values_Add_only_values].
    intros key' Hne. rewrite stored_Values_Add. by rewrite decide_False.
Qed.

(** ** [Request]: the headers and the credentials *)

(** The loop of [Request] over the header store, started on the empty
    header of a new request. *)
Lemma copied_headers_spec (m : gmap string string) :
  let hd := map_fold (λ k v hd, http.Header_Set hd k v) ∅ m in
  (∀ c vs, hd !! c = Some vs →
     ∃ k v, m !! k = Some v ∧ http.CanonicalMIMEHeaderKey k = c ∧ vs = [v]) ∧
  (∀ c, (∀ k, is_Some (m !! k) → http.CanonicalMIMEHeaderKey k ≠ c) →
     hd !! c = None) ∧
  (∀ k v, m !! k = Some v →
     (∀ k', k' ≠ k → is_Some (m !! k') →
        http.CanonicalMIMEHeaderKey k' ≠ http.CanonicalMIMEHeaderKey k) →
     hd !! http.CanonicalMIMEHeaderKey k = Some [v]).
Proof.
  simpl.
  apply (map_fold_weak_ind (λ hd (m : gmap string string),
    (∀ c vs, hd !! c = Some vs →
       ∃ k v, m !! k = Some v ∧ http.CanonicalMIMEHeaderKey k = c ∧ vs = [v]) ∧
    (∀ c, (∀ k, is_Some (m !! k) → http.CanonicalMIMEHeaderKey k ≠ c) →
       hd !! c = None) ∧
    (∀ k v, m !! k = Some v →
       (∀ k', k' ≠ k → is_Some (m !! k') →
          http.CanonicalMIMEHeaderKey k' ≠ http.CanonicalMIMEHeaderKey k) →
       hd !! http.CanonicalMIMEHeaderKey k = Some [v]))).
  - split; [|split].
    + intros c vs H. by rewrite lookup_empty in H.
    + intros c _. apply lookup_empty.
    + intros k v H. by rewrite lookup_empty in H.
  - intros i x m' hd Hi (Hfrom & Habsent & Hcopied). unfold http.Header_Set.
    split; [|split].
    + intros c vs H.
      destruct (decide (http.CanonicalMIMEHeaderKey i = c)) as [<-|Hne].
      * rewrite lookup_insert_eq in H. injection H as <-.
        exists i, x. by rewrite lookup_insert_eq.
      * rewrite lookup_insert_ne in H by done.
        destruct (Hfrom c vs H) as (k & v & Hk & Hc & Hvs).
        exists k, v. split; [|done].
        rewrite lookup_insert_ne; [done|]. intros ->. by rewrite Hi in Hk.
    + intros c Hc. rewrite lookup_insert_ne.
      * apply Habsent. intros k Hk. apply Hc.
        destruct (decide (i = k)) as [->|Hne].
        -- destruct Hk as [? Hk]. by rewrite Hi in Hk.
        -- by rewrite lookup_insert_ne.
      * apply Hc. by rewrite lookup_insert_eq.
    + intros k v Hk Huniq.
      destruct (decide (i = k)) as [->|Hne].
      * rewrite lookup_insert_eq in Hk. injection Hk as ->.
        by rewrite lookup_insert_eq.
      * rewrite lookup_insert_ne in Hk by done.
        rewrite lookup_insert_ne.
        -- apply (Hcopied k v Hk). intros k' Hk' Hin. apply Huniq; [done|].
           destruct (decide (i = k')) as [->|Hne'].
           ++ destruct Hin as [? Hin]. by rewrite Hi in Hin.
           ++ by rewrite lookup_insert_ne.
        -- apply Huniq; [done|]. by rewrite lookup_insert_eq.
Qed.

Lemma NewRequest_fields method rawurl body req :
  http.NewRequest method rawurl body = Ok req →
  http.ReqHeader req = ∅ ∧
  http.Method req = (if String.eqb method "" then "GET" else method) ∧
  http.validMethod (http.Method req) = true.
Proof.
  unfold http.NewRequest.
  destruct (http.validMethod _) eqn:Hvalid; [|done]. simpl.
  destruct (url.Parse rawurl) as [u|e]; [|done].
  destruct body as [rd|]; [destruct (io.Len rd =? 0)|];
    intros [= <-]; by simpl.
Qed.

(** The request that [Request] builds when no credentials are given. *)
Lemma Request_without_credentials s method data req :
  Request s method "" "" data = Ok req →
  http.ReqHeader req =
    map_fold (λ k v hd, http.Header_Set hd k v) ∅
             (HeaderType.entries (heap s) (header (r s))) ∧
  http.Method req = (if String.eqb method "" then "GET" else method).
Proof.
  unfold Request.
  destruct (http.NewRequest method (URL (r s)) data) as [req0|e] eqn:HN; [|done].
  apply NewRequest_fields in HN as (Hhd & Hm & _). simpl.
  intros [= <-]. simpl. by rewrite Hhd.
Qed.

(** X5.  [Request] copies the header store onto the request.  Every
    header of the request has one value, the value of a key of the store
    with that canonical name, and a name that is the canonical form of no
    key of the store is absent.  A key whose canonical name no other key
    of the store shares arrives with its value. *)
Theorem Request_copies_headers
    (s : State) (method : string) (data : option io.Reader) (req : http.Request) :
  Request s method "" "" data = Ok req →
  let store := HeaderType.entries (heap s) (header (r s)) in
  (∀ c vs, http.ReqHeader req !! c = Some vs →
     ∃ k v, store !! k = Some v ∧ http.CanonicalMIMEHeaderKey k = c ∧ vs = [v]) ∧
  (∀ c, (∀ k, is_Some (store !! k) → http.CanonicalMIMEHeaderKey k ≠ c) →
     http.ReqHeader req !! c = None) ∧
  (∀ k v, store !! k = Some v →
     (∀ k', k' ≠ k → is_Some (store !! k') →
        http.CanonicalMIMEHeaderKey k' ≠ http.CanonicalMIMEHeaderKey k) →
     http.Header_Values (http.ReqHeader req) k = [v]).
Proof.
  intros HR store. subst store. apply Request_without_credentials in HR as [-> _].
  pose proof (copied_headers_spec (HeaderType.entries (heap s) (header (r s))))
    as (Hfrom & Habsent & Hcopied).
  simpl in Hfrom, Habsent, Hcopied.
  split; [exact Hfrom|]. split; [exact Habsent|].
  intros k v Hk Huniq. unfold http.Header_Values. by rewrite (Hcopied k v Hk Huniq).
Qed.

Lemma Request_copies_headers_witness :
  let s := Header_Add "content-type" "text/json"
             (Header_Add "User-Agent" "TEST - BROWSER"
                (fresh_request "http://127.0.0.1/")) in
  ∃ req,
    Request s "GET" "" "" None = Ok req ∧
    http.Header_Values (http.ReqHeader req) "Content-Type" = ["text/json"] ∧
    http.ReqHeader req !! "Accept" = None.
Proof.
  intros s.
  assert (∃ req, Request s "GET" "" "" None = Ok req) as [req HR]
    by (vm_compute; eauto).
  exists req. split; [exact HR|].
  destruct (Request_copies_headers s "GET" None req HR) as (_ & Habsent & Hcopied).
  assert (HeaderType.entries (heap s) (header (r s))
          = <["content-type" := "text/json"]> {["User-Agent" := "TEST - BROWSER"]})
    as Hstore by (clear; vm_compute; reflexivity).
  rewrite Hstore in Habsent, Hcopied. clear Hstore HR.
  split.
  - change (http.Header_Values (http.ReqHeader req) "Content-Type")
      with (http.Header_Values (http.ReqHeader req) "content-type").
    apply Hcopied; [by rewrite lookup_insert_eq|].
    clear. intros k' Hne [v Hk'].
    rewrite lookup_insert_ne in Hk' by done.
    apply lookup_singleton_Some in Hk' as [<- _]. clear. vm_compute. discriminate.
  - apply Habsent. clear. intros k [v Hk].
    destruct (decide ("content-type" = k)) as [<-|Hne]; [clear; vm_compute; discriminate|].
    rewrite lookup_insert_ne in Hk by done.
    apply lookup_singleton_Some in Hk as [<- _]. clear. vm_compute. discriminate.
Defined.

Lemma Request_with_credentials s method username password data :
  Request s method username password data =
    match Request s method "" "" data with
    | Ok req =>
        if negb (String.eqb username "") && negb (String.eqb password "")
        then Ok (http.SetBasicAuth req username password)
        else Ok req
    | Fail err => Fail err
    end.
Proof.
  unfold Request. destruct (http.NewRequest method (URL (r s)) data); simpl; [|done].
  by destruct (negb (String.eqb username "") && negb (String.eqb password "")).
Qed.

(** X6.  [Request] sets Basic authentication only when the user name and
    the password are both given.  With one of them empty the request is
    the one built without credentials: nothing of the other credential
    reaches it.  With both, the request has the one [Authorization]
    header that encodes them, in place of any the header store had, and
    every other header is as without credentials. *)
Theorem Request_basic_auth
    (s : State) (method username password : string) (data : option io.Reader) :
  (username = "" ∨ password = "" →
   Request s method username password data = Request s method "" "" data) ∧
  (username ≠ "" → password ≠ "" →
   ∀ req0, Request s method "" "" data = Ok req0 →
     ∃ req,
       Request s method username password data = Ok req ∧
       http.Header_Values (http.ReqHeader req) "Authorization"
       = ["Basic " +:+ base64.EncodeToString (username +:+ ":" +:+ password)] ∧
       (∀ c, c ≠ "Authorization" →
          http.ReqHeader req !! c = http.ReqHeader req0 !! c) ∧
       http.URL req = http.URL req0 ∧ http.ReqBody req = http.ReqBody req0 ∧
       http.Method req = http.Method req0).
Proof.
  rewrite Request_with_credentials. split.
  - intros Hempty.
    assert (negb (String.eqb username "") && negb (String.eqb password "") = false) as ->.
    { destruct Hempty as [-> | ->]; simpl; [done | by rewrite andb_false_r]. }
    by destruct (Request s method "" "" data).
  - intros Hu%String.eqb_neq Hp%String.eqb_neq req0 ->. rewrite Hu, Hp. simpl.
    eexists. split; [done|]. unfold http.SetBasicAuth, http.Header_Set. simpl.
    split; [|split; [|done]].
    + unfold http.Header_Values.
      change (http.CanonicalMIMEHeaderKey "Authorization") with "Authorization".
      by rewrite lookup_insert_eq.
    + intros c Hc.
      change (http.CanonicalMIMEHeaderKey "Authorization") with "Authorization".
      by rewrite lookup_insert_ne.
Qed.

Lemma Request_basic_auth_witness :
  let s := fresh_request "https://127.0.0.1/" in
  Request s "PATCH" "username" "" None = Request s "PATCH" "" "" None ∧
  ∃ req,
    Request s "PATCH" "username" "password" None = Ok req ∧
    http.Header_Values (http.ReqHeader req) "Authorization"
    = ["Basic dXNlcm5hbWU6cGFzc3dvcmQ="].
Proof.
  intros s.
  destruct (Request_basic_auth s "PATCH" "username" "" None) as [Hnone _].
  destruct (Request_basic_auth s "PATCH" "username" "password" None) as [_ Hboth].
  split; [apply Hnone; by right|].
  assert (∃ req0, Request s "PATCH" "" "" None = Ok req0) as [req0 H0]
    by (vm_compute; eauto).
  destruct (Hboth ltac:(done) ltac:(done) req0 H0) as (req & HR & Hauth & _).
  exists req. split; [exact HR|]. exact Hauth.
Defined.

(** ** The verbs: the method of the request *)

Lemma Request_method s method username password data req :
  Request s method username password data = Ok req →
  http.Method req = (if String.eqb method "" then "GET" else method) ∧
  http.validMethod (http.Method req) = true.
Proof.
  unfold Request.
  destruct (http.NewRequest method (URL (r s)) data) as [req0|e] eqn:HN; [|done].
  apply NewRequest_fields in HN as (_ & Hm & Hvalid).
  destruct (negb (String.eqb username "") && negb (String.eqb password ""));
    by intros [= <-].
Qed.

Lemma Submit_request_method method s req transport s' :
  Submit_request method s = (Ok (req, transport), s') →
  http.Method req = (if String.eqb method "" then "GET" else method) ∧
  http.validMethod (http.Method req) = true.
Proof.
  unfold Submit_request.
  destruct (Submit_query s) as [rawQuery s1].
  set (s2 := Submit_content_type s1).
  destruct (Request s2 method _ _ (Submit_data s2)) as [req0|e] eqn:HR; [|done].
  apply Request_method in HR.
  destruct (Transport s2 _) as [[tr req1]|e] eqn:HT; [|done].
  intros [= <- <- <-]. apply Transport_request in HT as (_ & _ & ->).
  by destruct (negb (String.eqb rawQuery "")).
Qed.

Lemma Get_request_method s req transport :
  Get_request s = Ok (req, transport) → http.Method req = "GET".
Proof.
  unfold Get_request.
  destruct (Request s "GET" _ _ None) as [req0|e] eqn:HR; [|done].
  apply Request_method in HR as [HR _].
  destruct (Transport s _) as [[tr req1]|e] eqn:HT; [|done].
  intros [= <- <-]. apply Transport_request in HT as (_ & _ & ->).
  by destruct (values (r s)).
Qed.

Lemma Submit_request_invalid_method method s :
  http.validMethod (if String.eqb method "" then "GET" else method) = false →
  (Submit_request method s).1
  = Fail (request_error (http.invalid_method
            (if String.eqb method "" then "GET" else method))).
Proof.
  intros Hinvalid. unfold Submit_request.
  destruct (Submit_query s) as [rawQuery s1].
  set (s2 := Submit_content_type s1).
  unfold Request, http.NewRequest. by rewrite Hinvalid.
Qed.

(** X7.  The request that a verb assembles has the verb's method:
    [GET] for [Get], and for [Submit] the method given, with [GET] in
    place of the empty string.  The method of an assembled request is
    always a token; [Submit] with a method that is not one returns the
    error of [http.NewRequest] and asks nothing of the network. *)
Theorem verb_method
    (Do : http.Client → http.Request → result string http.Response)
    (method : string) (s : State) :
  let method' := if String.eqb method "" then "GET" else method in
  (∀ req transport, Get_request (Get_query s) = Ok (req, transport) →
     http.Method req = "GET") ∧
  (∀ req transport s', Submit_request method s = (Ok (req, transport), s') →
     http.Method req = method' ∧ http.validMethod method' = true) ∧
  (http.validMethod method' = false →
   (Submit Do method s).1
   = (None, None, Some (request_error (http.invalid_method method')))).
Proof.
  simpl. split; [intros req transport; apply Get_request_method|]. split.
  - intros req transport s' H.
    apply Submit_request_method in H as [Hm Hv]. by rewrite <- Hm.
  - intros Hinvalid. rewrite Submit_unfold.
    by rewrite (Submit_request_invalid_method method s Hinvalid).
Qed.

Lemma verb_method_witness :
  let Do := answers 200 "200 OK" "SUCCESS" in
  let s := fresh_request "http://127.0.0.1/?test=true" in
  (Submit Do "CUSTOM METHOD" s).1
  = (None, None, Some (request_error (http.invalid_method "CUSTOM METHOD"))) ∧
  ∃ req transport s',
    Submit_request "" s = (Ok (req, transport), s') ∧ http.Method req = "GET".
Proof.
  intros Do s.
  destruct (verb_method Do "CUSTOM METHOD" s) as (_ & _ & Hinvalid).
  destruct (verb_method Do "" s) as (_ & Hmethod & _).
  split; [by apply Hinvalid|].
  assert (∃ req transport s', Submit_request "" s = (Ok (req, transport), s'))
    as (req & transport & s' & Hsub) by (vm_compute; eauto).
  exists req, transport, s'. split; [exact Hsub|].
  by apply (Hmethod req transport s' Hsub).
Defined.

(** ** [Transport]: TLS and the proxy *)

Lemma index_from_range sep s i :
  gostrings.index_from i sep s = -1 ∨ i ≤ gostrings.index_from i sep s.
Proof.
  revert i. induction s as [|d s IH]; intros i.
  - unfold gostrings.index_from. destruct (String.prefix sep ""); [right; lia | by left].
  - change (gostrings.index_from i sep (String d s))
      with (if String.prefix sep (String d s) then i
            else gostrings.index_from (i + 1) sep s).
    destruct (String.prefix sep (String d s)); [right; lia|].
    destruct (IH (i + 1)) as [->|H]; [by left | right; lia].
Qed.

Lemma Index_zero s sep :
  (gostrings.Index s sep =? 0) = gostrings.HasPrefix s sep.
Proof.
  unfold gostrings.Index, gostrings.HasPrefix.
  destruct s as [|d s].
  - unfold gostrings.index_from. by destruct (String.prefix sep "").
  - change (gostrings.index_from 0 sep (String d s))
      with (if String.prefix sep (String d s) then 0
            else gostrings.index_from (0 + 1) sep s).
    destruct (String.prefix sep (String d s)); [done|].
    destruct (index_from_range sep s (0 + 1)) as [->|H]; [done|].
    apply Z.eqb_neq. lia.
Qed.

(** X8.  The transport that [Transport] returns skips the verification
    of certificates exactly when the URL starts with [https://] and
    [Insecure] is set; in every other case it carries no TLS
    configuration at all.  It goes through a proxy exactly when the proxy
    URL is not empty, and then through the URL that the proxy URL parses
    to. *)
Theorem Transport_settings
    (s : State) (req req' : http.Request) (transport : http.Transport) :
  Transport s req = Ok (transport, req') →
  http.TLSClientConfig transport =
    (if gostrings.HasPrefix (URL (r s)) "https://" && Insecure (r s)
     then Some (tls.mkConfig true) else None) ∧
  (Proxy.URL (Proxy (r s)) = "" → http.TransportProxy transport = None) ∧
  (Proxy.URL (Proxy (r s)) ≠ "" →
   ∃ proxy, url.Parse (Proxy.URL (Proxy (r s))) = Ok proxy ∧
            http.TransportProxy transport = Some proxy).
Proof.
  unfold Transport. rewrite Index_zero.
  destruct (String.eqb_spec (Proxy.URL (Proxy (r s))) "") as [Hempty|Hproxy]; simpl.
  - destruct (gostrings.HasPrefix (URL (r s)) "https://") eqn:Hhttps;
      destruct (Insecure (r s)) eqn:Hins; simpl; intros [= <- <-]; simpl;
      repeat split; try done.
  - destruct (url.Parse (Proxy.URL (Proxy (r s)))) as [proxy|e]; [|done].
    intros H.
    assert (http.TLSClientConfig transport =
              (if gostrings.HasPrefix (URL (r s)) "https://" && Insecure (r s)
               then Some (tls.mkConfig true) else None)
            ∧ http.TransportProxy transport = Some proxy) as [-> Hp].
    { destruct (negb (String.eqb (Proxy.Username _) "") && negb (String.eqb (Proxy.Password _) ""));
        destruct (gostrings.HasPrefix (URL (r s)) "https://") eqn:Hhttps;
        destruct (Insecure (r s)) eqn:Hins; simpl in H; by injection H as <- <-. }
    split; [done|]. split; [done|]. intros _. by exists proxy.
Qed.

Lemma Transport_settings_witness :
  let s := test_request "https://127.0.0.1:8443/" in
  ∃ req transport req',
    Request s "GET" "" "" None = Ok req ∧
    Transport s req = Ok (transport, req') ∧
    http.TLSClientConfig transport = Some (tls.mkConfig true) ∧
    http.TransportProxy transport = None.
Proof.
  intros s.
  assert (∃ req, Request s "GET" "" "" None = Ok req) as [req HR]
    by (vm_compute; eauto).
  assert (∃ transport req', Transport s req = Ok (transport, req'))
    as (transport & req' & HT).
  { vm_compute in HR. injection HR as <-. vm_compute. eauto. }
  exists req, transport, req'. split; [exact HR|]. split; [exact HT|].
  destruct (Transport_settings s req req' transport HT) as (Htls & Hnone & _).
  split; [exact Htls | by apply Hnone].
Defined.

(** ** What the verbs leave of the configuration *)

Lemma Header_Add_config key value s :
  let s' := Header_Add key value s in
  Username (r s') = Username (r s) ∧ Password (r s') = Password (r s) ∧
  Timeout (r s') = Timeout (r s) ∧ Insecure (r s') = Insecure (r s) ∧
  Proxy (r s') = Proxy (r s) ∧ URL (r s') = URL (r s) ∧
  values (r s') = values (r s).
Proof.
  unfold Header_Add, Header. destruct (header (r s)) as [l|] eqn:Hhd; simpl; done.
Qed.

Lemma Submit_content_type_config s :
  let s' := Submit_content_type s in
  Username (r s') = Username (r s) ∧ Password (r s') = Password (r s) ∧
  Timeout (r s') = Timeout (r s) ∧ Insecure (r s') = Insecure (r s) ∧
  Proxy (r s') = Proxy (r s) ∧ URL (r s') = URL (r s) ∧
  values (r s') = values (r s).
Proof.
  unfold Submit_content_type.
  destruct (header (r s)) as [l|] eqn:Hhd; [|apply Header_Add_config].
  unfold Header_Get, Header. rewrite Hhd.
  destruct (String.eqb _ ""); [apply Header_Add_config | done].
Qed.

Lemma Submit_request_state method s :
  (Submit_request method s).2 = Submit_content_type (Submit_query s).2.
Proof.
  unfold Submit_request. destruct (Submit_query s) as [rawQuery s1]. simpl.
  destruct (Request _ method _ _ _); [|done]. by destruct (Transport _ _) as [[??]|?].
Qed.

Lemma Submit_request_config method s :
  let s' := (Submit_request method s).2 in
  Username (r s') = Username (r s) ∧ Password (r s') = Password (r s) ∧
  Timeout (r s') = Timeout (r s) ∧ Insecure (r s') = Insecure (r s) ∧
  Proxy (r s') = Proxy (r s) ∧ values (r s') = values (r s) ∧
  URL (r s') = URL (r (Submit_query s).2).
Proof.
  simpl. rewrite Submit_request_state.
  destruct (Submit_query_frame s) as [u Hq]. rewrite Hq.
  pose proof (Submit_content_type_config (set_URL s u))
    as (H1 & H2 & H3 & H4 & H5 & H6 & H7).
  simpl in *. by rewrite H1, H2, H3, H4, H5, H6, H7.
Qed.

Lemma Get_query_config s :
  let s' := Get_query s in
  Username (r s') = Username (r s) ∧ Password (r s') = Password (r s) ∧
  Timeout (r s') = Timeout (r s) ∧ Insecure (r s') = Insecure (r s) ∧
  Proxy (r s') = Proxy (r s) ∧ header (r s') = header (r s) ∧ heap s' = heap s.
Proof.
  unfold Get_query. destruct (negb _); [|done].
  destruct (url.Parse (URL (r s))) as [u|e]; simpl; [|done].
  pose proof (merge_query_spec (url.Query u) s) as [Hframe _]. simpl in Hframe.
  set (s1 := map_fold _ s (url.Query u)) in *.
  rewrite Hframe. by destruct s as [[] ?].
Qed.

(** ** A proxy URL that does not parse *)

Lemma Transport_bad_proxy s req e :
  Proxy.URL (Proxy (r s)) ≠ "" →
  url.Parse (Proxy.URL (Proxy (r s))) = Fail e →
  Transport s req = Fail (proxy_error e).
Proof.
  intros Hne%String.eqb_neq Hparse. unfold Transport. by rewrite Hne, Hparse.
Qed.

(** X9.  When the proxy URL is set and does not parse, [Transport]
    returns the parse error, and every verb returns an error with no body
    and no response: the error of the proxy URL, unless the request
    itself could not be built.  The network is not asked: the outcome is
    the same whatever it would answer. *)
Theorem bad_proxy_stops_verbs
    (Do Do' : http.Client → http.Request → result string http.Response)
    (s : State) (e : url.Error) (method : string) :
  Proxy.URL (Proxy (r s)) ≠ "" →
  url.Parse (Proxy.URL (Proxy (r s))) = Fail e →
  (∀ req, Transport s req = Fail (proxy_error e)) ∧
  (∃ err, (Get Do s).1 = (None, None, Some err) ∧
          (err = proxy_error e ∨ ∃ e', err = request_error e')) ∧
  (∃ err, (Submit Do method s).1 = (None, None, Some err) ∧
          (err = proxy_error e ∨ ∃ e', err = request_error e')) ∧
  Get Do s = Get Do' s ∧ Submit Do method s = Submit Do' method s.
Proof.
  intros Hne Hparse.
  split; [intros req; by apply Transport_bad_proxy|].
  assert (∃ err, Get_request (Get_query s) = Fail err ∧
                 (err = proxy_error e ∨ ∃ e', err = request_error e')) as (errG & HG & HGe).
  { unfold Get_request.
    destruct (Request (Get_query s) "GET" _ _ None) as [req0|err] eqn:HR.
    - pose proof (Get_query_config s) as (_ & _ & _ & _ & HP & _). simpl in HP.
      rewrite Transport_bad_proxy with (e := e); rewrite ?HP; eauto.
    - unfold Request in HR. destruct (http.NewRequest _ _ _); [done|].
      injection HR as <-. eauto. }
  assert (∃ err, (Submit_request method s).1 = Fail err ∧
                 (err = proxy_error e ∨ ∃ e', err = request_error e')) as (errS & HS & HSe).
  { pose proof (Submit_request_config method s) as (_ & _ & _ & _ & HP & _).
    simpl in HP. rewrite Submit_request_state in HP.
    unfold Submit_request. destruct (Submit_query s) as [rawQuery s1]. simpl in HP.
    set (s2 := Submit_content_type s1) in *.
    destruct (Request s2 method _ _ _) as [req0|err] eqn:HR.
    - rewrite Transport_bad_proxy with (e := e); rewrite ?HP; eauto.
    - unfold Request in HR. destruct (http.NewRequest _ _ _); [done|].
      injection HR as <-. simpl. eauto. }
  split; [exists errG; by rewrite Get_unfold, HG|].
  split; [exists errS; by rewrite Submit_unfold, HS|].
  split; [by rewrite !Get_unfold, HG | by rewrite !Submit_unfold, HS].
Qed.

Lemma bad_proxy_stops_verbs_witness :
  let s := mkState (mk "http://example.com/" "" "" 0 false
                       (Proxy.mk "://proxy" "" "") None None) ∅ in
  Transport s (http.mkRequest "GET" url.empty_URL ∅ http.body_nil 0 "")
  = Fail (proxy_error (url.mkError "parse" "://proxy"
                         (url.errorString "missing protocol scheme"))) ∧
  Get (answers 200 "200 OK" "SUCCESS") s = Get (answers 404 "404 Not Found" "") s.
Proof.
  intros s.
  destruct (bad_proxy_stops_verbs (answers 200 "200 OK" "SUCCESS")
              (answers 404 "404 Not Found" "") s
              (url.mkError "parse" "://proxy" (url.errorString "missing protocol scheme"))
              "POST" ltac:(done) eq_refl) as (HT & _ & _ & HG & _).
  split; [apply HT | exact HG].
Defined.

(** ** The three shapes of an outcome *)

Lemma Send_classified Do s req transport : classified (Send Do s req transport).
Proof.
  unfold classified, Send, io.ReadAll.
  destruct (Do (client s transport) req) as [res|err].
  - destruct (io.failure (http.RespBody res)) as [e|].
    + right; right. by eexists.
    + destruct (Z.leb_spec 200 (http.StatusCode res));
        destruct (Z.leb_spec (http.StatusCode res) 299); simpl.
      * left. exists res. split; [done | lia].
      * right; left. exists res. split; [done | lia].
      * right; left. exists res. split; [done | lia].
      * right; left. exists res. split; [done | lia].
  - right; right. by eexists.
Qed.

Lemma Request_error_kind s method username password data err :
  Request s method username password data = Fail err →
  ∀ status, err ≠ status_error status.
Proof.
  unfold Request. destruct (http.NewRequest _ _ _); [|by intros [= <-]].
  by destruct (negb _ && _).
Qed.

Lemma Transport_error_kind s req err :
  Transport s req = Fail err → ∀ status, err ≠ status_error status.
Proof.
  unfold Transport.
  destruct (negb (String.eqb (Proxy.URL _) "")).
  - destruct (url.Parse _); [|by intros [= <-]].
    destruct (negb _ && negb _); by destruct (_ && Insecure _).
  - by destruct (_ && Insecure _).
Qed.

(** X10.  Whatever the network does, [Get] and [Submit] return one of
    three things: bytes and response with a nil error, and then the
    status code is in 200..299; bytes and response with a
    [ResponseStatus] that holds the code and the status line of that
    response, and then the code is outside 200..299; or nil bytes and a
    nil response with an error that is not a [ResponseStatus].  So a
    caller who gets a [ResponseStatus] has the response in hand, and a
    caller who gets any other error has none. *)
Theorem verb_outcome_classified
    (Do : http.Client → http.Request → result string http.Response)
    (method : string) (s : State) :
  classified (Get Do s).1 ∧ classified (Submit Do method s).1.
Proof.
  split.
  - rewrite Get_unfold. unfold Get_request.
    destruct (Request (Get_query s) "GET" _ _ None) as [req0|err] eqn:HR.
    + destruct (Transport (Get_query s) _) as [[tr req1]|err] eqn:HT; simpl.
      * apply Send_classified.
      * right; right. exists err. split; [done|]. by eapply Transport_error_kind.
    + right; right. exists err. split; [done|]. by eapply Request_error_kind.
  - rewrite Submit_unfold. rewrite Submit_request_state.
    unfold Submit_request. destruct (Submit_query s) as [rawQuery s1]. simpl.
    set (s2 := Submit_content_type s1).
    destruct (Request s2 method _ _ _) as [req0|err] eqn:HR.
    + destruct (Transport s2 _) as [[tr req1]|err] eqn:HT; simpl.
      * apply Send_classified.
      * right; right. exists err. split; [done|]. by eapply Transport_error_kind.
    + right; right. exists err. split; [done|]. by eapply Request_error_kind.
Qed.

(** ** [Submit]: the [Content-Type] and the form body *)

Lemma Header_Add_entries key value s :
  let s' := Header_Add key value s in
  HeaderType.entries (heap s') (header (r s'))
  = <[key := value]> (HeaderType.entries (heap s) (header (r s))).
Proof.
  unfold Header_Add, Header. destruct (header (r s)) as [l|] eqn:Hhd.
  - cbn -[HeaderType.store HeaderType.entries]. rewrite Hhd. apply entries_store.
  - cbn -[HeaderType.store HeaderType.entries]. rewrite entries_store.
    unfold HeaderType.entries. by rewrite lookup_insert_eq.
Qed.

Lemma Submit_content_type_entries s :
  let s' := Submit_content_type s in
  HeaderType.entries (heap s') (header (r s'))
  = if String.eqb (content_type s) ""
    then <["Content-Type" := "application/x-www-form-urlencoded"]>
           (HeaderType.entries (heap s) (header (r s)))
    else HeaderType.entries (heap s) (header (r s)).
Proof.
  unfold Submit_content_type, content_type.
  destruct (header (r s)) as [l|] eqn:Hhd.
  - unfold Header_Get, Header. rewrite Hhd.
    destruct (String.eqb (HeaderType.Get (heap s) (Some l) "Content-Type") "") eqn:Hct.
    + pose proof (Header_Add_entries "Content-Type" "application/x-www-form-urlencoded" s)
        as H. simpl in H. by rewrite H, Hhd.
    + by rewrite Hhd.
  - pose proof (Header_Add_entries "Content-Type" "application/x-www-form-urlencoded" s)
      as H. simpl in H. by rewrite H, Hhd.
Qed.

Lemma Transport_header s req transport req' :
  Transport s req = Ok (transport, req') →
  http.ContentLength req' = http.ContentLength req ∧
  ∀ c, c ≠ "Proxy-Ahthorization" →
       http.ReqHeader req' !! c = http.ReqHeader req !! c.
Proof.
  unfold Transport.
  destruct (negb (String.eqb (Proxy.URL (Proxy (r s))) "")).
  - destruct (url.Parse (Proxy.URL (Proxy (r s)))) as [proxy|e]; [|done].
    destruct (negb (String.eqb (Proxy.Username _) "") && negb (String.eqb (Proxy.Password _) ""));
      destruct ((gostrings.Index (URL (r s)) "https://" =? 0) && Insecure (r s));
      intros [= <- <-]; simpl; (split; [done|]); intros c Hc; try done;
      unfold http.Header_Add;
      change (http.CanonicalMIMEHeaderKey "Proxy-Ahthorization") with "Proxy-Ahthorization";
      by rewrite lookup_insert_ne.
  - destruct ((gostrings.Index (URL (r s)) "https://" =? 0) && Insecure (r s));
      by intros [= <- <-].
Qed.

Lemma Request_header_lookup s method username password data req c :
  Request s method username password data = Ok req →
  c ≠ "Authorization" →
  http.ReqHeader req !! c
  = map_fold (λ k v hd, http.Header_Set hd k v) ∅
             (HeaderType.entries (heap s) (header (r s))) !! c.
Proof.
  rewrite Request_with_credentials.
  destruct (Request s method "" "" data) as [req0|e] eqn:H0; [|done].
  apply Request_without_credentials in H0 as [H0 _]. rewrite <- H0.
  destruct (negb (String.eqb username "") && negb (String.eqb password ""));
    intros [= <-] Hc; [|done].
  unfold http.SetBasicAuth, http.Header_Set. simpl.
  change (http.CanonicalMIMEHeaderKey "Authorization") with "Authorization".
  by rewrite lookup_insert_ne.
Qed.

(** X11.  [Submit] leaves a [Content-Type] that the caller has set, and
    puts [application/x-www-form-urlencoded] in the header store when
    there is none or an empty one; no other key of the store changes, and
    the change stays in the store after the call.  Unless another key of
    the store has the canonical name [Content-Type], the request is sent
    with that one value as its [Content-Type]. *)
Theorem Submit_sets_content_type (method : string) (s : State) :
  let s' := (Submit_request method s).2 in
  content_type s' =
    (if String.eqb (content_type s) "" then "application/x-www-form-urlencoded"
     else content_type s) ∧
  (∀ key, key ≠ "Content-Type" →
     HeaderType.Get (heap s') (header (r s')) key
     = HeaderType.Get (heap s) (header (r s)) key) ∧
  (∀ req transport,
     (Submit_request method s).1 = Ok (req, transport) →
     (∀ k, k ≠ "Content-Type" →
        is_Some (HeaderType.entries (heap s) (header (r s)) !! k) →
        http.CanonicalMIMEHeaderKey k ≠ "Content-Type") →
     http.Header_Values (http.ReqHeader req) "Content-Type" = [content_type s']).
Proof.
  simpl. rewrite Submit_request_state.
  destruct (Submit_query_frame s) as [u Hq].
  pose proof (Submit_content_type_entries (set_URL s u)) as Hentries.
  pose proof (Submit_content_type_spec (set_URL s u)) as (_ & _ & _ & _ & Hct).
  simpl in Hentries, Hct.
  change (content_type (set_URL s u)) with (content_type s) in *.
  change (HeaderType.entries (heap (set_URL s u)) (header (r (set_URL s u))))
    with (HeaderType.entries (heap s) (header (r s))) in Hentries.
  rewrite Hq. set (s2 := Submit_content_type (set_URL s u)) in *.
  split; [exact Hct|]. split.
  - intros key Hne. unfold HeaderType.Get. rewrite Hentries.
    destruct (String.eqb (content_type s) ""); [|done].
    by rewrite lookup_insert_ne.
  - intros req transport Hsub Huniq.
    unfold Submit_request in Hsub.
    destruct (Submit_query s) as [rawQuery s1]. simpl in Hq. subst s1.
    fold s2 in Hsub.
    destruct (Request s2 method _ _ _) as [req0|e] eqn:HR; [|done].
    destruct (Transport s2 _) as [[tr req1]|e] eqn:HT; [|done].
    simpl in Hsub. injection Hsub as <- <-.
    apply Transport_header in HT as [_ HT].
    unfold http.Header_Values.
    change (http.CanonicalMIMEHeaderKey "Content-Type") with "Content-Type".
    rewrite HT by done.
    assert (http.ReqHeader (if negb (String.eqb rawQuery "")
                            then http.set_RawQuery req0 rawQuery else req0)
            = http.ReqHeader req0) as -> by (by destruct (negb _)).
    rewrite (Request_header_lookup _ _ _ _ _ _ "Content-Type" HR) by done.
    pose proof (copied_headers_spec (HeaderType.entries (heap s2) (header (r s2))))
      as (_ & _ & Hcopied). simpl in Hcopied.
    assert (HeaderType.entries (heap s2) (header (r s2)) !! "Content-Type"
            = Some (content_type s2)) as Hthere.
    { assert (is_Some (HeaderType.entries (heap s2) (header (r s2)) !! "Content-Type"))
        as [v Hv].
      { rewrite Hentries. destruct (String.eqb_spec (content_type s) "") as [|Hset].
        - rewrite lookup_insert_eq. eauto.
        - unfold content_type, HeaderType.Get in Hset.
          destruct (HeaderType.entries (heap s) (header (r s)) !! "Content-Type");
            [eauto | done]. }
      unfold content_type, HeaderType.Get. by rewrite Hv. }
    specialize (Hcopied "Content-Type" (content_type s2) Hthere).
    change (http.CanonicalMIMEHeaderKey "Content-Type") with "Content-Type" in Hcopied.
    rewrite Hcopied; [done|].
    intros k' Hne Hin. apply Huniq; [done|]. rewrite Hentries in Hin.
    destruct (String.eqb (content_type s) ""); [|done].
    by rewrite lookup_insert_ne in Hin.
Qed.

Lemma Submit_sets_content_type_witness :
  let s := Header_Add "User-Agent" "TEST - BROWSER"
             (fresh_request "http://127.0.0.1/?test=true") in
  content_type (Submit_request "POST" s).2 = "application/x-www-form-urlencoded" ∧
  ∃ req transport,
    (Submit_request "POST" s).1 = Ok (req, transport) ∧
    http.Header_Values (http.ReqHeader req) "Content-Type"
    = ["application/x-www-form-urlencoded"].
Proof.
  intros s.
  destruct (Submit_sets_content_type "POST" s) as (Hct & _ & Hreq).
  split; [exact Hct|].
  assert (∃ req transport, (Submit_request "POST" s).1 = Ok (req, transport))
    as (req & transport & Hsub) by (vm_compute; eauto).
  exists req, transport. split; [exact Hsub|].
  rewrite (Hreq req transport Hsub); [by rewrite Hct|].
  intros k Hne [v Hk].
  assert (HeaderType.entries (heap s) (header (r s))
          = {["User-Agent" := "TEST - BROWSER"]}) as Hstore
    by (clear; vm_compute; reflexivity).
  rewrite Hstore in Hk. apply lookup_singleton_Some in Hk as [<- _].
  clear. vm_compute. discriminate.
Defined.

Lemma len_zero s : (gostrings.len s =? 0) = String.eqb s "".
Proof. by destruct s. Qed.

Lemma Request_ContentLength s method username password data req :
  Request s method username password data = Ok req →
  http.ContentLength req = from_option io.Len 0 data.
Proof.
  unfold Request, http.NewRequest.
  destruct (negb (http.validMethod _)); [done|].
  destruct (url.Parse (URL (r s))) as [u|e]; [|done].
  intros H.
  destruct data as [rd|]; [destruct (io.Len rd =? 0) eqn:Hlen|];
    destruct (negb (String.eqb username "") && negb (String.eqb password ""));
    injection H as <-; simpl; try done; by apply Z.eqb_eq in Hlen.
Qed.

(** X12.  For a submission whose [Content-Type] is none of the three
    JSON types (the default included) and whose value store has been
    made, the body is the store in URL-encoded form, read from its first
    byte, and the content length is its length; when the encoding is
    empty the request has [http.NoBody] and length 0. *)
Theorem Submit_form_body
    (method : string) (s s' : State) (v : url.Values)
    (req : http.Request) (transport : http.Transport) :
  values (r s) = Some v →
  is_json (content_type s) = false →
  Submit_request method s = (Ok (req, transport), s') →
  http.ReqBody req =
    (if String.eqb (url.Encode v) "" then http.NoBody
     else http.body_of (io.strings_Reader (url.Encode v))) ∧
  http.ContentLength req = gostrings.len (url.Encode v).
Proof.
  intros Hv Hjson Hsub.
  pose proof (Submit_request_body method s req transport s' Hsub) as (Hv' & Hct & Hbody).
  assert (Submit_data s' = Some (io.strings_Reader (url.Encode v))) as Hdata.
  { unfold Submit_data. rewrite Hv', Hv. fold (content_type s'). rewrite Hct.
    destruct (String.eqb (content_type s) ""); [done | by rewrite Hjson]. }
  rewrite Hdata in Hbody. simpl in Hbody. rewrite len_zero in Hbody.
  split; [exact Hbody|].
  unfold Submit_request in Hsub.
  destruct (Submit_query s) as [rawQuery s1].
  set (s2 := Submit_content_type s1) in *.
  destruct (Request s2 method _ _ _) as [req0|e] eqn:HR; [|done].
  destruct (Transport s2 _) as [[tr req1]|e] eqn:HT; [|done].
  injection Hsub as <- <- <-.
  apply Transport_header in HT as [-> _].
  apply Request_ContentLength in HR. rewrite Hdata in HR. simpl in HR.
  by destruct (negb (String.eqb rawQuery "")).
Qed.

Lemma Submit_form_body_witness :
  let s := Values_Add "key" "value" (Values_Add "q" "a b"
             (fresh_request "http://127.0.0.1/?test=true")) in
  ∃ req transport s',
    Submit_request "POST" s = (Ok (req, transport), s') ∧
    http.ReqBody req = http.body_of (io.strings_Reader "key=value&q=a+b") ∧
    http.ContentLength req = 15.
Proof.
  intros s.
  set (v := <["key" := ["value"]]> ({["q" := ["a b"]]} : url.Values)).
  assert (values (r s) = Some v) as Hv by (vm_compute; reflexivity).
  assert (∃ req transport s', Submit_request "POST" s = (Ok (req, transport), s'))
    as (req & transport & s' & Hsub) by (vm_compute; eauto).
  exists req, transport, s'. split; [exact Hsub|].
  destruct (Submit_form_body "POST" s s' v req transport Hv eq_refl Hsub) as [-> ->].
  clear. split; vm_compute; reflexivity.
Defined.

(** ** [Submit]: the inline query *)

Lemma Add_no_empty m k v : no_empty_list m → no_empty_list (url.Add m k v).
Proof.
  intros Hm k' vs. unfold url.Add. rewrite lookup_insert.
  case_decide; [|apply Hm]. intros [= <-]. by destruct (url.values_of m k).
Qed.

Lemma parse_piece_no_empty m piece :
  no_empty_list m → no_empty_list (url.parse_piece m piece).
Proof.
  intros Hm. unfold url.parse_piece.
  destruct (gostrings.Contains piece ";"); [done|].
  destruct (String.eqb piece ""); [done|].
  destruct (gostrings.Cut piece "=") as [[key value] found].
  destruct (url.QueryUnescape key); [|done].
  destruct (url.QueryUnescape value); [|done].
  by apply Add_no_empty.
Qed.

Lemma ParseQuery_no_empty query : no_empty_list (url.ParseQuery_values query).
Proof.
  unfold url.ParseQuery_values.
  assert (∀ pieces m, no_empty_list m → no_empty_list (foldl url.parse_piece m pieces))
    as H.
  { induction pieces as [|p pieces IH]; intros m Hm; [done|].
    simpl. apply IH. by apply parse_piece_no_empty. }
  apply H. intros k vs Hk. by rewrite lookup_empty in Hk.
Qed.

Lemma foldl_Add (m : url.Values) k vs :
  foldl (λ values v2, url.Add values k v2) m vs =
    match vs with
    | [] => m
    | _ => <[k := url.values_of m k ++ vs]> m
    end.
Proof.
  revert m. induction vs as [|v vs IH]; intros m; [done|].
  simpl. rewrite IH. destruct vs as [|v' vs]; [done|].
  rewrite values_of_Add, decide_True by done.
  unfold url.Add. rewrite insert_insert_eq. by rewrite <- app_assoc.
Qed.

(** The two nested loops of [Submit] over [u.Query()] rebuild the map
    they walk. *)
Lemma copied_query (q : url.Values) :
  no_empty_list q →
  map_fold (λ k v1 values, foldl (λ values v2, url.Add values k v2) values v1) ∅ q = q.
Proof.
  apply (map_fold_weak_ind (λ acc (m : url.Values), no_empty_list m → acc = m)).
  - done.
  - intros i x m acc Hi IH Hall.
    assert (x ≠ []) as Hx by (apply (Hall i); by rewrite lookup_insert_eq).
    rewrite IH.
    + rewrite foldl_Add. destruct x as [|v x]; [done|].
      unfold url.values_of. by rewrite Hi.
    + intros k vs Hk. apply (Hall k). rewrite lookup_insert_ne; [done|].
      intros ->. by rewrite Hi in Hk.
Qed.

Lemma Submit_query_parsed s pre post u :
  URL (r s) = pre +:+ "?" +:+ post → byte_in "?" pre = false →
  url.Parse (URL (r s)) = Ok u →
  Submit_query s = (url.Encode (url.Query u), set_URL s pre).
Proof.
  intros HURL Hpre Hparse. unfold Submit_query. rewrite Hparse, HURL.
  change (pre +:+ "?" +:+ post) with (pre +:+ String "?" post).
  rewrite Index_first by done.
  destruct (Z.eqb_spec (gostrings.len pre) (-1)) as [Heq|_].
  - pose proof (len_nonneg pre). lia.
  - simpl. rewrite slice_to_app. rewrite copied_query; [done|].
    apply ParseQuery_no_empty.
Qed.

(** X13.  For a [Submit] whose URL holds a [?] and parses, the raw query
    of the request is the query of the URL decoded and encoded again,
    with its keys in sorted order, and not the text that stood in the
    URL.  Unlike [Get], [Submit] does not put the pairs of the URL into
    the value store: the store is as it was, and so the pairs do not
    reach the body.  The URL is cut to the part before the [?]. *)
Theorem Submit_reencodes_query
    (method : string) (s : State) (pre post : string) (u : url.URL) :
  URL (r s) = pre +:+ "?" +:+ post →
  byte_in "?" pre = false →
  url.Parse (URL (r s)) = Ok u →
  let s' := (Submit_request method s).2 in
  URL (r s') = pre ∧
  values (r s') = values (r s) ∧
  ∀ req transport,
    (Submit_request method s).1 = Ok (req, transport) →
    url.RawQuery (http.URL req) = url.Encode (url.Query u).
Proof.
  intros HURL Hpre Hparse. simpl.
  pose proof (Submit_query_parsed s pre post u HURL Hpre Hparse) as Hq.
  pose proof (Submit_request_config method s) as (_ & _ & _ & _ & _ & Hv & HU).
  simpl in Hv, HU. rewrite Hq in HU. simpl in HU.
  split; [exact HU|]. split; [exact Hv|].
  intros req transport Hsub. unfold Submit_request in Hsub. rewrite Hq in Hsub.
  pose proof (Submit_content_type_spec (set_URL s pre)) as (_ & HU2 & _).
  simpl in HU2.
  set (s2 := Submit_content_type (set_URL s pre)) in *.
  destruct (Request s2 method _ _ _) as [req0|e] eqn:HR; [|done].
  destruct (Transport s2 _) as [[tr req1]|e] eqn:HT; [|done].
  simpl in Hsub. injection Hsub as <- <-.
  apply Transport_request in HT as (-> & _ & _).
  apply Request_RawQuery in HR as (u' & Hu' & HRaw). rewrite HU2 in Hu'.
  apply Parse_no_query in Hu'; [|done].
  destruct (String.eqb_spec (url.Encode (url.Query u)) "") as [Hempty|Hne]; simpl.
  - by rewrite HRaw, Hu', Hempty.
  - done.
Qed.

Lemma Submit_reencodes_query_witness :
  let s := Values_Add "key" "value"
             (fresh_request "http://127.0.0.1/?z=1&a=x%20y&z=2") in
  stored (Submit_request "POST" s).2 "z" = [] ∧
  ∃ req transport,
    (Submit_request "POST" s).1 = Ok (req, transport) ∧
    url.RawQuery (http.URL req) = "a=x+y&z=1&z=2".
Proof.
  intros s.
  assert (∃ u, url.Parse (URL (r s)) = Ok u) as [u Hu] by (vm_compute; eauto).
  destruct (Submit_reencodes_query "POST" s "http://127.0.0.1/" "z=1&a=x%20y&z=2" u
              eq_refl eq_refl Hu) as (_ & Hv & Hreq).
  split; [unfold stored, ValueStore; rewrite Hv; by vm_compute|].
  assert (∃ req transport, (Submit_request "POST" s).1 = Ok (req, transport))
    as (req & transport & Hsub) by (vm_compute; eauto).
  exists req, transport. split; [exact Hsub|].
  rewrite (Hreq req transport Hsub).
  vm_compute in Hu. injection Hu as <-. by vm_compute.
Defined.

(** ** The URL after a call *)

Lemma byte_in_split c s :
  byte_in c s = true →
  ∃ pre post, s = pre +:+ String c post ∧ byte_in c pre = false.
Proof.
  induction s as [|d s IH]; [done|]. simpl.
  destruct (Ascii.eqb_spec c d) as [->|Hne]; simpl.
  - intros _. by exists "", s.
  - intros (pre & post & -> & Hpre)%IH. exists (String d pre), post.
    split; [done|]. simpl. rewrite Hpre.
    by apply Ascii.eqb_neq in Hne as ->.
Qed.

Lemma cut_at_mark s :
  let idx := gostrings.Index s "?" in
  byte_in "?" (if negb (idx =? -1) then gostrings.slice_to s idx else s) = false ∧
  (byte_in "?" s = false → negb (idx =? -1) = false).
Proof.
  simpl. destruct (byte_in "?" s) eqn:Hin.
  - apply byte_in_split in Hin as (pre & post & -> & Hpre).
    rewrite Index_first by done.
    destruct (Z.eqb_spec (gostrings.len pre) (-1)) as [Heq|_].
    + pose proof (len_nonneg pre). lia.
    + simpl. by rewrite slice_to_app.
  - by rewrite Index_absent.
Qed.

Lemma Get_query_URL s :
  URL (r (Get_query s)) =
    if negb (gostrings.Index (URL (r s)) "?" =? -1)
    then gostrings.slice_to (URL (r s)) (gostrings.Index (URL (r s)) "?")
    else URL (r s).
Proof.
  unfold Get_query. destruct (negb _); [|done].
  destruct (url.Parse (URL (r s))) as [u|e]; simpl; [|done].
  pose proof (merge_query_spec (url.Query u) s) as [Hframe _]. simpl in Hframe.
  set (s1 := map_fold _ s (url.Query u)) in *.
  rewrite Hframe. by destruct s as [[] ?].
Qed.

Lemma Submit_query_URL s :
  URL (r (Submit_query s).2) =
    if negb (gostrings.Index (URL (r s)) "?" =? -1)
    then gostrings.slice_to (URL (r s)) (gostrings.Index (URL (r s)) "?")
    else URL (r s).
Proof. unfold Submit_query. by destruct (negb _). Qed.

Lemma Get_state Do s : (Get Do s).2 = Get_query s.
Proof.
  rewrite Get_unfold. by destruct (Get_request (Get_query s)) as [[??]|?].
Qed.

Lemma Submit_state Do method s :
  (Submit Do method s).2 = (Submit_request method s).2.
Proof.
  rewrite Submit_unfold. by destruct (Submit_request method s).1 as [[??]|?].
Qed.

Lemma Get_query_cut s : byte_in "?" (URL (r (Get_query s))) = false.
Proof. rewrite Get_query_URL. apply (cut_at_mark (URL (r s))). Qed.

Lemma Submit_request_cut method s :
  byte_in "?" (URL (r (Submit_request method s).2)) = false.
Proof.
  pose proof (Submit_request_config method s) as (_ & _ & _ & _ & _ & _ & HU).
  simpl in HU. rewrite HU, Submit_query_URL. apply (cut_at_mark (URL (r s))).
Qed.

(** X14.  After [Get] and after [Submit] the URL of the request
    configuration holds no [?]: it is the part of the URL before the
    first [?], and the whole URL when there was none.  The calls change
    nothing else of the configuration but what they are meant to: the
    credentials, the timeout, the [Insecure] flag and the proxy stay;
    [Get] leaves the header store alone, and [Submit] the value store. *)
Theorem verbs_cut_URL
    (Do : http.Client → http.Request → result string http.Response)
    (method : string) (s : State) :
  let sG := (Get Do s).2 in
  let sS := (Submit Do method s).2 in
  byte_in "?" (URL (r sG)) = false ∧
  URL (r sS) = URL (r sG) ∧
  (byte_in "?" (URL (r s)) = false → URL (r sG) = URL (r s)) ∧
  (∀ pre post, URL (r s) = pre +:+ "?" +:+ post → byte_in "?" pre = false →
     URL (r sG) = pre) ∧
  (Username (r sG), Password (r sG), Timeout (r sG), Insecure (r sG), Proxy (r sG))
  = (Username (r s), Password (r s), Timeout (r s), Insecure (r s), Proxy (r s)) ∧
  (Username (r sS), Password (r sS), Timeout (r sS), Insecure (r sS), Proxy (r sS))
  = (Username (r s), Password (r s), Timeout (r s), Insecure (r s), Proxy (r s)) ∧
  header (r sG) = header (r s) ∧ heap sG = heap s ∧
  values (r sS) = values (r s).
Proof.
  simpl. rewrite Get_state, Submit_state.
  pose proof (Get_query_config s) as (G1 & G2 & G3 & G4 & G5 & G6 & G7).
  pose proof (Submit_request_config method s) as (S1 & S2 & S3 & S4 & S5 & S6 & S7).
  simpl in *. rewrite S7, Submit_query_URL, Get_query_URL.
  pose proof (cut_at_mark (URL (r s))) as [Hcut Hnone]. simpl in Hcut, Hnone.
  split; [exact Hcut|]. split; [done|]. split; [|split].
  - intros Hno. by rewrite (Hnone Hno).
  - intros pre post -> Hpre.
    change (pre +:+ "?" +:+ post) with (pre +:+ String "?" post).
    rewrite Index_first by done.
    destruct (Z.eqb_spec (gostrings.len pre) (-1)) as [Heq|_].
    + pose proof (len_nonneg pre). lia.
    + simpl. by rewrite slice_to_app.
  - by rewrite G1, G2, G3, G4, G5, S1, S2, S3, S4, S5, S6.
Qed.

Lemma verbs_cut_URL_witness :
  let s := Values_Add "key" "value"
             (fresh_request "https://localhost/index.html?nickname=ochipin") in
  URL (r (Get (answers 200 "200 OK" "") s).2) = "https://localhost/index.html".
Proof.
  intros s.
  destruct (verbs_cut_URL (answers 200 "200 OK" "") "POST" s)
    as (_ & _ & _ & Hcut & _).
  by apply (Hcut "https://localhost/index.html" "nickname=ochipin").
Defined.

Lemma foldl_as_foldr {A B C} (f : A → B → C → C) (l : list (A * B)) (c : C) :
  foldl (λ c kv, f kv.1 kv.2 c) c l = foldr (uncurry f) c (reverse l).
Proof.
  revert c. induction l as [|[k v] l IH]; intros c; [done|].
  simpl. by rewrite IH, reverse_cons, foldr_app.
Qed.

(** With distinct canonical names the order of the walk is of no
    account: every order gives the header that [Request] builds. *)
Lemma copy_any_order (store : gmap string string) l hd :
  distinct_canonical store →
  l ≡ₚ map_to_list store →
  copy_in_order l hd = map_fold (λ k v hd, http.Header_Set hd k v) hd store.
Proof.
  intros Hdistinct Hperm. unfold copy_in_order.
  rewrite map_fold_foldr, (foldl_as_foldr (λ k v hd, http.Header_Set hd k v)).
  assert (reverse l ≡ₚ map_to_list store) as Hrev by (by rewrite reverse_Permutation).
  apply (foldr_permutation (=) (uncurry (λ k v hd, http.Header_Set hd k v)) hd);
    [|done].
  intros j1 [k1 v1] j2 [k2 v2] b Hj H1 H2. simpl. unfold http.Header_Set.
  apply insert_insert_ne. intros Hcanon.
  assert (NoDup (reverse l).*1) as Hnodup.
  { rewrite Hrev. apply NoDup_fst_map_to_list. }
  assert (k1 = k2) as <-.
  { apply Hdistinct; [| |done].
    - exists v1. apply elem_of_map_to_list. rewrite <- Hrev.
      by apply list_elem_of_lookup_2 in H1.
    - exists v2. apply elem_of_map_to_list. rewrite <- Hrev.
      by apply list_elem_of_lookup_2 in H2. }
  apply Hj. apply (NoDup_lookup _ _ _ k1 Hnodup); rewrite list_lookup_fmap.
  - by rewrite H1.
  - by rewrite H2.
Qed.

(** X15.  A second [Get] leaves the configuration that the first one
    left: the query of the URL is in the value store and the URL is cut
    by then.  When no two keys of the header store have the same
    canonical name, the walk over the store builds the same header in
    every order, and a second [Get] sends the request of the first and
    returns what the network answers to it.  A second [Submit] does not
    repeat the first: the query of the URL was cut off by the first and
    was kept nowhere, so the request of the second has an empty raw
    query. *)
Theorem second_call
    (Do : http.Client → http.Request → result string http.Response)
    (method : string) (s : State) :
  let store := HeaderType.entries (heap s) (header (r s)) in
  let s1 := (Get Do s).2 in
  (Get Do s1).2 = s1 ∧
  HeaderType.entries (heap s1) (header (r s1)) = store ∧
  (distinct_canonical store →
   (∀ l hd, l ≡ₚ map_to_list store →
      copy_in_order l hd = map_fold (λ k v hd, http.Header_Set hd k v) hd store) ∧
   Get Do s1 = Get Do s) ∧
  ∀ req transport,
    (Submit_request method (Submit Do method s).2).1 = Ok (req, transport) →
    url.RawQuery (http.URL req) = "".
Proof.
  intros store s1.
  assert (Get Do s1 = Get Do s) as Hsame.
  { unfold s1. rewrite Get_state. unfold Get at 1.
    by rewrite (Get_query_no_mark (Get_query s) (Get_query_cut s)). }
  split; [by rewrite Hsame|]. split; [|split].
  - unfold s1, store. rewrite Get_state.
    pose proof (Get_query_config s) as (_ & _ & _ & _ & _ & Hhd & Hheap).
    simpl in Hhd, Hheap. by rewrite Hhd, Hheap.
  - intros Hdistinct. split; [|exact Hsame].
    intros l hd Hperm. by apply copy_any_order.
  - intros req transport Hsub.
    pose proof (Submit_request_cut method s) as HnoG. rewrite <- (Submit_state Do) in HnoG.
    set (s2 := (Submit Do method s).2) in *.
    unfold Submit_request in Hsub.
    rewrite (Submit_query_no_mark s2 HnoG) in Hsub.
    pose proof (Submit_content_type_spec s2) as (_ & HU2 & _). simpl in HU2.
    set (s3 := Submit_content_type s2) in *.
    destruct (Request s3 method _ _ _) as [req0|e] eqn:HR; [|done].
    destruct (Transport s3 _) as [[tr req1]|e] eqn:HT; [|done].
    simpl in Hsub. injection Hsub as <- <-.
    apply Transport_request in HT as (-> & _ & _). simpl.
    apply Request_RawQuery in HR as (u' & Hu' & ->). rewrite HU2 in Hu'.
    by apply (Parse_no_query (URL (r s2))).
Qed.

Lemma second_call_witness :
  let Do := answers 200 "200 OK" "SUCCESS" in
  let s := Header_Add "accept" "text/plain"
             (Header_Add "User-Agent" "TEST - BROWSER"
                (fresh_request "http://127.0.0.1/?test=true")) in
  distinct_canonical (HeaderType.entries (heap s) (header (r s))) ∧
  Get Do (Get Do s).2 = Get Do s.
Proof.
  intros Do s.
  destruct (second_call Do "POST" s) as (_ & _ & Hget & _).
  assert (HeaderType.entries (heap s) (header (r s))
          = <["accept" := "text/plain"]> {["User-Agent" := "TEST - BROWSER"]})
    as Hstore by (clear; vm_compute; reflexivity).
  rewrite Hstore in *. clear Hstore.
  assert (distinct_canonical
            (<["accept" := "text/plain"]> {["User-Agent" := "TEST - BROWSER"]}))
    as Hdistinct.
  { clear. intros k k' [v Hk] [v' Hk'] Hcanon.
    destruct (decide ("accept" = k)) as [<-|Hne];
      destruct (decide ("accept" = k')) as [<-|Hne']; [done| | |].
    - rewrite lookup_insert_ne in Hk' by done.
      apply lookup_singleton_Some in Hk' as [<- _]. clear -Hcanon.
      vm_compute in Hcanon. discriminate.
    - rewrite lookup_insert_ne in Hk by done.
      apply lookup_singleton_Some in Hk as [<- _]. clear -Hcanon.
      vm_compute in Hcanon. discriminate.
    - rewrite lookup_insert_ne in Hk, Hk' by done.
      apply lookup_singleton_Some in Hk as [<- _].
      by apply lookup_singleton_Some in Hk' as [<- _]. }
  split; [exact Hdistinct|]. by destruct (Hget Hdistinct) as [_ Hsame].
Defined.

(** ** [Encode] and [ParseQuery]: what is sent can be read back *)

Lemma escapes_well_all c : escapes_well c = true.
Proof. destruct c as [[] [] [] [] [] [] [] []]; vm_compute; reflexivity. Qed.

Lemma escape_cons c rest :
  url.escape (String c rest) url.encodeQueryComponent =
    if Ascii.eqb c " " then String "+" (url.escape rest url.encodeQueryComponent)
    else if url.shouldEscape c url.encodeQueryComponent then
      String "%" (String (url.upperhex (N.shiftr (byte_val c) 4))
        (String (url.upperhex (N.land (byte_val c) 15))
           (url.escape rest url.encodeQueryComponent)))
    else String c (url.escape rest url.encodeQueryComponent).
Proof. reflexivity. Qed.

Lemma byte_in_cons c d s : byte_in c (String d s) = Ascii.eqb c d || byte_in c s.
Proof. reflexivity. Qed.

Lemma not_byte_in c d set :
  byte_in c set = false → byte_in d set = true → Ascii.eqb d c = false.
Proof.
  intros Hc Hd. destruct (Ascii.eqb_spec d c) as [->|]; [|done]. congruence.
Qed.

Lemma not_byte_in' c d set :
  byte_in c set = false → byte_in d set = true → Ascii.eqb c d = false.
Proof.
  intros Hc Hd. destruct (Ascii.eqb_spec c d) as [->|]; [|done]. congruence.
Qed.

Lemma unescape_escape s :
  url.unescape_check url.encodeQueryComponent (url.escape s url.encodeQueryComponent) = None ∧
  url.unescape_write url.encodeQueryComponent (url.escape s url.encodeQueryComponent) = s.
Proof.
  induction s as [|c s [IHc IHw]]; [done|].
  rewrite escape_cons. pose proof (escapes_well_all c) as Hc. unfold escapes_well in Hc.
  destruct (Ascii.eqb_spec c " ") as [->|_]; [simpl; by rewrite IHc, IHw|].
  destruct (url.shouldEscape c url.encodeQueryComponent).
  - simpl in Hc.
    apply andb_prop in Hc as [Hc _]. apply andb_prop in Hc as [Hc _].
    apply andb_prop in Hc as [Hc Hback]. apply Ascii.eqb_eq in Hback.
    simpl. rewrite Hc. simpl. by rewrite IHc, IHw, Hback.
  - apply negb_true_iff in Hc.
    assert (Ascii.eqb c "%" = false) as H1 by (by apply (not_byte_in' _ _ "%+&=;")).
    assert (Ascii.eqb c "+" = false) as H2 by (by apply (not_byte_in' _ _ "%+&=;")).
    simpl. rewrite H1, H2. by rewrite IHc, IHw.
Qed.

Lemma QueryUnescape_QueryEscape s : url.QueryUnescape (url.QueryEscape s) = Ok s.
Proof.
  unfold url.QueryUnescape, url.QueryEscape, url.unescape.
  destruct (unescape_escape s) as [-> ->]. done.
Qed.

Lemma escape_no_mark d s :
  byte_in d "&=;" = true → byte_in d (url.QueryEscape s) = false.
Proof.
  intros Hd. unfold url.QueryEscape. induction s as [|c s IH]; [done|].
  rewrite escape_cons. pose proof (escapes_well_all c) as Hc. unfold escapes_well in Hc.
  destruct (Ascii.eqb_spec c " ") as [->|_].
  - rewrite byte_in_cons, IH.
    simpl in Hd. repeat (apply orb_prop in Hd as [Hd|Hd]; [apply Ascii.eqb_eq in Hd as ->; done|]).
    done.
  - destruct (url.shouldEscape c url.encodeQueryComponent).
    + cbv beta iota zeta in Hc.
      apply andb_prop in Hc as [Hc Hlo]. apply andb_prop in Hc as [Hc Hhi].
      apply negb_true_iff in Hlo, Hhi.
      rewrite !byte_in_cons, IH.
      rewrite (not_byte_in _ _ _ Hhi Hd), (not_byte_in _ _ _ Hlo Hd).
      simpl in Hd. repeat (apply orb_prop in Hd as [Hd|Hd]; [apply Ascii.eqb_eq in Hd as ->; done|]).
      done.
    + apply negb_true_iff in Hc. rewrite byte_in_cons, IH.
      assert (byte_in d "%+&=;" = true) as Hd'.
      { simpl. simpl in Hd. rewrite Hd. by rewrite !orb_true_r. }
      by rewrite (not_byte_in _ _ _ Hc Hd').
Qed.

Lemma append_cons c a b : String c a +:+ b = String c (a +:+ b).
Proof. reflexivity. Qed.

Lemma byte_in_app c a b : byte_in c (a +:+ b) = byte_in c a || byte_in c b.
Proof.
  induction a as [|d a IH]; [done|].
  rewrite append_cons. simpl. by rewrite IH, orb_assoc.
Qed.

Lemma substring_all s : String.substring 0 (String.length s) s = s.
Proof. induction s as [|c s IH]; [done|]. simpl. by rewrite IH. Qed.

Lemma slice_from_app pre post :
  gostrings.slice_from (pre +:+ post) (gostrings.len pre) = post.
Proof.
  unfold gostrings.slice_from, gostrings.len. rewrite Nat2Z.id.
  induction pre as [|c pre IH].
  - simpl. rewrite Nat.sub_0_r. apply substring_all.
  - rewrite append_cons. exact IH.
Qed.

Lemma append_one pre c post :
  (pre +:+ String c "") +:+ post = pre +:+ String c post.
Proof. induction pre as [|d pre IH]; [done|]. by rewrite !append_cons, IH. Qed.

Lemma len_append a b : gostrings.len (a +:+ b) = gostrings.len a + gostrings.len b.
Proof.
  unfold gostrings.len. induction a as [|c a IH]; [done|].
  rewrite append_cons. simpl String.length. lia.
Qed.

Lemma Cut_first c pre post :
  byte_in c pre = false →
  gostrings.Cut (pre +:+ String c post) (String c "") = (pre, post, true).
Proof.
  intros Hpre. unfold gostrings.Cut. rewrite Index_first by done.
  pose proof (len_nonneg pre) as Hlen.
  destruct (Z.leb_spec 0 (gostrings.len pre)) as [_|]; [|lia].
  rewrite slice_to_app.
  rewrite <- len_append.
  rewrite <- (append_one pre c post). by rewrite slice_from_app.
Qed.

(** A piece that [Encode] wrote is read back as the pair it was made
    from. *)
Lemma parse_piece_encode_pair m k x :
  url.parse_piece m (url.encode_pair k x) = url.Add m k x.
Proof.
  unfold url.parse_piece, url.encode_pair.
  assert (gostrings.Contains (url.QueryEscape k +:+ "=" +:+ url.QueryEscape x) ";" = false)
    as ->.
  { unfold gostrings.Contains. rewrite Index_absent; [done|].
    rewrite !byte_in_app, !escape_no_mark by done. done. }
  assert (String.eqb (url.QueryEscape k +:+ "=" +:+ url.QueryEscape x) "" = false) as ->.
  { by destruct (url.QueryEscape k). }
  change (url.QueryEscape k +:+ "=" +:+ url.QueryEscape x)
    with (url.QueryEscape k +:+ String "=" (url.QueryEscape x)).
  rewrite Cut_first by (by apply escape_no_mark).
  by rewrite !QueryUnescape_QueryEscape.
Qed.

Lemma split_byte_absent sep s :
  byte_in sep s = false → url.split_byte sep s = [s].
Proof.
  induction s as [|c s IH]; [done|]. simpl.
  intros [Hc Hs]%orb_false_elim. rewrite Ascii.eqb_sym, Hc. by rewrite IH.
Qed.

Lemma split_byte_first sep pre post :
  byte_in sep pre = false →
  url.split_byte sep (pre +:+ String sep post) = pre :: url.split_byte sep post.
Proof.
  induction pre as [|c pre IH].
  - intros _. simpl. by rewrite Ascii.eqb_refl.
  - rewrite append_cons. simpl.
    intros [Hc Hs]%orb_false_elim. rewrite Ascii.eqb_sym, Hc. by rewrite IH.
Qed.

Lemma split_join sep pieces :
  Forall (λ p, byte_in sep p = false) pieces → pieces ≠ [] →
  url.split_byte sep (url.join (String sep "") pieces) = pieces.
Proof.
  induction 1 as [|p pieces Hp Hall IH]; [done|]. intros _.
  destruct pieces as [|q pieces].
  - simpl. by apply split_byte_absent.
  - change (url.join (String sep "") (p :: q :: pieces))
      with (p +:+ String sep (url.join (String sep "") (q :: pieces))).
    rewrite split_byte_first by done. by rewrite IH.
Qed.

Lemma encoded_pairs_of v :
  url.encoded_pairs v = (λ p, url.encode_pair p.1 p.2) <$> pairs_of v.
Proof.
  unfold url.encoded_pairs, pairs_of.
  induction (url.sorted_keys v) as [|k l IH]; [done|].
  rewrite !bind_cons, fmap_app, IH. f_equal.
  rewrite <- list_fmap_compose. done.
Qed.

(** Reading back what [Encode] wrote adds the pairs one by one. *)
Lemma ParseQuery_Encode_pairs v :
  url.ParseQuery_values (url.Encode v) =
    foldl (λ m p, url.Add m p.1 p.2) ∅ (pairs_of v).
Proof.
  unfold url.ParseQuery_values, url.Encode. rewrite encoded_pairs_of.
  destruct (pairs_of v) as [|p pairs]; [done|].
  change "&" with (String "&"%char "").
  rewrite split_join.
  - generalize (∅ : url.Values).
    induction (p :: pairs) as [|q l IH]; intros m; [done|].
    simpl. rewrite parse_piece_encode_pair. apply IH.
  - apply Forall_fmap, Forall_forall. intros q _. simpl.
    unfold url.encode_pair. rewrite !byte_in_app, !escape_no_mark by done. done.
  - done.
Qed.

Lemma values_of_pairs m pairs k :
  url.values_of (foldl (λ m p, url.Add m p.1 p.2) m pairs) k =
    url.values_of m k ++ values_at k pairs.
Proof.
  revert m. induction pairs as [|p pairs IH]; intros m.
  - by rewrite app_nil_r.
  - simpl. rewrite IH, values_of_Add. unfold values_at. simpl.
    destruct (decide (k = p.1)) as [->|Hne].
    + rewrite decide_True by done. by rewrite <- app_assoc.
    + rewrite decide_False by done. done.
Qed.

Lemma values_at_key k k' (xs : list string) :
  values_at k (pair k' <$> xs) = if decide (k' = k) then xs else [].
Proof.
  unfold values_at. induction xs as [|x l IH]; csimpl.
  - by case_decide.
  - rewrite IH. by case_decide.
Qed.

Lemma values_at_pairs_of v k : values_at k (pairs_of v) = url.values_of v k.
Proof.
  unfold pairs_of. destruct (sorted_keys_spec v) as [Hnodup Hin].
  assert (∀ l, NoDup l →
            values_at k (k' ← l; pair k' <$> url.values_of v k') =
              if decide (k ∈ l) then url.values_of v k else []) as H.
  { induction 1 as [|k' l Hk' Hl IH]; [done|].
    rewrite bind_cons. unfold values_at in *. rewrite omap_app.
    fold (values_at k (pair k' <$> url.values_of v k')).
    rewrite values_at_key, IH.
    destruct (decide (k' = k)) as [->|Hne].
    - rewrite decide_False by done. rewrite decide_True by (by left).
      by rewrite app_nil_r.
    - simpl. destruct (decide (k ∈ l)).
      + by rewrite decide_True by (by right).
      + by rewrite decide_False by (by intros [?|?]%elem_of_cons). }
  rewrite H by done. case_decide as Hk; [done|].
  unfold url.values_of. destruct (v !! k) eqn:Hv; [|done].
  destruct Hk. apply Hin. by rewrite Hv.
Qed.

Lemma ParseQuery_reads_Encode_aux (v : url.Values) (k : string) :
  url.values_of (url.ParseQuery_values (url.Encode v)) k = url.values_of v k.
Proof.
  rewrite ParseQuery_Encode_pairs, values_of_pairs, values_of_empty.
  apply values_at_pairs_of.
Qed.

(** X16.  [ParseQuery] reads back what [Encode] wrote: for every store
    of values and every key, the query string that [Encode] makes of
    the store gives the key the values it has in the store, in their
    order; and a store that holds no empty list is read back as a whole.
    Keys and values may hold any bytes, among them [&], [=], [;], [%],
    [+] and the space. *)
Theorem ParseQuery_reads_Encode (v : url.Values) :
  (∀ k, url.values_of (url.ParseQuery_values (url.Encode v)) k = url.values_of v k) ∧
  (no_empty_list v → url.ParseQuery_values (url.Encode v) = v).
Proof.
  split; [apply ParseQuery_reads_Encode_aux|].
  intros Hv. apply map_eq. intros k.
  pose proof (ParseQuery_reads_Encode_aux v k) as Hk. unfold url.values_of in Hk.
  pose proof (ParseQuery_no_empty (url.Encode v) k) as Hne.
  destruct (url.ParseQuery_values (url.Encode v) !! k) as [xs|] eqn:Hx;
    destruct (v !! k) as [ys|] eqn:Hy; simpl in Hk.
  - by rewrite Hk.
  - by destruct (Hne xs).
  - by destruct (Hv k ys).
  - done.
Qed.

(** X17.  The query that [Get] puts on the request is the encoding of
    the value store as [Get] left it, for every URL and every store,
    also when there is no store (the query is then empty).  Read back as
    [URL.Query] reads it, the query gives every key the values of the
    store, in their order.  So the values that were added before the
    call arrive as they were added, whatever bytes they hold. *)
Theorem Get_query_read_back
    (s : State) (req : http.Request) (transport : http.Transport) :
  Get_request (Get_query s) = Ok (req, transport) →
  url.RawQuery (http.URL req) = url.Encode (ValueStore (Get_query s)) ∧
  (∀ k, url.values_of (url.Query (http.URL req)) k = stored (Get_query s) k) ∧
  (byte_in "?" (URL (r s)) = false →
   ∀ k, url.values_of (url.Query (http.URL req)) k = stored s k).
Proof.
  intros Hreq.
  assert (url.RawQuery (http.URL req) = url.Encode (ValueStore (Get_query s))) as Hraw.
  { pose proof (Get_query_cut s) as Hno.
    set (s' := Get_query s) in *. unfold Get_request in Hreq.
    destruct (Request s' "GET" _ _ None) as [req0|e] eqn:HR; [|done].
    apply Request_RawQuery in HR as (u' & Hu' & HRaw).
    destruct (Transport s' _) as [[tr req1]|e] eqn:HT; [|done].
    injection Hreq as <- <-. apply Transport_request in HT as (-> & _ & _).
    unfold ValueStore. destruct (values (r s')) as [v|]; simpl; [done|].
    rewrite HRaw. by apply (Parse_no_query (URL (r s'))). }
  assert (∀ k, url.values_of (url.Query (http.URL req)) k = stored (Get_query s) k)
    as Hread.
  { intros k. unfold url.Query, stored. rewrite Hraw. apply ParseQuery_reads_Encode_aux. }
  split; [exact Hraw|]. split; [exact Hread|].
  intros Hno k. rewrite Hread. by rewrite (Get_query_no_mark s Hno).
Qed.

Lemma Get_query_read_back_witness :
  let s := Values_Add "a b" "x&y=z" (fresh_request "http://127.0.0.1/p?q=%3B") in
  ∃ req transport,
    Get_request (Get_query s) = Ok (req, transport) ∧
    url.RawQuery (http.URL req) = "a+b=x%26y%3Dz&q=%3B" ∧
    url.values_of (url.Query (http.URL req)) "a b" = ["x&y=z"] ∧
    url.values_of (url.Query (http.URL req)) "q" = [";"].
Proof.
  intros s.
  assert (∃ req transport, Get_request (Get_query s) = Ok (req, transport))
    as (req & transport & Hreq) by (vm_compute; eauto).
  exists req, transport. split; [exact Hreq|].
  destruct (Get_query_read_back s req transport Hreq) as (Hraw & Hread & _).
  rewrite Hraw, !Hread. clear. vm_compute. repeat split; reflexivity.
Defined.

(** ** [JSON] followed by [Submit] *)

Lemma import_makes_store (m : gmap string string) s :
  values (r (map_fold (λ k v s, Values_Add k v s) s m)) = None ↔
  values (r s) = None ∧ m = ∅.
Proof.
  apply (map_fold_weak_ind (λ s' (m : gmap string string),
           values (r s') = None ↔ values (r s) = None ∧ m = ∅)).
  - split; [done | by intros [? _]].
  - intros i x m' s' Hi IH. rewrite Values_Add_spec. simpl. split; [done|].
    intros [_ Hempty]. by apply insert_non_empty in Hempty.
Qed.

Lemma JSON_state j m s :
  json.Unmarshal j = Ok m →
  let s1 := (JSON j s).2 in
  (values (r s1) = None ↔ values (r s) = None ∧ m = ∅) ∧
  (∀ k, stored s1 k = stored s k ++ option_list (m !! k)) ∧
  content_type s1 = "application/json".
Proof.
  intros Hm. unfold JSON. rewrite Hm. simpl.
  pose proof (import_spec m s) as [_ Hstored]. simpl in Hstored.
  pose proof (import_makes_store m s) as Hnone.
  set (s0 := map_fold _ s m) in *.
  pose proof (Header_Add_spec "Content-Type" "application/json" s0)
    as (Hv & _ & _ & _ & Hct). simpl in Hv, Hct.
  split; [by rewrite Hv|]. split; [|exact Hct].
  intros k. by rewrite Header_Add_stored.
Qed.

(** X18.  [Submit] after a successful [JSON]: the [Content-Type] stays
    [application/json]; when the decoded object has a member, or values
    were stored before, the body is the JSON text of the value store,
    which holds for every key the values it had followed by the value
    the object gave it; when the object has no member (also for [null])
    and nothing was stored, the request has no body at all, and not the
    text of an empty object. *)
Theorem JSON_then_Submit
    (method j : string) (m : gmap string string) (s s' : State)
    (req : http.Request) (transport : http.Transport) :
  json.Unmarshal j = Ok m →
  Submit_request method (JSON j s).2 = (Ok (req, transport), s') →
  content_type s' = "application/json" ∧
  (m ≠ ∅ ∨ values (r s) ≠ None →
   ∃ v, values (r s') = Some v ∧
        (∀ k, url.values_of v k = stored s k ++ option_list (m !! k)) ∧
        http.ReqBody req = http.body_of (io.bytes_Buffer (json.Marshal v))) ∧
  (m = ∅ → values (r s) = None → http.ReqBody req = http.body_nil).
Proof.
  intros Hm Hsub.
  pose proof (JSON_state j m s Hm) as (Hnone & Hstored & Hct1). simpl in *.
  set (s1 := (JSON j s).2) in *.
  pose proof (Submit_request_body method s1 req transport s' Hsub) as (Hv & Hct & Hbody).
  rewrite Hct1 in Hct. simpl in Hct.
  split; [exact Hct|].
  unfold Submit_data in Hbody. fold (content_type s') in Hbody.
  rewrite Hct, Hv in Hbody. simpl in Hbody.
  split.
  - intros Hsome. destruct (values (r s1)) as [v|] eqn:Hv1.
    + exists v. split; [done|]. split; [|exact Hbody].
      intros k. rewrite <- Hstored. unfold stored, ValueStore. by rewrite Hv1.
    + destruct Hnone as [Hnone _]. destruct (Hnone eq_refl) as [? ?].
      by destruct Hsome.
  - intros Hempty Hnil. destruct Hnone as [_ Hnone].
    by rewrite (Hnone (conj Hnil Hempty)) in Hbody.
Qed.

Lemma JSON_then_Submit_witness :
  let s := Values_Add "key" "old" (fresh_request "http://127.0.0.1/") in
  let j := json_text "{'key':'value','n':null}" in
  (∃ req transport s',
     Submit_request "POST" (JSON j s).2 = (Ok (req, transport), s') ∧
     content_type s' = "application/json" ∧
     http.ReqBody req =
       http.body_of (io.bytes_Buffer (json_text "{'key':['old','value'],'n':['']}"))) ∧
  (∃ req transport s',
     Submit_request "POST" (JSON "{}" (fresh_request "http://127.0.0.1/")).2
     = (Ok (req, transport), s') ∧
     http.ReqBody req = http.body_nil).
Proof.
  intros s j. split.
  - assert (∃ req transport s',
              Submit_request "POST" (JSON j s).2 = (Ok (req, transport), s'))
      as (req & transport & s' & Hsub) by (vm_compute; eauto).
    exists req, transport, s'. split; [exact Hsub|].
    set (m := <["key" := "value"]> ({["n" := ""]} : gmap string string)).
    assert (json.Unmarshal j = Ok m) as Hm by (vm_compute; reflexivity).
    destruct (JSON_then_Submit "POST" j m s s' req transport Hm Hsub)
      as (Hct & Hbody & _).
    split; [exact Hct|].
    destruct Hbody as (v & Hv & _ & ->).
    { left. clear. intros H. apply (f_equal (λ m : gmap string string, m !! "n")) in H.
      vm_compute in H. discriminate. }
    assert (values (r s') = values (r (JSON j s).2)) as Hv'.
    { clear -Hsub. apply (Submit_request_body _ _ _ _ _ Hsub). }
    rewrite Hv' in Hv. clear -Hv. vm_compute in Hv. injection Hv as <-.
    vm_compute. reflexivity.
  - set (s0 := fresh_request "http://127.0.0.1/").
    assert (∃ req transport s',
              Submit_request "POST" (JSON "{}" s0).2 = (Ok (req, transport), s'))
      as (req & transport & s' & Hsub) by (vm_compute; eauto).
    exists req, transport, s'. split; [exact Hsub|].
    assert (json.Unmarshal "{}" = Ok ∅) as Hm by (vm_compute; reflexivity).
    by destruct (JSON_then_Submit "POST" "{}" ∅ s0 s' req transport Hm Hsub)
      as (_ & _ & ->).
Defined.

(** ** The query-merge step on a URL that does not parse *)

Lemma Get_request_no_mark s req transport :
  byte_in "?" (URL (r s)) = false →
  Get_request s = Ok (req, transport) →
  url.RawQuery (http.URL req) = url.Encode (ValueStore s).
Proof.
  intros Hno Hreq. unfold Get_request in Hreq.
  destruct (Request s "GET" _ _ None) as [req0|e] eqn:HR; [|done].
  apply Request_RawQuery in HR as (u' & Hu' & HRaw).
  destruct (Transport s _) as [[tr req1]|e] eqn:HT; [|done].
  injection Hreq as <- <-. apply Transport_request in HT as (-> & _ & _).
  unfold ValueStore. destruct (values (r s)) as [v|]; simpl; [done|].
  rewrite HRaw. by apply (Parse_no_query (URL (r s))).
Qed.

Lemma Submit_request_no_mark method s req transport :
  byte_in "?" (URL (r s)) = false →
  (Submit_request method s).1 = Ok (req, transport) →
  url.RawQuery (http.URL req) = "".
Proof.
  intros Hno Hsub. unfold Submit_request in Hsub.
  rewrite (Submit_query_no_mark s Hno) in Hsub.
  pose proof (Submit_content_type_spec s) as (_ & HU2 & _). simpl in HU2.
  set (s2 := Submit_content_type s) in *.
  destruct (Request s2 method _ _ _) as [req0|e] eqn:HR; [|done].
  destruct (Transport s2 _) as [[tr req1]|e] eqn:HT; [|done].
  simpl in Hsub. injection Hsub as <- <-.
  apply Transport_request in HT as (-> & _ & _). simpl.
  apply Request_RawQuery in HR as (u' & Hu' & ->). rewrite HU2 in Hu'.
  by apply (Parse_no_query (URL (r s))).
Qed.

(** With a URL that parses and a method that is a token, [Request]
    returns a request. *)
Lemma Request_builds s method username password data u :
  url.Parse (URL (r s)) = Ok u →
  http.validMethod (if String.eqb method "" then "GET" else method) = true →
  ∃ req, Request s method username password data = Ok req.
Proof.
  intros Hu Hvalid. unfold Request, http.NewRequest. rewrite Hvalid, Hu. simpl.
  destruct data as [rd|]; [destruct (io.Len rd =? 0)|]; eauto.
Qed.

(** Without a proxy, [Transport] returns a transport. *)
Lemma Transport_builds s req :
  Proxy.URL (Proxy (r s)) = "" →
  ∃ transport, Transport s req = Ok (transport, req).
Proof.
  intros Hproxy. unfold Transport. rewrite Hproxy. simpl.
  destruct ((gostrings.Index (URL (r s)) "https://" =? 0) && Insecure (r s)); eauto.
Qed.

(** C10.  When the URL holds a [?] and does not parse, the query-merge
    step raises no error and all it does is to cut the URL at the [?].
    After [Get] the configuration is the one before the call with the
    URL cut: the value store is as it was, so the pairs of the inline
    query are in no store, and the raw query of the request is the
    encoding of that store alone.  After [Submit] the URL is cut and the
    value store is as it was too, and the request has an empty raw query.
    Both calls hand to [Send] the request of the truncated URL, and they
    reach [Send] whenever the truncated URL parses, the method is a
    token and no proxy is set: the failure of the first parse is
    returned nowhere. *)
Theorem parse_failure_is_swallowed
    (Do : http.Client → http.Request → result string http.Response)
    (s : State) (pre post : string) (e : url.Error) :
  URL (r s) = pre +:+ "?" +:+ post →
  byte_in "?" pre = false →
  url.Parse (URL (r s)) = Fail e →
  let s' := set_URL s pre in
  (Get_query s = s' ∧ Submit_query s = ("", s')) ∧
  ((Get Do s).2 = s' ∧ URL (r (Get Do s).2) = pre ∧
   values (r (Get Do s).2) = values (r s)) ∧
  (∀ req transport,
     Get_request s' = Ok (req, transport) →
     url.RawQuery (http.URL req) = url.Encode (ValueStore s) ∧
     Get Do s = (Send Do s' req transport, s')) ∧
  (∀ u, url.Parse pre = Ok u → Proxy.URL (Proxy (r s)) = "" →
     ∃ req transport,
       Get Do s = (Send Do s' req transport, s') ∧
       url.RawQuery (http.URL req) = url.Encode (ValueStore s)) ∧
  ∀ method,
    let s2 := (Submit Do method s).2 in
    (URL (r s2) = pre ∧ values (r s2) = values (r s)) ∧
    (∀ req transport,
       (Submit_request method s).1 = Ok (req, transport) →
       url.RawQuery (http.URL req) = "" ∧
       Submit Do method s = (Send Do s2 req transport, s2)) ∧
    (∀ u, url.Parse pre = Ok u → Proxy.URL (Proxy (r s)) = "" →
       http.validMethod (if String.eqb method "" then "GET" else method) = true →
       ∃ req transport,
         Submit Do method s = (Send Do s2 req transport, s2) ∧
         url.RawQuery (http.URL req) = "").
Proof.
  intros HURL Hpre Hparse s'.
  pose proof (Get_query_parse_failure s pre post e HURL Hpre Hparse) as HG.
  pose proof (Submit_query_parse_failure s pre post e HURL Hpre Hparse) as HS.
  fold s' in HG, HS.
  assert (byte_in "?" (URL (r s')) = false) as Hno by done.
  assert (∀ req transport,
            Get_request s' = Ok (req, transport) →
            url.RawQuery (http.URL req) = url.Encode (ValueStore s) ∧
            Get Do s = (Send Do s' req transport, s')) as HGet.
  { intros req transport Hreq. split.
    - by rewrite (Get_request_no_mark s' req transport Hno Hreq).
    - rewrite Get_unfold, HG. by rewrite Hreq. }
  split; [done|]. split; [by rewrite Get_state, HG|]. split; [exact HGet|].
  split.
  - intros u Hu Hproxy.
    destruct (Request_builds s' "GET" (Username (r s')) (Password (r s')) None u Hu eq_refl)
      as [req0 HR].
    set (req1 := match values (r s') with
                 | Some v => http.set_RawQuery req0 (url.Encode v)
                 | None => req0
                 end).
    destruct (Transport_builds s' req1 Hproxy) as [transport HT].
    assert (Get_request s' = Ok (req1, transport)) as Hreq.
    { unfold Get_request. rewrite HR. fold req1. by rewrite HT. }
    exists req1, transport. destruct (HGet req1 transport Hreq). done.
  - intros method s2.
    assert (Submit_request method s = Submit_request method s') as Hsame.
    { unfold Submit_request. rewrite HS. by rewrite (Submit_query_no_mark s' Hno). }
    pose proof (Submit_request_config method s) as (_ & _ & _ & _ & _ & Hv & HU).
    simpl in Hv, HU. rewrite HS in HU. simpl in HU.
    assert (s2 = (Submit_request method s).2) as Hs2 by apply Submit_state.
    assert (∀ req transport,
              (Submit_request method s).1 = Ok (req, transport) →
              url.RawQuery (http.URL req) = "" ∧
              Submit Do method s = (Send Do s2 req transport, s2)) as HSub.
    { intros req transport Hsub. split.
      - rewrite Hsame in Hsub. by apply (Submit_request_no_mark method s' req transport).
      - rewrite Submit_unfold, Hsub. by rewrite Hs2. }
    split; [by rewrite Hs2|]. split; [exact HSub|].
    intros u Hu Hproxy Hvalid.
    pose proof (Submit_request_state method s) as Hstate. rewrite HS in Hstate.
    simpl in Hstate.
    pose proof (Submit_content_type_config s') as (_ & _ & _ & _ & HP & HU3 & _).
    simpl in HP, HU3.
    set (s3 := Submit_content_type s') in *.
    destruct (Request_builds s3 method (Username (r s3)) (Password (r s3))
                (Submit_data s3) u) as [req0 HR]; [by rewrite HU3 | done |].
    destruct (Transport_builds s3 req0) as [transport HT]; [by rewrite HP|].
    assert ((Submit_request method s).1 = Ok (req0, transport)) as Hsub.
    { unfold Submit_request. rewrite HS. fold s3. rewrite HR. simpl.
      by rewrite HT. }
    exists req0, transport. destruct (HSub req0 transport Hsub). done.
Qed.

Lemma parse_failure_is_swallowed_witness :
  let Do := answers 200 "200 OK" "SUCCESS" in
  let s := Values_Add "key" "value" (fresh_request "http://h/p?a=b#%zz") in
  let s' := Values_Add "key" "value" (fresh_request "http://h/p") in
  (Get Do s).2 = s' ∧
  stored (Get Do s).2 "a" = [] ∧
  (∃ req transport,
     Get Do s = (Send Do s' req transport, s') ∧
     url.RawQuery (http.URL req) = "key=value") ∧
  out_error (Get Do s).1 = None ∧
  URL (r (Submit Do "POST" s).2) = "http://h/p" ∧
  ∃ req transport,
    Submit Do "POST" s
    = (Send Do (Submit Do "POST" s).2 req transport, (Submit Do "POST" s).2) ∧
    url.RawQuery (http.URL req) = "".
Proof.
  intros Do s s'.
  destruct (parse_failure_is_swallowed Do s "http://h/p" "a=b#%zz"
              (url.mkError "parse" "http://h/p?a=b#%zz" (url.EscapeError "%zz"))
              eq_refl eq_refl eq_refl)
    as (_ & (HG & _ & Hv) & _ & HGet & HSubmit).
  destruct (HSubmit "POST") as ((HU & _) & _ & HSub).
  assert (∃ u, url.Parse "http://h/p" = Ok u) as [u Hu] by (vm_compute; eauto).
  split; [exact HG|].
  split; [unfold stored, ValueStore; rewrite Hv; clear; vm_compute; reflexivity|].
  destruct (HGet u Hu eq_refl) as (req & transport & H1 & H2).
  split; [|split; [|split; [exact HU|]]].
  - exists req, transport. split; [exact H1|]. rewrite H2. clear. vm_compute. reflexivity.
  - rewrite H1. clear. vm_compute. reflexivity.
  - destruct (HSub u Hu eq_refl eq_refl) as (req' & transport' & H3 & H4).
    exists req', transport'. split; [exact H3 | exact H4].
Defined.

(** ** [json.Unmarshal]: the texts that are read *)

(** *** The scanner on the accepted texts *)

Lemma is_ws_isSpace c : json.isSpace c = is_ws c.
Proof. destruct c as [[] [] [] [] [] [] [] []]; vm_compute; reflexivity. Qed.

Lemma scan_app s a b : json.scan s (a +:+ b) = json.scan (json.scan s a) b.
Proof. revert s. induction a as [|c a IH]; intros s; [done|]. apply IH. Qed.

Lemma scan_cons s c d : json.scan s (String c d) = json.scan (json.run_step s c) d.
Proof. reflexivity. Qed.

Lemma scan_error e st data :
  json.eof_ok (json.scan (json.mkScanner json.stateError e st) data) = false.
Proof. induction data as [|c d IH]; [done|]. exact IH. Qed.

Lemma not_accepts_error e st data : ¬ accepts (json.mkScanner json.stateError e st) data.
Proof. unfold accepts. by rewrite scan_error. Qed.

Ltac listed := solve [repeat constructor].

Lemma run_step_space st e stack c :
  skips_spaces st stack = true → is_ws c = true →
  json.run_step (json.mkScanner st e stack) c = json.mkScanner st e stack.
Proof.
  intros Hst Hc. rewrite <- is_ws_isSpace in Hc.
  destruct st; try done; unfold json.run_step; cbn [json.step];
    unfold json.do_stateBeginValue, json.do_stateBeginString, json.do_stateEndTop,
           json.do_stateEndValue, json.goto;
    cbn [json.step json.endTop json.parseState]; rewrite ?Hc; try done.
  by destruct stack.
Qed.

Lemma scan_spaces st e stack w d :
  skips_spaces st stack = true → spaces w = true →
  json.scan (json.mkScanner st e stack) (w +:+ d)
  = json.scan (json.mkScanner st e stack) d.
Proof.
  intros Hst. induction w as [|c w IH]; [done|].
  intros [Hc Hw]%andb_prop. rewrite append_cons, scan_cons.
  rewrite run_step_space by done. by apply IH.
Qed.

Lemma literal_body_plain c b :
  plain_byte c = true → literal_body (String c b) = literal_body b.
Proof.
  unfold plain_byte. intros [[H1 H2]%andb_prop H3]%andb_prop.
  apply negb_true_iff in H1, H2, H3. simpl. by rewrite H1, H2, H3.
Qed.

Lemma literal_body_bslash e b :
  literal_body (String bslash (String e b)) =
    if escape_letter e then literal_body b
    else if Ascii.eqb e "u" then
      match b with
      | String h1 (String h2 (String h3 (String h4 rest2))) =>
          url.ishex h1 && url.ishex h2 && url.ishex h3 && url.ishex h4
          && literal_body rest2
      | _ => false
      end
    else false.
Proof. reflexivity. Qed.

Lemma literal_body_escape e b :
  escape_letter e = true →
  literal_body (String bslash (String e b)) = literal_body b.
Proof. intros He. by rewrite literal_body_bslash, He. Qed.

Lemma literal_body_u h1 h2 h3 h4 b :
  url.ishex h1 && url.ishex h2 && url.ishex h3 && url.ishex h4 = true →
  literal_body (String bslash (String "u" (String h1 (String h2 (String h3 (String h4 b))))))
  = literal_body b.
Proof.
  intros Hhex.
  change (literal_body (String bslash (String "u" (String h1 (String h2 (String h3 (String h4 b)))))))
    with (url.ishex h1 && url.ishex h2 && url.ishex h3 && url.ishex h4 && literal_body b).
  by rewrite Hhex.
Qed.

(** Induction over the bodies of string literals. *)
Lemma literal_body_ind (P : string → Prop) :
  P "" →
  (∀ c b, plain_byte c = true → literal_body b = true → P b → P (String c b)) →
  (∀ e b, escape_letter e = true → literal_body b = true → P b →
     P (String bslash (String e b))) →
  (∀ h1 h2 h3 h4 b,
     url.ishex h1 && url.ishex h2 && url.ishex h3 && url.ishex h4 = true →
     literal_body b = true → P b →
     P (String bslash (String "u" (String h1 (String h2 (String h3 (String h4 b))))))) →
  ∀ b, literal_body b = true → P b.
Proof.
  intros Hnil Hplain Hesc Hu b.
  remember (String.length b) as n eqn:Hn. revert b Hn.
  induction n as [n IH] using lt_wf_ind. intros b Hn Hb.
  destruct b as [|c rest]; [done|].
  destruct (Ascii.eqb c bslash) eqn:Hc.
  - apply Ascii.eqb_eq in Hc as ->.
    destruct rest as [|e rest1]; [done|].
    destruct (escape_letter e) eqn:He.
    + rewrite literal_body_escape in Hb by done.
      apply Hesc; [done..|]. apply (IH (String.length rest1)); [simpl in Hn; lia|done..].
    + rewrite literal_body_bslash, He in Hb.
      destruct (Ascii.eqb_spec e "u") as [->|]; [|done].
      destruct rest1 as [|h1 [|h2 [|h3 [|h4 rest2]]]]; try done.
      apply andb_prop in Hb as [Hhex Hb].
      apply Hu; [done..|]. apply (IH (String.length rest2)); [simpl in Hn; lia|done..].
  - assert (plain_byte c = true) as Hpl.
    { unfold plain_byte. rewrite Hc. simpl in Hb. rewrite Hc in Hb.
      destruct (Ascii.eqb c dquote); [done|]. by destruct (byte_val c <? 32)%N. }
    rewrite literal_body_plain in Hb by done.
    apply Hplain; [done..|]. apply (IH (String.length rest)); [simpl in Hn; lia|done..].
Qed.

Lemma run_step_plain e stack c :
  plain_byte c = true →
  json.run_step (json.mkScanner json.stateInString e stack) c
  = json.mkScanner json.stateInString e stack.
Proof.
  unfold plain_byte. intros [[H1 H2]%andb_prop H3]%andb_prop.
  apply negb_true_iff in H1, H2, H3.
  unfold json.run_step. cbn [json.step]. by rewrite H1, H2, H3.
Qed.

Lemma run_step_escape e stack c d :
  escape_letter c = true →
  json.scan (json.mkScanner json.stateInString e stack) (String bslash (String c d))
  = json.scan (json.mkScanner json.stateInString e stack) d.
Proof.
  unfold escape_letter. intros Hc. rewrite scan_cons.
  assert (json.run_step (json.mkScanner json.stateInString e stack) bslash
          = json.mkScanner json.stateInStringEsc e stack) as -> by reflexivity.
  rewrite scan_cons. unfold json.run_step. cbn [json.step]. by rewrite Hc.
Qed.

Lemma run_step_hex st next e stack h :
  (st, next) ∈ [(json.stateInStringEscU, json.stateInStringEscU1);
                (json.stateInStringEscU1, json.stateInStringEscU12);
                (json.stateInStringEscU12, json.stateInStringEscU123);
                (json.stateInStringEscU123, json.stateInString)] →
  json.run_step (json.mkScanner st e stack) h
  = if url.ishex h then json.mkScanner next e stack
    else json.mkScanner json.stateError e stack.
Proof.
  rewrite !elem_of_cons, elem_of_nil.
  intros [[= -> ->]|[[= -> ->]|[[= -> ->]|[[= -> ->]|[]]]]]; reflexivity.
Qed.

Lemma run_step_u e stack h1 h2 h3 h4 d :
  url.ishex h1 && url.ishex h2 && url.ishex h3 && url.ishex h4 = true →
  json.scan (json.mkScanner json.stateInString e stack)
    (String bslash (String "u" (String h1 (String h2 (String h3 (String h4 d))))))
  = json.scan (json.mkScanner json.stateInString e stack) d.
Proof.
  intros [[[H1 H2]%andb_prop H3]%andb_prop H4]%andb_prop.
  rewrite scan_cons.
  assert (json.run_step (json.mkScanner json.stateInString e stack) bslash
          = json.mkScanner json.stateInStringEsc e stack) as -> by reflexivity.
  rewrite scan_cons.
  assert (json.run_step (json.mkScanner json.stateInStringEsc e stack) "u"
          = json.mkScanner json.stateInStringEscU e stack) as -> by reflexivity.
  rewrite scan_cons, (run_step_hex _ json.stateInStringEscU1), H1 by listed.
  rewrite scan_cons, (run_step_hex _ json.stateInStringEscU12), H2 by listed.
  rewrite scan_cons, (run_step_hex _ json.stateInStringEscU123), H3 by listed.
  rewrite scan_cons, (run_step_hex _ json.stateInString), H4 by listed.
  done.
Qed.

(** The body of a literal and its closing quote lead from inside the
    string to the end of the value. *)
Lemma scan_literal e stack b d :
  literal_body b = true →
  json.scan (json.mkScanner json.stateInString e stack) (b +:+ String dquote d)
  = json.scan (json.mkScanner json.stateEndValue e stack) d.
Proof.
  revert b. apply literal_body_ind.
  - done.
  - intros c b Hc _ IH. by rewrite append_cons, scan_cons, run_step_plain.
  - intros c b Hc _ IH. by rewrite !append_cons, run_step_escape.
  - intros h1 h2 h3 h4 b Hhex _ IH. by rewrite !append_cons, run_step_u.
Qed.

(** *** What the scanner accepts *)

Lemma accepts_cons s c d : accepts s (String c d) ↔ accepts (json.run_step s c) d.
Proof. done. Qed.

Lemma accepts_in_string_end st stack :
  st ∈ [json.stateInString; json.stateInStringEsc; json.stateInStringEscU;
        json.stateInStringEscU1; json.stateInStringEscU12; json.stateInStringEscU123] →
  ¬ accepts (json.mkScanner st false stack) "".
Proof.
  rewrite !elem_of_cons, elem_of_nil.
  intros [->|[->|[->|[->|[->|[->|[]]]]]]]; by cbv.
Qed.

Lemma run_step_in_string e stack c :
  json.run_step (json.mkScanner json.stateInString e stack) c =
    if Ascii.eqb c dquote then json.mkScanner json.stateEndValue e stack
    else if Ascii.eqb c bslash then json.mkScanner json.stateInStringEsc e stack
    else if (byte_val c <? 32)%N then json.mkScanner json.stateError e stack
    else json.mkScanner json.stateInString e stack.
Proof. reflexivity. Qed.

Lemma run_step_esc e stack c :
  json.run_step (json.mkScanner json.stateInStringEsc e stack) c =
    if escape_letter c then json.mkScanner json.stateInString e stack
    else if Ascii.eqb c "u" then json.mkScanner json.stateInStringEscU e stack
    else json.mkScanner json.stateError e stack.
Proof. reflexivity. Qed.

(** Inside a string the scanner accepts only the body of a literal, its
    closing quote and what it accepts after the value. *)
Lemma accepts_in_string stack data :
  accepts (json.mkScanner json.stateInString false stack) data →
  ∃ b d, data = b +:+ String dquote d ∧ literal_body b = true ∧
         accepts (json.mkScanner json.stateEndValue false stack) d.
Proof.
  remember (String.length data) as n eqn:Hn. revert data Hn.
  induction n as [n IH] using lt_wf_ind. intros data Hn Hacc.
  destruct data as [|c rest].
  { by apply accepts_in_string_end in Hacc; [|listed]. }
  rewrite accepts_cons, run_step_in_string in Hacc.
  destruct (Ascii.eqb_spec c dquote) as [->|Hq].
  { by exists "", rest. }
  destruct (Ascii.eqb_spec c bslash) as [->|Hb].
  - destruct rest as [|e rest1].
    { by apply accepts_in_string_end in Hacc; [|listed]. }
    rewrite accepts_cons, run_step_esc in Hacc.
    destruct (escape_letter e) eqn:He.
    + destruct (IH (String.length rest1)) with (data := rest1)
        as (b & d & -> & Hbody & Hd); [simpl in Hn; lia|done..|].
      exists (String bslash (String e b)), d.
      split; [done|]. by rewrite literal_body_escape.
    + destruct (Ascii.eqb_spec e "u") as [->|Hu];
        [|by apply not_accepts_error in Hacc].
      destruct rest1 as [|h1 rest1].
      { by apply accepts_in_string_end in Hacc; [|listed]. }
      rewrite accepts_cons, (run_step_hex _ json.stateInStringEscU1) in Hacc by listed.
      destruct (url.ishex h1) eqn:H1; [|by apply not_accepts_error in Hacc].
      destruct rest1 as [|h2 rest1].
      { by apply accepts_in_string_end in Hacc; [|listed]. }
      rewrite accepts_cons, (run_step_hex _ json.stateInStringEscU12) in Hacc by listed.
      destruct (url.ishex h2) eqn:H2; [|by apply not_accepts_error in Hacc].
      destruct rest1 as [|h3 rest1].
      { by apply accepts_in_string_end in Hacc; [|listed]. }
      rewrite accepts_cons, (run_step_hex _ json.stateInStringEscU123) in Hacc by listed.
      destruct (url.ishex h3) eqn:H3; [|by apply not_accepts_error in Hacc].
      destruct rest1 as [|h4 rest1].
      { by apply accepts_in_string_end in Hacc; [|listed]. }
      rewrite accepts_cons, (run_step_hex _ json.stateInString) in Hacc by listed.
      destruct (url.ishex h4) eqn:H4; [|by apply not_accepts_error in Hacc].
      destruct (IH (String.length rest1)) with (data := rest1)
        as (b & d & -> & Hbody & Hd); [simpl in Hn; lia|done..|].
      exists (String bslash (String "u" (String h1 (String h2 (String h3 (String h4 b)))))), d.
      split; [done|]. rewrite literal_body_u; [done|]. by rewrite H1, H2, H3, H4.
  - destruct (byte_val c <? 32)%N eqn:Hlow; [by apply not_accepts_error in Hacc|].
    destruct (IH (String.length rest)) with (data := rest)
      as (b & d & -> & Hbody & Hd); [simpl in Hn; lia|done..|].
    exists (String c b), d. split; [done|].
    rewrite literal_body_plain; [done|]. unfold plain_byte.
    apply Ascii.eqb_neq in Hq, Hb. by rewrite Hq, Hb, Hlow.
Qed.

Lemma run_step_expect st want next e stack c :
  (st, want, next) ∈ [(json.stateN, "u"%char, json.stateNu);
                      (json.stateNu, "l"%char, json.stateNul);
                      (json.stateNul, "l"%char, json.stateEndValue)] →
  json.run_step (json.mkScanner st e stack) c
  = if Ascii.eqb c want then json.mkScanner next e stack
    else json.mkScanner json.stateError e stack.
Proof.
  rewrite !elem_of_cons, elem_of_nil.
  intros [[= -> -> ->]|[[= -> -> ->]|[[= -> -> ->]|[]]]]; reflexivity.
Qed.

Lemma accepts_in_null_end st stack :
  st ∈ [json.stateN; json.stateNu; json.stateNul] →
  ¬ accepts (json.mkScanner st false stack) "".
Proof.
  rewrite !elem_of_cons, elem_of_nil. intros [->|[->|[->|[]]]]; by cbv.
Qed.

Lemma scan_null e stack d :
  json.scan (json.mkScanner json.stateN e stack) ("ull" +:+ d)
  = json.scan (json.mkScanner json.stateEndValue e stack) d.
Proof. reflexivity. Qed.

(** After an [n] the scanner accepts only the rest of [null]. *)
Lemma accepts_null stack data :
  accepts (json.mkScanner json.stateN false stack) data →
  ∃ d, data = "ull" +:+ d ∧ accepts (json.mkScanner json.stateEndValue false stack) d.
Proof.
  intros Hacc.
  destruct data as [|c1 data].
  { by apply accepts_in_null_end in Hacc; [|listed]. }
  rewrite accepts_cons, (run_step_expect _ "u" json.stateNu) in Hacc by listed.
  destruct (Ascii.eqb_spec c1 "u") as [->|]; [|by apply not_accepts_error in Hacc].
  destruct data as [|c2 data].
  { by apply accepts_in_null_end in Hacc; [|listed]. }
  rewrite accepts_cons, (run_step_expect _ "l" json.stateNul) in Hacc by listed.
  destruct (Ascii.eqb_spec c2 "l") as [->|]; [|by apply not_accepts_error in Hacc].
  destruct data as [|c3 data].
  { by apply accepts_in_null_end in Hacc; [|listed]. }
  rewrite accepts_cons, (run_step_expect _ "l" json.stateEndValue) in Hacc by listed.
  destruct (Ascii.eqb_spec c3 "l") as [->|]; [|by apply not_accepts_error in Hacc].
  by exists data.
Qed.

(** Once the top-level value has ended the scanner accepts white space
    only. *)
Lemma accepts_end_top data :
  accepts (json.mkScanner json.stateEndTop true []) data ↔ spaces data = true.
Proof.
  induction data as [|c d IH]; [done|].
  rewrite accepts_cons. simpl. unfold json.run_step, json.do_stateEndTop.
  cbn [json.step]. rewrite is_ws_isSpace.
  destruct (is_ws c); simpl; [exact IH|].
  split; [|done]. intros H. by apply not_accepts_error in H.
Qed.

Lemma accepts_end_value_top data :
  accepts (json.mkScanner json.stateEndValue false []) data ↔ spaces data = true.
Proof.
  destruct data as [|c d]; [done|].
  rewrite accepts_cons. simpl.
  unfold json.run_step, json.do_stateEndValue, json.do_stateEndTop.
  cbn [json.step json.parseState]. rewrite is_ws_isSpace.
  destruct (is_ws c); simpl; [apply accepts_end_top|].
  split; [|done]. intros H. by apply not_accepts_error in H.
Qed.

(** Every text is white space followed by a text that does not start
    with white space. *)
Lemma leading_spaces data :
  ∃ w d, data = w +:+ d ∧ spaces w = true ∧
         match d with EmptyString => True | String c _ => is_ws c = false end.
Proof.
  induction data as [|c data (w & d & -> & Hw & Hd)]; [by exists "", ""|].
  destruct (is_ws c) eqn:Hc.
  - exists (String c w), d. split; [done|]. simpl. by rewrite Hc, Hw.
  - exists "", (String c (w +:+ d)). by rewrite Hc.
Qed.

(** *** The decoder on the accepted texts *)

Lemma ws_is_no_mark c :
  is_ws c = true →
  Ascii.eqb c ":" = false ∧ Ascii.eqb c "," = false ∧ Ascii.eqb c "}" = false.
Proof. destruct c as [[] [] [] [] [] [] [] []]; vm_compute; intros; done. Qed.

Lemma hex_is_plain h : url.ishex h = true → plain_byte h = true.
Proof. destruct h as [[] [] [] [] [] [] [] []]; vm_compute; intros; done. Qed.

Lemma read_spaces st k v m w d :
  st ∈ [json.atTop; json.atKeyOrEnd; json.atValue; json.atColon; json.atCommaOrEnd] →
  spaces w = true →
  json.read_map st k v m (w +:+ d) = json.read_map st k v m d.
Proof.
  intros Hst. induction w as [|c w IH]; [done|].
  intros [Hc Hw]%andb_prop. rewrite append_cons.
  destruct (ws_is_no_mark c Hc) as (H1 & H2 & H3).
  rewrite <- is_ws_isSpace in Hc.
  rewrite !elem_of_cons, elem_of_nil in Hst.
  destruct Hst as [->|[->|[->|[->|[->|[]]]]]]; simpl;
    rewrite ?Hc, ?H1, ?H2, ?H3; by apply IH.
Qed.

Lemma read_in_null_0 k v m d :
  json.read_map (json.inNull 0) k v m d = json.read_map json.atCommaOrEnd k v m d.
Proof. by destruct d. Qed.

Lemma read_plain_key k v m c d :
  plain_byte c = true →
  json.read_map (json.inKey false) k v m (String c d)
  = json.read_map (json.inKey false) (k +:+ String c "") v m d.
Proof.
  unfold plain_byte. intros [[H1 H2]%andb_prop _]%andb_prop.
  apply negb_true_iff in H1, H2. simpl. by rewrite H1, H2.
Qed.

Lemma read_plain_value k v m c d :
  plain_byte c = true →
  json.read_map (json.inValue false) k v m (String c d)
  = json.read_map (json.inValue false) k (v +:+ String c "") m d.
Proof.
  unfold plain_byte. intros [[H1 H2]%andb_prop _]%andb_prop.
  apply negb_true_iff in H1, H2. simpl. by rewrite H1, H2.
Qed.

Lemma read_escape_key k v m e d :
  json.read_map (json.inKey false) k v m (String bslash (String e d))
  = json.read_map (json.inKey false) (k +:+ String bslash (String e "")) v m d.
Proof. simpl. unfold json.snoc. by rewrite append_one. Qed.

Lemma read_escape_value k v m e d :
  json.read_map (json.inValue false) k v m (String bslash (String e d))
  = json.read_map (json.inValue false) k (v +:+ String bslash (String e "")) m d.
Proof. simpl. unfold json.snoc. by rewrite append_one. Qed.

Lemma append_assoc (a b c : string) : (a +:+ b) +:+ c = a +:+ (b +:+ c).
Proof. induction a as [|x a IH]; [done|]. by rewrite !append_cons, IH. Qed.

Lemma append_nil_r (a : string) : a +:+ "" = a.
Proof. induction a as [|x a IH]; [done|]. by rewrite append_cons, IH. Qed.

(** The decoder gathers the body of a key up to its closing quote. *)
Lemma read_key_literal v m d b :
  literal_body b = true →
  ∀ k, json.read_map (json.inKey false) k v m (b +:+ String dquote d)
       = json.read_map json.atColon (k +:+ b) v m d.
Proof.
  revert b. apply (literal_body_ind (λ b, ∀ k, _ = _)).
  - intros k. by rewrite append_nil_r.
  - intros c b Hc _ IH k.
    by rewrite append_cons, read_plain_key, IH, append_assoc.
  - intros e b He _ IH k.
    by rewrite !append_cons, read_escape_key, IH, append_assoc.
  - intros h1 h2 h3 h4 b Hhex _ IH k.
    apply andb_prop in Hhex as [[[H1%hex_is_plain H2%hex_is_plain]%andb_prop
                                  H3%hex_is_plain]%andb_prop H4%hex_is_plain].
    rewrite !append_cons, read_escape_key.
    rewrite !read_plain_key by done. rewrite IH. by rewrite !append_assoc.
Qed.

(** The decoder gathers the body of a value up to its closing quote and
    stores it under the key. *)
Lemma read_value_literal k m d b :
  literal_body b = true →
  ∀ v, json.read_map (json.inValue false) k v m (b +:+ String dquote d)
       = json.read_map json.atCommaOrEnd k (v +:+ b)
           (<[json.unquote k := json.unquote (v +:+ b)]> m) d.
Proof.
  revert b. apply (literal_body_ind (λ b, ∀ v, _ = _)).
  - intros v. by rewrite append_nil_r.
  - intros c b Hc _ IH v.
    by rewrite append_cons, read_plain_value, IH, append_assoc.
  - intros e b He _ IH v.
    by rewrite !append_cons, read_escape_value, IH, append_assoc.
  - intros h1 h2 h3 h4 b Hhex _ IH v.
    apply andb_prop in Hhex as [[[H1%hex_is_plain H2%hex_is_plain]%andb_prop
                                  H3%hex_is_plain]%andb_prop H4%hex_is_plain].
    rewrite !append_cons, read_escape_value.
    rewrite !read_plain_value by done. rewrite IH. by rewrite !append_assoc.
Qed.

(** *** A member, forwards *)

Lemma quoted_app b d : quoted b +:+ d = String dquote (b +:+ String dquote d).
Proof. unfold quoted. by rewrite append_cons, append_assoc. Qed.

Lemma member_text_app x d :
  member_text x +:+ d =
    lead x +:+ String dquote (mkey x +:+ String dquote
      (gap1 x +:+ String ":" (gap2 x +:+ (value_text (mvalue x) +:+ (trail x +:+ d))))).
Proof.
  unfold member_text, member_start. rewrite !append_assoc. by rewrite quoted_app.
Qed.

Lemma member_start_app x d :
  member_start x +:+ d =
    lead x +:+ String dquote (mkey x +:+ String dquote
      (gap1 x +:+ String ":" (gap2 x +:+ d))).
Proof.
  unfold member_start. rewrite !append_assoc. by rewrite quoted_app.
Qed.

Lemma member_ok_parts x :
  member_ok x = true →
  spaces (lead x) = true ∧ literal_body (mkey x) = true ∧ spaces (gap1 x) = true ∧
  spaces (gap2 x) = true ∧ from_option literal_body true (mvalue x) = true ∧
  spaces (trail x) = true.
Proof.
  unfold member_ok.
  by intros [[[[[? ?]%andb_prop ?]%andb_prop ?]%andb_prop ?]%andb_prop ?]%andb_prop.
Qed.

Lemma scan_value stack v d :
  from_option literal_body true v = true →
  json.scan (json.mkScanner json.stateBeginValue false stack) (value_text v +:+ d)
  = json.scan (json.mkScanner json.stateEndValue false stack) d.
Proof.
  destruct v as [b|]; cbn [value_text from_option]; intros Hb.
  - rewrite quoted_app, scan_cons.
    change (json.run_step (json.mkScanner json.stateBeginValue false stack) dquote)
      with (json.mkScanner json.stateInString false stack).
    by apply scan_literal.
  - reflexivity.
Qed.

Lemma scan_member st x d :
  st ∈ [json.stateBeginString; json.stateBeginStringOrEmpty] →
  member_ok x = true →
  json.scan (json.mkScanner st false [json.parseObjectKey]) (member_text x +:+ d)
  = json.scan (json.mkScanner json.stateEndValue false [json.parseObjectValue]) d.
Proof.
  intros Hst (Hlead & Hkey & Hgap1 & Hgap2 & Hval & Htrail)%member_ok_parts.
  rewrite member_text_app.
  assert (skips_spaces st [json.parseObjectKey] = true ∧
          json.run_step (json.mkScanner st false [json.parseObjectKey]) dquote
          = json.mkScanner json.stateInString false [json.parseObjectKey]) as [Hskip Hstep].
  { rewrite !elem_of_cons, elem_of_nil in Hst. by destruct Hst as [->|[->|[]]]. }
  rewrite scan_spaces by done. rewrite scan_cons, Hstep.
  rewrite scan_literal by done.
  rewrite scan_spaces by done. rewrite scan_cons.
  change (json.run_step (json.mkScanner json.stateEndValue false [json.parseObjectKey]) ":")
    with (json.mkScanner json.stateBeginValue false [json.parseObjectValue]).
  rewrite scan_spaces by done. rewrite scan_value by done.
  by rewrite scan_spaces.
Qed.

Lemma members_text_cons x y members :
  members_text (x :: y :: members)
  = member_text x +:+ String "," (members_text (y :: members)).
Proof. reflexivity. Qed.

Lemma scan_members st members w2 :
  st ∈ [json.stateBeginString; json.stateBeginStringOrEmpty] →
  members ≠ [] → forallb member_ok members = true →
  json.scan (json.mkScanner st false [json.parseObjectKey])
    (members_text members +:+ String "}" w2)
  = json.scan (json.mkScanner json.stateEndTop true []) w2.
Proof.
  intros Hst Hne. revert st Hst.
  induction members as [|x members IH]; [done|]. intros st Hst [Hx Hall]%andb_prop.
  destruct members as [|y members].
  - change (members_text [x]) with (member_text x).
    by rewrite scan_member.
  - rewrite members_text_cons, append_assoc, scan_member by done.
    rewrite append_cons, scan_cons.
    change (json.run_step (json.mkScanner json.stateEndValue false [json.parseObjectValue]) ",")
      with (json.mkScanner json.stateBeginString false [json.parseObjectKey]).
    apply IH; [done|listed|done].
Qed.

Lemma read_value k v m val d :
  from_option literal_body true val = true →
  json.read_map json.atValue k v m (value_text val +:+ d)
  = json.read_map json.atCommaOrEnd k
      (match val with Some b => b | None => v end)
      (<[json.unquote k := from_option json.unquote "" val]> m) d.
Proof.
  destruct val as [b|]; cbn [value_text from_option]; intros Hb.
  - rewrite quoted_app.
    change (json.read_map json.atValue k v m (String dquote (b +:+ String dquote d)))
      with (json.read_map (json.inValue false) k "" m (b +:+ String dquote d)).
    by rewrite read_value_literal.
  - change (json.read_map json.atValue k v m ("null" +:+ d))
      with (json.read_map (json.inNull 0) k v (<[json.unquote k := ""]> m) d).
    apply read_in_null_0.
Qed.

Lemma read_member k v m x d :
  member_ok x = true →
  json.read_map json.atKeyOrEnd k v m (member_text x +:+ d)
  = json.read_map json.atCommaOrEnd (mkey x) (default "" (mvalue x))
      (<[(member_pair x).1 := (member_pair x).2]> m) d.
Proof.
  intros (Hlead & Hkey & Hgap1 & Hgap2 & Hval & Htrail)%member_ok_parts.
  rewrite member_text_app.
  rewrite read_spaces; [|listed|done].
  match goal with
  | |- json.read_map _ _ _ _ (String dquote ?rest) = _ =>
      change (json.read_map json.atKeyOrEnd k v m (String dquote rest))
        with (json.read_map (json.inKey false) "" "" m rest)
  end.
  rewrite read_key_literal by done.
  rewrite read_spaces; [|listed|done].
  match goal with
  | |- json.read_map _ ?k' ?v' _ (String ":" ?rest) = _ =>
      change (json.read_map json.atColon k' v' m (String ":" rest))
        with (json.read_map json.atValue k' v' m rest)
  end.
  rewrite read_spaces; [|listed|done].
  rewrite read_value by done.
  rewrite read_spaces; [|listed|done].
  unfold member_pair. simpl. by destruct (mvalue x).
Qed.

Lemma read_members k v m members w2 :
  members ≠ [] → forallb member_ok members = true →
  json.read_map json.atKeyOrEnd k v m (members_text members +:+ String "}" w2)
  = Ok (foldl (λ m x, <[(member_pair x).1 := (member_pair x).2]> m) m members).
Proof.
  intros Hne. revert k v m.
  induction members as [|x members IH]; [done|]. intros k v m [Hx Hall]%andb_prop.
  destruct members as [|y members].
  - change (members_text [x]) with (member_text x).
    by rewrite read_member.
  - rewrite members_text_cons, append_assoc, read_member by done.
    rewrite append_cons.
    match goal with
    | |- json.read_map _ ?k' ?v' ?m' (String "," ?rest) = _ =>
        change (json.read_map json.atCommaOrEnd k' v' m' (String "," rest))
          with (json.read_map json.atKeyOrEnd k' v' m' rest)
    end.
    by rewrite IH.
Qed.

(** Every accepted text is read, and gives the map of its members. *)
Lemma Unmarshal_reads j m : reads_as j m → json.Unmarshal j = Ok m.
Proof.
  intros [(w0 & w1 & Hw0 & Hw1 & -> & ->)
         |(w0 & w1 & members & w2 & Hw0 & Hw1 & Hall & Hw2 & -> & ->)].
  - unfold json.Unmarshal, json.checkValid, null_text.
    rewrite scan_spaces, read_spaces; [|listed|done..].
    change (json.scan (json.mkScanner json.stateBeginValue false []) ("null" +:+ w1))
      with (json.scan (json.mkScanner json.stateEndValue false []) w1).
    by apply accepts_end_value_top in Hw1 as ->.
  - unfold json.Unmarshal, json.checkValid, object_text.
    rewrite scan_spaces, read_spaces; [|listed|done..].
    rewrite !append_cons. rewrite scan_cons.
    change (json.run_step (json.mkScanner json.stateBeginValue false []) "{")
      with (json.mkScanner json.stateBeginStringOrEmpty false [json.parseObjectKey]).
    match goal with
    | |- context [json.read_map json.atTop ?k ?v ?m0 (String "{" ?rest)] =>
        change (json.read_map json.atTop k v m0 (String "{" rest))
          with (json.read_map json.atKeyOrEnd k v m0 rest)
    end.
    change ("" +:+ ?x) with x.
    destruct members as [|x members].
    + rewrite scan_spaces, read_spaces; [|listed|done..].
      change (json.scan (json.mkScanner json.stateBeginStringOrEmpty false
                [json.parseObjectKey]) (String "}" w2))
        with (json.scan (json.mkScanner json.stateEndTop true []) w2).
      by apply accepts_end_top in Hw2 as ->.
    + rewrite scan_members, read_members; [|done|done|listed|done|done].
      apply accepts_end_top in Hw2 as ->. done.
Qed.

(** *** A member, backwards *)

Lemma accepts_spaces st stack w d :
  skips_spaces st stack = true → spaces w = true →
  accepts (json.mkScanner st false stack) (w +:+ d) ↔
  accepts (json.mkScanner st false stack) d.
Proof. intros Hst Hw. unfold accepts. by rewrite scan_spaces. Qed.

Lemma run_step_begin_string st stack c :
  st ∈ [json.stateBeginString; json.stateBeginStringOrEmpty] →
  is_ws c = false → c ≠ "}"%char →
  json.run_step (json.mkScanner st false stack) c =
    if Ascii.eqb c dquote then json.mkScanner json.stateInString false stack
    else json.mkScanner json.stateError false stack.
Proof.
  intros Hst Hc Hbrace. rewrite <- is_ws_isSpace in Hc.
  apply Ascii.eqb_neq in Hbrace.
  rewrite !elem_of_cons, elem_of_nil in Hst.
  destruct Hst as [->|[->|[]]]; unfold json.run_step, json.do_stateBeginString, json.goto,
    json.failed; cbn [json.step json.endTop json.parseState]; by rewrite Hc, ?Hbrace.
Qed.

Lemma run_step_after_key stack c :
  is_ws c = false →
  json.run_step (json.mkScanner json.stateEndValue false (json.parseObjectKey :: stack)) c =
    if Ascii.eqb c ":"
    then json.mkScanner json.stateBeginValue false (json.parseObjectValue :: stack)
    else json.mkScanner json.stateError false (json.parseObjectKey :: stack).
Proof.
  intros Hc. rewrite <- is_ws_isSpace in Hc.
  unfold json.run_step, json.do_stateEndValue, json.failed.
  cbn [json.step json.endTop json.parseState]. by rewrite Hc.
Qed.

Lemma run_step_after_value c :
  is_ws c = false →
  json.run_step (json.mkScanner json.stateEndValue false [json.parseObjectValue]) c =
    if Ascii.eqb c ","
    then json.mkScanner json.stateBeginString false [json.parseObjectKey]
    else if Ascii.eqb c "}" then json.mkScanner json.stateEndTop true []
    else json.mkScanner json.stateError false [json.parseObjectValue].
Proof.
  intros Hc. rewrite <- is_ws_isSpace in Hc.
  unfold json.run_step, json.do_stateEndValue, json.failed.
  cbn [json.step json.endTop json.parseState]. by rewrite Hc.
Qed.

Lemma read_at_value k v m c d :
  is_ws c = false →
  json.read_map json.atValue k v m (String c d) =
    if Ascii.eqb c dquote then json.read_map (json.inValue false) k "" m d
    else if Ascii.eqb c "n"
    then json.read_map (json.inNull 3) k v (<[json.unquote k := ""]> m) d
    else Fail (json.UnmarshalTypeError (json.kind_of c)).
Proof. intros Hc. rewrite <- is_ws_isSpace in Hc. simpl. by rewrite Hc. Qed.

Lemma read_after_value k v m c d :
  json.read_map json.atCommaOrEnd k v m (String c d) =
    if Ascii.eqb c "," then json.read_map json.atKeyOrEnd k v m d
    else if Ascii.eqb c "}" then Ok m
    else json.read_map json.atCommaOrEnd k v m d.
Proof. reflexivity. Qed.

Lemma accepts_awaiting_end st stack :
  st ∈ [json.stateBeginString; json.stateBeginStringOrEmpty; json.stateBeginValue] ∨
  st = json.stateEndValue ∧ stack ≠ [] →
  ¬ accepts (json.mkScanner st false stack) "".
Proof.
  rewrite !elem_of_cons, elem_of_nil.
  intros [[->|[->|[->|[]]]]|[-> Hstack]]; try by cbv.
  destruct stack; [done|]. by cbv.
Qed.

(** Where a key is awaited, the scanner and the decoder accept together
    one member only. *)
Lemma member_read_back data k v m0 m :
  accepts (json.mkScanner json.stateBeginString false [json.parseObjectKey]) data →
  json.read_map json.atKeyOrEnd k v m0 data = Ok m →
  ∃ x d,
    member_ok x = true ∧ data = member_text x +:+ d ∧
    match d with EmptyString => True | String c _ => is_ws c = false end ∧
    accepts (json.mkScanner json.stateEndValue false [json.parseObjectValue]) d ∧
    json.read_map json.atCommaOrEnd (mkey x) (default "" (mvalue x))
      (<[(member_pair x).1 := (member_pair x).2]> m0) d = Ok m.
Proof.
  intros Hacc Hread.
  destruct (leading_spaces data) as (w1 & d1 & -> & Hw1 & Hd1).
  rewrite accepts_spaces in Hacc by done.
  destruct d1 as [|c1 d1]; [by apply accepts_awaiting_end in Hacc; [|left; listed]|].
  assert (c1 = dquote) as ->.
  { rewrite accepts_cons in Hacc.
    destruct (Ascii.eqb_spec c1 "}") as [->|Hbrace].
    - by apply not_accepts_error in Hacc.
    - rewrite run_step_begin_string in Hacc; [|listed|done..].
      destruct (Ascii.eqb_spec c1 dquote); [done|]. by apply not_accepts_error in Hacc. }
  rewrite accepts_cons in Hacc.
  change (json.run_step (json.mkScanner json.stateBeginString false [json.parseObjectKey]) dquote)
    with (json.mkScanner json.stateInString false [json.parseObjectKey]) in Hacc.
  apply accepts_in_string in Hacc as (kb & d2 & -> & Hkb & Hacc).
  destruct (leading_spaces d2) as (w2 & d3 & -> & Hw2 & Hd3).
  rewrite accepts_spaces in Hacc by done.
  destruct d3 as [|c3 d3];
    [by apply accepts_awaiting_end in Hacc; [|right]|].
  rewrite accepts_cons, run_step_after_key in Hacc by done.
  destruct (Ascii.eqb_spec c3 ":") as [->|]; [|by apply not_accepts_error in Hacc].
  destruct (leading_spaces d3) as (w3 & d4 & -> & Hw3 & Hd4).
  rewrite accepts_spaces in Hacc by done.
  destruct d4 as [|c4 d4]; [by apply accepts_awaiting_end in Hacc; [|left; listed]|].
  assert (∃ val d5,
            String c4 d4 = value_text val +:+ d5 ∧
            from_option literal_body true val = true ∧
            accepts (json.mkScanner json.stateEndValue false [json.parseObjectValue]) d5)
    as (val & d5 & Hval & Hvalok & Hacc5).
  { revert Hread. rewrite read_spaces; [|listed|done].
    change (json.read_map json.atKeyOrEnd k v m0 (String dquote (kb +:+ String dquote
              (w2 +:+ String ":" (w3 +:+ String c4 d4)))))
      with (json.read_map (json.inKey false) "" "" m0 (kb +:+ String dquote
              (w2 +:+ String ":" (w3 +:+ String c4 d4)))).
    rewrite read_key_literal by done.
    rewrite read_spaces; [|listed|done].
    change (json.read_map json.atColon ("" +:+ kb) "" m0 (String ":" (w3 +:+ String c4 d4)))
      with (json.read_map json.atValue ("" +:+ kb) "" m0 (w3 +:+ String c4 d4)).
    rewrite read_spaces; [|listed|done].
    rewrite read_at_value by done. intros Hread.
    rewrite accepts_cons in Hacc.
    destruct (Ascii.eqb_spec c4 dquote) as [->|Hq].
    - change (json.run_step (json.mkScanner json.stateBeginValue false [json.parseObjectValue]) dquote)
        with (json.mkScanner json.stateInString false [json.parseObjectValue]) in Hacc.
      apply accepts_in_string in Hacc as (vb & d5 & -> & Hvb & Hacc).
      exists (Some vb), d5. split; [symmetry; apply quoted_app | done].
    - destruct (Ascii.eqb_spec c4 "n") as [->|]; [|done].
      change (json.run_step (json.mkScanner json.stateBeginValue false [json.parseObjectValue]) "n")
        with (json.mkScanner json.stateN false [json.parseObjectValue]) in Hacc.
      apply accepts_null in Hacc as (d5 & -> & Hacc).
      by exists None, d5. }
  clear Hacc. rewrite Hval in Hread.
  destruct (leading_spaces d5) as (w5 & d6 & -> & Hw5 & Hd6).
  rewrite accepts_spaces in Hacc5 by done.
  set (x := mkMember w1 kb w2 w3 val w5).
  assert (member_ok x = true) as Hx.
  { unfold member_ok, x. simpl. by rewrite Hw1, Hkb, Hw2, Hw3, Hvalok, Hw5. }
  assert (w1 +:+ String dquote (kb +:+ String dquote
            (w2 +:+ String ":" (w3 +:+ (value_text val +:+ w5 +:+ d6))))
          = member_text x +:+ d6) as Htext by (by rewrite member_text_app).
  exists x, d6. split; [done|]. rewrite Hval. split; [done|]. split; [done|].
  split; [done|]. rewrite Htext, read_member in Hread by done. exact Hread.
Qed.

Lemma member_text_length x d :
  (String.length d < String.length (member_text x +:+ String "," d))%nat.
Proof.
  assert (∀ a b, String.length (a +:+ b) = (String.length a + String.length b)%nat)
    as Hlen.
  { intros a b. induction a as [|c a IH]; [done|]. rewrite append_cons. simpl. lia. }
  rewrite Hlen. simpl. lia.
Qed.

(** Where a key is awaited, the scanner and the decoder accept together
    only members with commas between them, the closing brace and white
    space. *)
Lemma members_read_back data k v m0 m :
  accepts (json.mkScanner json.stateBeginString false [json.parseObjectKey]) data →
  json.read_map json.atKeyOrEnd k v m0 data = Ok m →
  ∃ members w2,
    members ≠ [] ∧ forallb member_ok members = true ∧ spaces w2 = true ∧
    data = members_text members +:+ String "}" w2 ∧
    m = foldl (λ m x, <[(member_pair x).1 := (member_pair x).2]> m) m0 members.
Proof.
  remember (String.length data) as n eqn:Hn. revert data k v m0 Hn.
  induction n as [n IH] using lt_wf_ind. intros data k v m0 Hn Hacc Hread.
  destruct (member_read_back data k v m0 m Hacc Hread)
    as (x & d & Hx & -> & Hd & Hacc' & Hread').
  destruct d as [|c d]; [by apply accepts_awaiting_end in Hacc'; [|right]|].
  rewrite accepts_cons, run_step_after_value in Hacc' by done.
  rewrite read_after_value in Hread'.
  destruct (Ascii.eqb_spec c ",") as [->|Hcomma].
  - destruct (IH (String.length d)) with (data := d) (k := mkey x)
        (v := default "" (mvalue x)) (m0 := <[(member_pair x).1 := (member_pair x).2]> m0)
      as (members & w2 & Hne & Hall & Hw2 & -> & ->); [|done..|].
    { rewrite Hn. apply member_text_length. }
    exists (x :: members), w2. split; [done|]. split; [by simpl; rewrite Hx|].
    split; [done|]. split; [|done].
    destruct members as [|y members]; [done|].
    by rewrite members_text_cons, append_assoc.
  - destruct (Ascii.eqb_spec c "}") as [->|]; [|by apply not_accepts_error in Hacc'].
    injection Hread' as <-. apply accepts_end_top in Hacc'.
    exists [x], d. split; [done|]. split; [by simpl; rewrite Hx|]. done.
Qed.

(** Whatever is read is an accepted text, and what is read from it is
    the map of its members. *)
Lemma Unmarshal_read_back j m : json.Unmarshal j = Ok m → reads_as j m.
Proof.
  intros H.
  assert (accepts (json.mkScanner json.stateBeginValue false []) j ∧
          json.read_map json.atTop "" "" ∅ j = Ok m) as [Hvalid Hread].
  { unfold json.Unmarshal in H. by destruct (json.checkValid j) eqn:Hv. }
  clear H. destruct (leading_spaces j) as (w0 & d & -> & Hw0 & Hd).
  rewrite accepts_spaces in Hvalid by done.
  rewrite read_spaces in Hread; [|listed|done].
  destruct d as [|c d]; [done|]. rewrite <- is_ws_isSpace in Hd.
  rewrite accepts_cons in Hvalid.
  cbn [json.read_map] in Hread. rewrite Hd in Hread.
  destruct (Ascii.eqb_spec c "n") as [->|Hn].
  { injection Hread as <-. left.
    change (json.run_step (json.mkScanner json.stateBeginValue false []) "n")
      with (json.mkScanner json.stateN false []) in Hvalid.
    apply accepts_null in Hvalid as (w1 & -> & Hw1%accepts_end_value_top).
    by exists w0, w1. }
  destruct (Ascii.eqb_spec c "{") as [->|]; [|done].
  change (json.run_step (json.mkScanner json.stateBeginValue false []) "{")
    with (json.mkScanner json.stateBeginStringOrEmpty false [json.parseObjectKey])
    in Hvalid.
  right.
  destruct (leading_spaces d) as (w1 & d1 & Hsplit & Hw1 & Hd1).
  destruct d1 as [|c1 d1].
  { rewrite Hsplit, accepts_spaces in Hvalid by done.
    by apply accepts_awaiting_end in Hvalid; [|left; listed]. }
  destruct (Ascii.eqb_spec c1 "}") as [->|Hbrace].
  - rewrite Hsplit, accepts_spaces in Hvalid by done.
    rewrite Hsplit, read_spaces in Hread; [|listed|done].
    injection Hread as <-.
    change (accepts (json.mkScanner json.stateEndTop true []) d1) in Hvalid.
    apply accepts_end_top in Hvalid.
    exists w0, w1, [], d1. rewrite Hsplit. done.
  - assert (accepts (json.mkScanner json.stateBeginString false [json.parseObjectKey]) d)
      as Hacc.
    { rewrite Hsplit, accepts_spaces, accepts_cons in Hvalid by done.
      rewrite Hsplit, accepts_spaces, accepts_cons by done.
      rewrite run_step_begin_string in Hvalid; [|listed|done..].
      rewrite run_step_begin_string; [done|listed|done..]. }
    destruct (members_read_back d "" "" ∅ m Hacc Hread)
      as (members & w2 & Hne & Hall & Hw2 & -> & ->).
    exists w0, "", members, w2. unfold object_text, decoded.
    destruct members; done.
Qed.

(** [json.Unmarshal] into a [map[string]string] succeeds on the accepted
    texts and on no other, and returns the map of the members. *)
Lemma Unmarshal_spec j m : json.Unmarshal j = Ok m ↔ reads_as j m.
Proof. split; [apply Unmarshal_read_back | apply Unmarshal_reads]. Qed.

(** *** The texts that are refused *)

Lemma read_member_start k v m x d :
  member_ok x = true →
  json.read_map json.atKeyOrEnd k v m (member_start x +:+ d)
  = json.read_map json.atValue (mkey x) "" m d.
Proof.
  intros (Hlead & Hkey & Hgap1 & Hgap2 & _ & _)%member_ok_parts.
  rewrite member_start_app.
  rewrite read_spaces; [|listed|done].
  match goal with
  | |- json.read_map _ _ _ _ (String dquote ?rest) = _ =>
      change (json.read_map json.atKeyOrEnd k v m (String dquote rest))
        with (json.read_map (json.inKey false) "" "" m rest)
  end.
  rewrite read_key_literal by done.
  rewrite read_spaces; [|listed|done].
  match goal with
  | |- json.read_map _ ?k' ?v' _ (String ":" ?rest) = _ =>
      change (json.read_map json.atColon k' v' m (String ":" rest))
        with (json.read_map json.atValue k' v' m rest)
  end.
  by rewrite read_spaces; [|listed|done].
Qed.

(** A text whose value is neither an object nor [null] is refused. *)
Lemma Unmarshal_other_value w0 c d :
  spaces w0 = true → is_ws c = false → c ≠ "{"%char → c ≠ "n"%char →
  ∃ e, json.Unmarshal (w0 +:+ String c d) = Fail e.
Proof.
  intros Hw0 Hc Hbrace Hn. unfold json.Unmarshal.
  destruct (json.checkValid _); [|eauto].
  rewrite read_spaces; [|listed|done].
  rewrite <- is_ws_isSpace in Hc. apply Ascii.eqb_neq in Hbrace, Hn.
  cbn [json.read_map]. rewrite Hc, Hbrace, Hn. eauto.
Qed.

Lemma read_object_start k v m members x c d :
  forallb member_ok members = true → member_ok x = true →
  is_ws c = false → c ≠ dquote → c ≠ "n"%char →
  json.read_map json.atKeyOrEnd k v m
    (foldr (λ y rest, member_text y +:+ "," +:+ rest) (member_start x) members
     +:+ String c d)
  = Fail (json.UnmarshalTypeError (json.kind_of c)).
Proof.
  intros Hall Hx Hc Hq Hn. revert k v m.
  induction members as [|y members IH]; intros k v m.
  - simpl foldr. rewrite read_member_start by done.
    apply Ascii.eqb_neq in Hq, Hn.
    rewrite read_at_value by done. by rewrite Hq, Hn.
  - apply andb_prop in Hall as [Hy Hall]. simpl foldr.
    rewrite !append_assoc, read_member by done.
    rewrite append_cons.
    match goal with
    | |- json.read_map _ ?k' ?v' ?m' (String "," ?rest) = _ =>
        change (json.read_map json.atCommaOrEnd k' v' m' (String "," rest))
          with (json.read_map json.atKeyOrEnd k' v' m' rest)
    end.
    change ("" +:+ ?z) with z. by apply IH.
Qed.

(** An object with a member whose value is neither a string nor [null]
    is refused. *)
Lemma Unmarshal_other_member w0 members x c d :
  spaces w0 = true → forallb member_ok members = true → member_ok x = true →
  is_ws c = false → c ≠ dquote → c ≠ "n"%char →
  ∃ e, json.Unmarshal (object_start w0 members x +:+ String c d) = Fail e.
Proof.
  intros Hw0 Hall Hx Hc Hq Hn. unfold json.Unmarshal.
  destruct (json.checkValid _); [|eauto].
  unfold object_start. rewrite !append_assoc.
  rewrite read_spaces; [|listed|done].
  rewrite append_cons.
  match goal with
  | |- context [json.read_map json.atTop ?k ?v ?m0 (String "{" ?rest)] =>
      change (json.read_map json.atTop k v m0 (String "{" rest))
        with (json.read_map json.atKeyOrEnd k v m0 rest)
  end.
  change ("" +:+ ?z) with z. rewrite read_object_start by done. eauto.
Qed.

(** ** [JSON] *)

Lemma JSON_unfold j s :
  JSON j s =
    match json.Unmarshal j with
    | Fail err => (Some (json_error err), s)
    | Ok values =>
        (None, Header_Add "Content-Type" "application/json"
                 (map_fold (λ k v s, Values_Add k v s) s values))
    end.
Proof. reflexivity. Qed.

(** C8, as amended.  [JSON] returns no error exactly on the texts that
    are, between white space, [null] or an object whose members each
    have a string for key and a string or [null] for value; on every
    other text it returns the error of [json.Unmarshal] and changes
    nothing.  So it refuses what is not valid JSON, every text whose
    value is a string, a number, a boolean or an array, and every object
    with a member whose value is a number, a boolean, an array or an
    object; and it accepts [null] and [null] members, which no flat
    object of strings has.  On success every key of the object gets its
    value (the last one if the key comes twice, the empty string for
    [null]) appended behind the values it already had in the value store,
    and [Content-Type] is [application/json]. *)
Theorem JSON_imports (j : string) (s : State) :
  ((JSON j s).1 = None ↔ ∃ m, reads_as j m) ∧
  ((JSON j s).1 ≠ None → ∃ e, JSON j s = (Some (json_error e), s)) ∧
  (flat_string_object j = true → (JSON j s).1 = None) ∧
  (∀ w0 c d,
     j = w0 +:+ String c d → spaces w0 = true → is_ws c = false →
     c ≠ "{"%char → c ≠ "n"%char → (JSON j s).1 ≠ None) ∧
  (∀ w0 members x c d,
     j = object_start w0 members x +:+ String c d →
     spaces w0 = true → forallb member_ok members = true → member_ok x = true →
     is_ws c = false → c ≠ dquote → c ≠ "n"%char → (JSON j s).1 ≠ None) ∧
  (∀ m, reads_as j m →
     let s' := (JSON j s).2 in
     (∀ k, stored s' k = stored s k ++ option_list (m !! k)) ∧
     content_type s' = "application/json" ∧
     URL (r s') = URL (r s)).
Proof.
  rewrite JSON_unfold.
  split; [|split; [|split; [|split; [|split]]]].
  - setoid_rewrite <- Unmarshal_spec.
    destruct (json.Unmarshal j) as [m|e]; simpl.
    + split; eauto.
    + split; [done | by intros [? ?]].
  - destruct (json.Unmarshal j) as [m|e]; simpl; [done | eauto].
  - intros (m & Hm)%flat_string_object_Unmarshal. by rewrite Hm.
  - intros w0 c d -> Hw0 Hc Hbrace Hn.
    by destruct (Unmarshal_other_value w0 c d Hw0 Hc Hbrace Hn) as [e ->].
  - intros w0 members x c d -> Hw0 Hall Hx Hc Hq Hn.
    by destruct (Unmarshal_other_member w0 members x c d Hw0 Hall Hx Hc Hq Hn) as [e ->].
  - intros m Hm%Unmarshal_spec. rewrite Hm. simpl.
    pose proof (import_spec m s) as [Hframe Hstored]. simpl in Hframe, Hstored.
    set (s1 := map_fold _ s m) in *.
    split; [|split].
    + intros k. by rewrite Header_Add_stored.
    + by pose proof (Header_Add_spec "Content-Type" "application/json" s1)
        as (_ & _ & _ & _ & ?).
    + rewrite Header_Add_URL. by apply only_values_differ_fields in Hframe as (? & _).
Qed.

Lemma JSON_imports_witness :
  let s := Values_Add "key" "old" (fresh_request "http://127.0.0.1/?test=true") in
  let j := json_text " { 'key' : 'value' , 'n':null} " in
  let s' := (JSON j s).2 in
  (JSON j s).1 = None ∧
  stored s' "key" = ["old"; "value"] ∧
  stored s' "n" = [""] ∧
  content_type s' = "application/json" ∧
  JSON "hello world" s = (Some (json_error json.SyntaxError), s) ∧
  (JSON (json_text "{'key':'value','n':1}") s).1 ≠ None.
Proof.
  intros s j s'.
  destruct (JSON_imports j s) as (Hiff & _ & _ & _ & _ & Hok).
  destruct (JSON_imports "hello world" s) as (_ & Hfail & _ & Hother & _).
  destruct (JSON_imports (json_text "{'key':'value','n':1}") s)
    as (_ & _ & _ & _ & Hmember & _).
  set (members := [mkMember " " "key" " " " " (Some "value") " ";
                   mkMember " " "n" "" "" None ""]).
  assert (reads_as j (decoded members)) as Hreads.
  { right. exists " ", "", members, " ". clear. repeat split; reflexivity. }
  split; [apply Hiff; eauto|].
  destruct (Hok _ Hreads) as (Hstored & Hct & _).
  split; [rewrite Hstored; clear; by vm_compute|].
  split; [rewrite Hstored; clear; by vm_compute|].
  split; [exact Hct|]. split.
  - destruct Hfail as [e He].
    + apply (Hother "" "h"%char "ello world"); done.
    + rewrite He. clear -He. vm_compute in He. by injection He as <-.
  - apply (Hmember "" [mkMember "" "key" "" "" (Some "value") ""]
             (mkMember "" "n" "" "" None "") "1"%char "}"); done.
Defined.
